(** * WebCloner: a shallow embedding of [webCloner.py]

    The cloner drives three outside parties: a Playwright browser session, an
    HTTP client and the local file system.  None of them is part of the
    program, so the model treats them as an oracle ([World]) that answers the
    n-th outside call of a run; the program itself is a state-and-exception
    monad over the cloner's mutable registry ([self.assets]), the console and
    the list of outside calls made so far together with their answers. *)

From Stdlib Require Import String Ascii List ZArith Lia Bool Arith.
From Stdlib Require Import Decimal DecimalNat DecimalString Sorted Permutation.
Import ListNotations.
Open Scope string_scope.

(** ** Python values *)

(** A raised exception.  [is_Exception] tells whether it is an instance of
    [Exception] (what [except Exception] catches) or only of [BaseException]
    ([KeyboardInterrupt], [asyncio.CancelledError], ...). *)
Record exn := mkExn { is_Exception : bool; exn_str : string }.

(** The keys of [self.assets], in the insertion order of [__init__]. *)
Inductive asset_key := css | js | images | fonts | svgs.

Definition asset_keys : list asset_key := [css; js; images; fonts; svgs].

(** [self.assets]: a dict with exactly those five keys, each holding a list. *)
Record Registry := mkRegistry {
  r_css : list string;
  r_js : list string;
  r_images : list string;
  r_fonts : list string;
  r_svgs : list string
}.

Definition get (k : asset_key) (r : Registry) : list string :=
  match k with
  | css => r_css r
  | js => r_js r
  | images => r_images r
  | fonts => r_fonts r
  | svgs => r_svgs r
  end.

Definition set (k : asset_key) (v : list string) (r : Registry) : Registry :=
  match k with
  | css => mkRegistry v (r_js r) (r_images r) (r_fonts r) (r_svgs r)
  | js => mkRegistry (r_css r) v (r_images r) (r_fonts r) (r_svgs r)
  | images => mkRegistry (r_css r) (r_js r) v (r_fonts r) (r_svgs r)
  | fonts => mkRegistry (r_css r) (r_js r) (r_images r) v (r_svgs r)
  | svgs => mkRegistry (r_css r) (r_js r) (r_images r) (r_fonts r) v
  end.

Definition empty_registry : Registry := mkRegistry [] [] [] [] [].

(** The dict handed to [json.dump] by [save_metadata]. *)
Record Metadata := mkMetadata {
  m_url : string;
  m_domain : string;
  css_count : nat;
  js_count : nat;
  images_count : nat;
  fonts_count : nat;
  svgs_count : nat;
  asset_urls : Registry
}.

Definition count_of (k : asset_key) (m : Metadata) : nat :=
  match k with
  | css => css_count m
  | js => js_count m
  | images => images_count m
  | fonts => fonts_count m
  | svgs => svgs_count m
  end.

(** ** The library functions the cloner calls

    [list(set(xs))], [Path(urlparse(u).path).suffix], [urljoin] and
    [urlparse(u).netloc] belong to the Python runtime, not to the repository.
    They are taken as given, with the two facts the cloner relies on: a set
    keeps each element once (in an order Python does not promise), and a path
    suffix is empty or starts with a dot.  They are taken on the URLs they
    accept: [urlparse] and [urljoin] raise [ValueError] on a few malformed
    ones (an unbalanced bracket in the host, for one), which is outside the
    model. *)
Record PyLib := mkPyLib {
  list_set : list string -> list string;
  list_set_NoDup : forall l, NoDup (list_set l);
  list_set_In : forall l x, In x (list_set l) <-> In x l;
  url_suffix : string -> string;
  url_suffix_dot : forall u, url_suffix u = "" \/ exists s, url_suffix u = String "." s;
  urljoin : string -> string -> string;
  netloc : string -> string
}.

(** ** Outside calls and their answers *)

(** Calls that return nothing the cloner looks at. *)
Inductive uop :=
| Mkdir (path : string)
| PlaywrightStart
| PlaywrightStop
| Launch (headless : bool)
| NewContext (width height : Z) (user_agent : string)
| NewPage
| Goto (url : string) (wait_until : string) (timeout_ms : Z)
| WaitForLoadState (milestone : string)
| Click (selector : string) (timeout_ms : Z)
| ScrollTo (y : Z)
| AwaitImages
| AwaitFontsReady
| Screenshot (path : string) (full_page : bool)
| BrowserClose.

(** The five [page.evaluate] snippets of [extract_assets_from_page]; each
    returns a JavaScript array of strings. *)
Inductive url_query := QCss | QJs | QImages | QSvgs | QFonts.

(** [document.body.scrollHeight] and [window.innerHeight]. *)
Inductive num_query := ScrollHeight | InnerHeight.

(** [session.get(url)] either raises or yields a response with a status whose
    body, when read, raises or yields bytes. *)
Inductive http_reply :=
| HttpRaise (e : exn)
| HttpStatus (status : Z) (body : exn + string).

(** [open(path, 'w'); f.write(data)]: all written, [open] raised (nothing is
    created), or the write raised after [open] created the file. *)
Inductive file_reply :=
| FileOk
| OpenFailed (e : exn)
| WriteFailed (e : exn).

Inductive file_kind := AssetFile | HtmlFile | ManifestFile.

Inductive content :=
| Raw (bytes : string)
| Html (text : string)
| Json (m : Metadata)
| Png (full_page : bool)
| Truncated.

(** One outside call together with the answer it got. *)
Inductive interaction :=
| IUnit (o : uop) (r : option exn)
| IUrls (q : url_query) (r : exn + list string)
| INum (q : num_query) (r : exn + Z)
| IContent (r : exn + string)
| IGet (url : string) (r : http_reply)
| IFile (k : file_kind) (path : string) (c : content) (r : file_reply).

(** The outside world: the answer to each call, by the number of outside
    calls made before it.  Whatever a real browser, server or disk does during
    a run is some such function. *)
Record World := mkWorld {
  w_unit : nat -> uop -> option exn;
  w_urls : nat -> url_query -> exn + list string;
  w_num : nat -> num_query -> exn + Z;
  w_content : nat -> exn + string;
  w_get : nat -> string -> http_reply;
  w_file : nat -> string -> file_reply
}.

(** ** Program state *)

Inductive line := Line (s : string) | Traceback (e : exn).

Record state := mkState {
  assets : Registry;
  trace : list interaction;
  console : list line
}.

(** The immutable fields of [self]. *)
Record Cloner := mkCloner {
  url : string;
  output_dir : string;
  domain : string
}.

(** [WebCloner.__init__]. *)
Definition init (py : PyLib) (u : string) (out : string) : Cloner * state :=
  (mkCloner u out (netloc py u), mkState empty_registry [] []).

(** ** The monad: state, exceptions, and fuel for the one [while] loop *)

Inductive result (A : Type) :=
| Ok (a : A)
| Raise (e : exn)
| OutOfFuel.
Arguments Ok {A} a.
Arguments Raise {A} e.
Arguments OutOfFuel {A}.

Definition M (A : Type) : Type := state -> result A * state.

Definition ret {A} (a : A) : M A := fun s => (Ok a, s).

Definition raise {A} (e : exn) : M A := fun s => (Raise e, s).

Definition bind {A B} (m : M A) (f : A -> M B) : M B :=
  fun s =>
    match m s with
    | (Ok a, s') => f a s'
    | (Raise e, s') => (Raise e, s')
    | (OutOfFuel, s') => (OutOfFuel, s')
    end.

Declare Scope monad_scope.
Delimit Scope monad_scope with monad.
Notation "x <- m ;; k" := (bind m (fun x => k))
  (at level 61, m at next level, right associativity) : monad_scope.
Notation "m ;; k" := (bind m (fun _ => k))
  (at level 61, right associativity) : monad_scope.
Open Scope monad_scope.

(** [try: m  except Exception as e: h e]. *)
Definition try_except {A} (m : M A) (h : exn -> M A) : M A :=
  fun s =>
    match m s with
    | (Raise e, s') => if is_Exception e then h e s' else (Raise e, s')
    | other => other
    end.

(** [try: m  except: h] (a bare [except] catches every exception). *)
Definition try_bare {A} (m : M A) (h : M A) : M A :=
  fun s =>
    match m s with
    | (Raise _, s') => h s'
    | other => other
    end.

(** Leaving a [with] block: [exit] runs whether the body returned or raised,
    and an exception of the body is raised again after it. *)
Definition with_exit {A} (m : M A) (exit : M unit) : M A :=
  fun s =>
    match m s with
    | (Ok a, s') => (exit ;; ret a) s'
    | (Raise e, s') => (exit ;; raise e) s'
    | (OutOfFuel, s') => (OutOfFuel, s')
    end.

(** [print(msg)] on a console that takes the message.  A console that
    cannot take it (a standard output that cannot encode the text, a closed
    pipe) makes [print] raise; that is outside the model, and what is stated
    about the exceptions of a function is stated for a console that takes
    every message. *)
Definition print (msg : string) : M unit :=
  fun s => (Ok tt, mkState (assets s) (trace s) (console s ++ [Line msg])).

(** [traceback.print_exc()]. *)
Definition print_exc (e : exn) : M unit :=
  fun s => (Ok tt, mkState (assets s) (trace s) (console s ++ [Traceback e])).

(** [asyncio.sleep]: only wall-clock time passes.  Answers are indexed by the
    number of calls, so whatever changes outside during the pause is already
    part of the later answers. *)
Definition sleep (milliseconds : Z) : M unit := ret tt.

Definition record (i : interaction) (s : state) : state :=
  mkState (assets s) (trace s ++ [i]) (console s).

Definition get_assets (k : asset_key) : M (list string) :=
  fun s => (Ok (get k (assets s)), s).

Definition set_assets (k : asset_key) (v : list string) : M unit :=
  fun s => (Ok tt, mkState (set k v (assets s)) (trace s) (console s)).

Fixpoint for_each {A} (l : list A) (body : A -> M unit) : M unit :=
  match l with
  | [] => ret tt
  | x :: rest => body x ;; for_each rest body
  end.

(** [for i, x in enumerate(l)], counting from [i]. *)
Fixpoint for_enumerate_from (i : nat) (l : list string)
    (body : nat -> string -> M unit) : M unit :=
  match l with
  | [] => ret tt
  | x :: rest => body i x ;; for_enumerate_from (S i) rest body
  end.

Definition for_enumerate := for_enumerate_from 0.

(** [str(i)] for a non-negative integer. *)
Definition str (n : nat) : string := NilEmpty.string_of_uint (Nat.to_uint n).

Definition nl : string := String (ascii_of_nat 10) "".
Definition dq : string := String (ascii_of_nat 34) "".

(** ** The cloner *)

Section WebCloner.

Variable py : PyLib.
Variable w : World.
Variable self : Cloner.

(** *** Performing outside calls: the answer is the world's answer at the
    current call count, and the call is recorded with it. *)

Definition call (o : uop) : M unit :=
  fun s =>
    let r := w_unit w (length (trace s)) o in
    let s' := record (IUnit o r) s in
    match r with
    | None => (Ok tt, s')
    | Some e => (Raise e, s')
    end.

Definition evaluate_urls (q : url_query) : M (list string) :=
  fun s =>
    let r := w_urls w (length (trace s)) q in
    let s' := record (IUrls q r) s in
    match r with
    | inr l => (Ok l, s')
    | inl e => (Raise e, s')
    end.

Definition evaluate_num (q : num_query) : M Z :=
  fun s =>
    let r := w_num w (length (trace s)) q in
    let s' := record (INum q r) s in
    match r with
    | inr z => (Ok z, s')
    | inl e => (Raise e, s')
    end.

Definition page_content : M string :=
  fun s =>
    let r := w_content w (length (trace s)) in
    let s' := record (IContent r) s in
    match r with
    | inr t => (Ok t, s')
    | inl e => (Raise e, s')
    end.

Definition http_get (u : string) : M (Z * (exn + string)) :=
  fun s =>
    let r := w_get w (length (trace s)) u in
    let s' := record (IGet u r) s in
    match r with
    | HttpStatus status body => (Ok (status, body), s')
    | HttpRaise e => (Raise e, s')
    end.

Definition read (body : exn + string) : M string :=
  match body with
  | inr b => ret b
  | inl e => raise e
  end.

Definition write_file (k : file_kind) (path : string) (c : content) : M unit :=
  fun s =>
    let r := w_file w (length (trace s)) path in
    let s' := record (IFile k path c r) s in
    match r with
    | FileOk => (Ok tt, s')
    | OpenFailed e => (Raise e, s')
    | WriteFailed e => (Raise e, s')
    end.

(** *** [setup_directories] *)
Definition directories : list string :=
  [ output_dir self;
    output_dir self ++ "/css";
    output_dir self ++ "/js";
    output_dir self ++ "/images";
    output_dir self ++ "/fonts";
    output_dir self ++ "/svgs";
    output_dir self ++ "/screenshots" ].

Definition setup_directories : M unit :=
  for_each directories (fun directory => call (Mkdir directory)) ;;
  print ("✅ Created directory structure in " ++ output_dir self ++ "/").

(** *** [download_file]: [Some true] and [Some false] are Python's [True] and
    [False]; [None] is the [None] a function returns when it falls off its
    end. *)
Definition download_file (u filepath : string) : M (option bool) :=
  try_except
    (response <- http_get u ;;
     if (fst response =? 200)%Z then
       content <- read (snd response) ;;
       write_file AssetFile filepath (Raw content) ;;
       ret (Some true)
     else ret None)
    (fun e =>
       print ("⚠️  Error downloading " ++ u ++ ": " ++ exn_str e) ;;
       ret (Some false)).

(** Python truthiness of what [download_file] returns. *)
Definition truthy (r : option bool) : bool :=
  match r with
  | Some true => true
  | _ => false
  end.

(** *** [extract_assets_from_page] *)
Definition extend (k : asset_key) (l : list string) : M unit :=
  old <- get_assets k ;; set_assets k (old ++ l).

Definition append (k : asset_key) (x : string) : M unit :=
  old <- get_assets k ;; set_assets k (old ++ [x]).

Definition found_line (k : asset_key) (what : string) : M unit :=
  l <- get_assets k ;;
  print ("✅ Found " ++ str (length l) ++ " " ++ what).

Definition extract_assets_from_page : M unit :=
  print (nl ++ "🔍 Extracting assets from page...") ;;
  css_links <- evaluate_urls QCss ;;
  extend css css_links ;;
  js_links <- evaluate_urls QJs ;;
  extend js js_links ;;
  image_links <- evaluate_urls QImages ;;
  extend images image_links ;;
  svg_links <- evaluate_urls QSvgs ;;
  extend svgs svg_links ;;
  all_fonts <- evaluate_urls QFonts ;;
  for_each all_fonts (fun font_url =>
    if prefix "http" font_url then append fonts font_url
    else append fonts (urljoin py (url self) font_url)) ;;
  for_each asset_keys (fun key =>
    old <- get_assets key ;; set_assets key (list_set py old)) ;;
  found_line css "CSS files" ;;
  found_line js "JS files" ;;
  found_line images "images" ;;
  found_line fonts "fonts" ;;
  found_line svgs "SVGs".

(** *** [download_assets] *)
Definition download_assets : M unit :=
  print (nl ++ "📥 Downloading assets...") ;;
  l <- get_assets css ;;
  for_enumerate l (fun i css_url =>
    let filename := "style_" ++ str i ++ ".css" in
    let filepath := output_dir self ++ "/css/" ++ filename in
    ok <- download_file css_url filepath ;;
    if truthy ok then print ("✅ Downloaded CSS: " ++ filename) else ret tt) ;;
  l <- get_assets js ;;
  for_enumerate l (fun i js_url =>
    let filename := "script_" ++ str i ++ ".js" in
    let filepath := output_dir self ++ "/js/" ++ filename in
    ok <- download_file js_url filepath ;;
    if truthy ok then print ("✅ Downloaded JS: " ++ filename) else ret tt) ;;
  l <- get_assets images ;;
  for_enumerate l (fun i img_url =>
    let ext := if (url_suffix py img_url =? "")%string then ".jpg"
               else url_suffix py img_url in
    let filename := "image_" ++ str i ++ ext in
    let filepath := output_dir self ++ "/images/" ++ filename in
    ok <- download_file img_url filepath ;;
    if truthy ok then print ("✅ Downloaded Image: " ++ filename) else ret tt) ;;
  l <- get_assets svgs ;;
  for_enumerate l (fun i svg_url =>
    let filename := "svg_" ++ str i ++ ".svg" in
    let filepath := output_dir self ++ "/svgs/" ++ filename in
    ok <- download_file svg_url filepath ;;
    if truthy ok then print ("✅ Downloaded SVG: " ++ filename) else ret tt) ;;
  l <- get_assets fonts ;;
  for_enumerate l (fun i font_url =>
    let ext := if (url_suffix py font_url =? "")%string then ".woff2"
               else url_suffix py font_url in
    let filename := "font_" ++ str i ++ ext in
    let filepath := output_dir self ++ "/fonts/" ++ filename in
    ok <- download_file font_url filepath ;;
    if truthy ok then print ("✅ Downloaded Font: " ++ filename) else ret tt).

(** *** [save_html] *)
Definition save_html : M unit :=
  print (nl ++ "📄 Saving HTML...") ;;
  html_content <- page_content ;;
  write_file HtmlFile (output_dir self ++ "/index.html") (Html html_content) ;;
  print ("✅ Saved HTML to " ++ output_dir self ++ "/index.html").

(** *** [scroll_page_fully]: the [while] loop, with fuel *)
Fixpoint scroll_loop (fuel : nat) (current_position total_height scroll_step : Z)
    : M unit :=
  match fuel with
  | O => fun s => (OutOfFuel, s)
  | S fuel' =>
      if (current_position <? total_height)%Z then
        call (ScrollTo current_position) ;;
        sleep 500 ;;
        total_height' <- evaluate_num ScrollHeight ;;
        scroll_loop fuel' (current_position + scroll_step)%Z total_height' scroll_step
      else ret tt
  end.

Definition scroll_page_fully (fuel : nat) : M unit :=
  print "🔄 Scrolling through page to load lazy content..." ;;
  total_height <- evaluate_num ScrollHeight ;;
  viewport_height <- evaluate_num InnerHeight ;;
  scroll_loop fuel 0%Z total_height viewport_height ;;
  call (ScrollTo 0) ;;
  sleep 1000 ;;
  print "✅ Finished scrolling through page".

(** *** [wait_for_images_and_fonts] *)
Definition wait_for_images_and_fonts : M unit :=
  print "⏳ Waiting for all images and fonts to load..." ;;
  call AwaitImages ;;
  call AwaitFontsReady ;;
  sleep 2000 ;;
  print "✅ All images and fonts loaded".

(** *** [take_screenshots] *)
Definition take_screenshots (fuel : nat) : M unit :=
  print (nl ++ "📸 Taking screenshots...") ;;
  scroll_page_fully fuel ;;
  wait_for_images_and_fonts ;;
  call (Screenshot (output_dir self ++ "/screenshots/fullpage.png") true) ;;
  print "✅ Saved full page screenshot" ;;
  call (Screenshot (output_dir self ++ "/screenshots/viewport.png") false) ;;
  print "✅ Saved viewport screenshot".

(** *** [save_metadata] *)
Definition metadata_of (r : Registry) : Metadata :=
  mkMetadata (url self) (domain self)
    (length (get css r)) (length (get js r)) (length (get images r))
    (length (get fonts r)) (length (get svgs r)) r.

Definition save_metadata : M unit :=
  metadata <- (fun s => (Ok (metadata_of (assets s)), s)) ;;
  write_file ManifestFile (output_dir self ++ "/metadata.json") (Json metadata) ;;
  print ("✅ Saved metadata to " ++ output_dir self ++ "/metadata.json").

(** *** [clone] *)
Definition cookie_selectors : list string :=
  [ "text=/accept all/i";
    "text=/accept/i";
    "button:has-text(" ++ dq ++ "Accept" ++ dq ++ ")";
    "button:has-text(" ++ dq ++ "Accept All" ++ dq ++ ")";
    "[class*=" ++ dq ++ "accept" ++ dq ++ "]";
    "[id*=" ++ dq ++ "accept" ++ dq ++ "]" ].

(** The [for selector in cookie_selectors] loop: [break] after the first
    click that does not raise, [continue] after one that does. *)
Fixpoint close_cookie_popup (selectors : list string) : M unit :=
  match selectors with
  | [] => ret tt
  | selector :: rest =>
      clicked <- try_bare
                   (call (Click selector 1000) ;;
                    sleep 1000 ;;
                    print "✅ Closed cookie popup" ;;
                    ret true)
                   (ret false) ;;
      if clicked then ret tt else close_cookie_popup rest
  end.

Definition user_agent : string :=
  "Mozilla/5.0 (Macintosh; Intel Mac OS X 10_15_7) AppleWebKit/537.36 (KHTML, like Gecko) Chrome/120.0.0.0 Safari/537.36".

(** Lines 289-294: the browser, its context and its page. *)
Definition launch_browser : M unit :=
  call (Launch false) ;;
  call (NewContext 1920 1080 user_agent) ;;
  call NewPage.

(** Lines 298-332: what follows a navigation that did not raise. *)
Definition settle : M unit :=
  print "✅ Initial page load complete" ;;
  call (WaitForLoadState "domcontentloaded") ;;
  call (WaitForLoadState "load") ;;
  sleep 3000 ;;
  try_bare (close_cookie_popup cookie_selectors) (ret tt) ;;
  sleep 2000 ;;
  print "✅ Page loaded successfully".

(** Lines 286-332: launch, navigate, settle, dismiss the cookie banner. *)
Definition open_page : M unit :=
  print ("🌐 Navigating to " ++ url self ++ "...") ;;
  launch_browser ;;
  call (Goto (url self) "networkidle" 60000) ;;
  settle.

(** Lines 334-350: the stages that follow. *)
Definition capture (fuel : nat) : M unit :=
  extract_assets_from_page ;;
  download_assets ;;
  save_html ;;
  take_screenshots fuel ;;
  save_metadata ;;
  print (nl ++ "✅ Web cloning completed! All files saved to: " ++ output_dir self ++ "/") ;;
  call BrowserClose.

(** The [except Exception as e] handler of [clone]. *)
Definition report (e : exn) : M unit :=
  print ("❌ Error during cloning: " ++ exn_str e) ;;
  print_exc e.

Definition clone (fuel : nat) : M unit :=
  print (nl ++ "🚀 Starting web cloning for: " ++ url self ++ nl) ;;
  setup_directories ;;
  call PlaywrightStart ;;
  with_exit
    (try_except (open_page ;; capture fuel) report)
    (call PlaywrightStop).

End WebCloner.

(** [WebCloner(url, output_dir).clone()], as [main] runs it. *)
Definition run_clone (py : PyLib) (w : World) (u out : string) (fuel : nat)
    : result unit * state :=
  clone py w (fst (init py u out)) fuel (snd (init py u out)).

(** ** [main]

    [input(...)] hands over the line the user typed; [str.strip] is Python's
    (it is taken as a function, as the functions of [PyLib] are). *)

(** [s.replace('.', '_')]. *)
Fixpoint replace_dots (s : string) : string :=
  match s with
  | EmptyString => EmptyString
  | String c rest =>
      String (if Ascii.eqb c "."%char then "_"%char else c) (replace_dots rest)
  end.

(** Lines 361-362: the URL that is cloned. *)
Definition main_url (strip : string -> string) (typed : string) : string :=
  let url := strip typed in
  if prefix "http" url then url else "https://" ++ url.

(** Lines 365-366: the directory the clone is written to. *)
Definition main_output_dir (py : PyLib) (url : string) : string :=
  let domain := replace_dots (netloc py url) in
  "cloned_" ++ domain.

(** Lines 369-370: the cloner that [main] builds, and its run. *)
Definition main_cloner (py : PyLib) (strip : string -> string) (typed : string)
    : Cloner * state :=
  init py (main_url strip typed) (main_output_dir py (main_url strip typed)).

Definition main (py : PyLib) (w : World) (strip : string -> string)
    (typed : string) (fuel : nat) : result unit * state :=
  run_clone py w (main_url strip typed)
    (main_output_dir py (main_url strip typed)) fuel.

(** ** Reading a run: the file system and the pipeline stages *)

Inductive entry := Dir | File (c : content).

Definition FS := string -> option entry.

Definition put (p : string) (e : entry) (fs : FS) : FS :=
  fun q => if (q =? p)%string then Some e else fs q.

(** [q] is a directory above [p]: [p] is [q], a slash and more. *)
Definition above (q p : string) : bool :=
  negb (q =? "")%string && prefix (q ++ "/") p.

(** [Path(p).mkdir(parents=True, exist_ok=True)] that returned: [p] is a
    directory, and so is every directory above it (each one was there, or has
    been created). *)
Definition mkdir (p : string) (fs : FS) : FS :=
  fun q => if (q =? p)%string || above q p then Some Dir else fs q.

(** What one outside call leaves on disk. *)
Definition effect (i : interaction) (fs : FS) : FS :=
  match i with
  | IUnit (Mkdir p) None => mkdir p fs
  | IUnit (Screenshot p full) None => put p (File (Png full)) fs
  | IFile _ p c FileOk => put p (File c) fs
  | IFile _ p _ (WriteFailed _) => put p (File Truncated) fs
  | _ => fs
  end.

(** The file system after the calls of [tr], starting from [fs]. *)
Fixpoint fs_after (fs : FS) (tr : list interaction) : FS :=
  match tr with
  | [] => fs
  | i :: rest => fs_after (effect i fs) rest
  end.

(** The path an outside call is given to create or overwrite, if any.  A
    [mkdir] may create more than the path it is given: see [reaches]. *)
Definition touched (i : interaction) : option string :=
  match i with
  | IUnit (Mkdir p) None => Some p
  | IUnit (Screenshot p _) None => Some p
  | IFile _ p _ FileOk => Some p
  | IFile _ p _ (WriteFailed _) => Some p
  | _ => None
  end.

(** Every path an outside call may create or overwrite: the path it is
    given and, for a [mkdir], the directories above that path. *)
Definition reaches (i : interaction) (q : string) : bool :=
  match i with
  | IUnit (Mkdir p) None => (q =? p)%string || above q p
  | IUnit (Screenshot p _) None => (q =? p)%string
  | IFile _ p _ FileOk => (q =? p)%string
  | IFile _ p _ (WriteFailed _) => (q =? p)%string
  | _ => false
  end.

Definition empty_fs : FS := fun _ => None.

(** The place of an outside call in the order in which [clone] is written:
    each kind of call has one. *)
Definition stage (i : interaction) : nat :=
  match i with
  | IUnit (Mkdir _) _ => 0
  | IUnit PlaywrightStart _ => 1
  | IUnit (Launch _) _ => 2
  | IUnit (NewContext _ _ _) _ => 3
  | IUnit NewPage _ => 4
  | IUnit (Goto _ _ _) _ => 5
  | IUnit (WaitForLoadState _) _ => 6
  | IUnit (Click _ _) _ => 7
  | IUrls _ _ => 8
  | IGet _ _ => 9
  | IFile AssetFile _ _ _ => 9
  | IContent _ => 10
  | IFile HtmlFile _ _ _ => 11
  | INum _ _ => 12
  | IUnit (ScrollTo _) _ => 12
  | IUnit AwaitImages _ => 13
  | IUnit AwaitFontsReady _ => 14
  | IUnit (Screenshot _ _) _ => 15
  | IFile ManifestFile _ _ _ => 16
  | IUnit BrowserClose _ => 17
  | IUnit PlaywrightStop _ => 18
  end.

(** The stages the specification names. *)
Definition is_navigation (i : interaction) : Prop := 2 <= stage i <= 6.
Definition is_dismissal (i : interaction) : Prop := stage i = 7.
Definition is_discovery (i : interaction) : Prop := stage i = 8.
Definition is_download (i : interaction) : Prop := stage i = 9.
Definition is_html_snapshot (i : interaction) : Prop := 10 <= stage i <= 11.
Definition is_scroll (i : interaction) : Prop := stage i = 12.
Definition is_media_wait (i : interaction) : Prop := 13 <= stage i <= 14.
Definition is_screenshot (i : interaction) : Prop := stage i = 15.

(** [a] is called, and some time later [b] is called. *)
Definition before (tr : list interaction) (a b : interaction) : Prop :=
  exists l1 l2 l3, tr = (l1 ++ a :: l2 ++ b :: l3)%list.

(** The trace [l] stays within stages [lo..hi] and never goes back a stage. *)
Definition staged (lo hi : nat) (l : list interaction) : Prop :=
  StronglySorted (fun a b => stage a <= stage b) l /\
  Forall (fun i => lo <= stage i <= hi) l.

(** The scroll targets and the height measurements of a trace, in order. *)
Fixpoint scroll_targets (tr : list interaction) : list Z :=
  match tr with
  | [] => []
  | IUnit (ScrollTo y) _ :: rest => y :: scroll_targets rest
  | _ :: rest => scroll_targets rest
  end.

Fixpoint measured_heights (tr : list interaction) : list Z :=
  match tr with
  | [] => []
  | INum ScrollHeight (inr h) :: rest => h :: measured_heights rest
  | _ :: rest => measured_heights rest
  end.

(** ** The file-naming rule of the specification

    [style_{i}.css], [script_{i}.js], [image_{i}{ext}], [svg_{i}.svg],
    [font_{i}{ext}], where [ext] is the URL's path suffix when there is one and
    [.jpg] (images) or [.woff2] (fonts) otherwise; each under its category's
    directory. *)
Definition subdir (k : asset_key) : string :=
  match k with
  | css => "css"
  | js => "js"
  | images => "images"
  | fonts => "fonts"
  | svgs => "svgs"
  end.

Definition name_stem (k : asset_key) : string :=
  match k with
  | css => "style_"
  | js => "script_"
  | images => "image_"
  | fonts => "font_"
  | svgs => "svg_"
  end.

Definition extension (py : PyLib) (k : asset_key) (u : string) : string :=
  match k with
  | css => ".css"
  | js => ".js"
  | svgs => ".svg"
  | images => if (url_suffix py u =? "")%string then ".jpg" else url_suffix py u
  | fonts => if (url_suffix py u =? "")%string then ".woff2" else url_suffix py u
  end.

Definition predicted_name (py : PyLib) (k : asset_key) (i : nat) (u : string) : string :=
  name_stem k ++ str i ++ extension py k u.

Definition predicted_path (py : PyLib) (self : Cloner) (k : asset_key) (i : nat)
    (u : string) : string :=
  output_dir self ++ "/" ++ subdir k ++ "/" ++ predicted_name py k i u.

(** The downloads of one category: each URL of [l] with the path predicted
    from its index, counting from [i]. *)
Fixpoint plan_from (path : nat -> string -> string) (i : nat) (l : list string)
    : list (string * string) :=
  match l with
  | [] => []
  | u :: rest => (u, path i u) :: plan_from path (S i) rest
  end.

(** Every asset of the registry with its predicted path, in the order in
    which [download_assets] goes through the categories. *)
Definition planned_downloads (py : PyLib) (self : Cloner) (r : Registry)
    : list (string * string) :=
  (plan_from (predicted_path py self css) 0 (get css r)
   ++ plan_from (predicted_path py self js) 0 (get js r)
   ++ plan_from (predicted_path py self images) 0 (get images r)
   ++ plan_from (predicted_path py self svgs) 0 (get svgs r)
   ++ plan_from (predicted_path py self fonts) 0 (get fonts r))%list.

(** The calls made for one asset: the request, and, when it is answered with
    status 200 and a body that can be read, one write of that body at
    [path], whose outcome is [f]. *)
Definition asset_calls (u path : string) (g : http_reply) (f : file_reply)
    : list interaction :=
  match g with
  | HttpStatus status (inr b) =>
      if (status =? 200)%Z then [IGet u g; IFile AssetFile path (Raw b) f]
      else [IGet u g]
  | _ => [IGet u g]
  end.

(** The calls made for a list of planned downloads, given the answers. *)
Fixpoint download_calls (plan : list (string * string))
    (replies : list (http_reply * file_reply)) : list interaction :=
  match plan, replies with
  | (u, path) :: plan', (g, f) :: replies' =>
      (asset_calls u path g f ++ download_calls plan' replies')%list
  | _, _ => []
  end.

(** The download calls of a trace that fetched and stored an asset. *)
Fixpoint stored_assets (tr : list interaction) : list (string * string) :=
  match tr with
  | [] => []
  | IFile AssetFile p (Raw b) FileOk :: rest => (p, b) :: stored_assets rest
  | _ :: rest => stored_assets rest
  end.

(** ** Concrete libraries and worlds for running the model *)

(** Keep the first occurrence of each element: one order [list(set(xs))] may
    produce. *)
Definition first_seen (l : list string) : list string :=
  List.rev (nodup string_dec (List.rev l)).

(** The text from the last dot of [s] on, or nothing. *)
Fixpoint dot_suffix (s : string) : string :=
  match s with
  | EmptyString => ""
  | String c rest =>
      match dot_suffix rest with
      | EmptyString => if (c =? ".")%char then s else ""
      | t => t
      end
  end.

(** The text after the last slash of [s]. *)
Fixpoint last_segment (s : string) : string :=
  match s with
  | EmptyString => ""
  | String c rest =>
      if existsb (fun d => (d =? "/")%char) (list_ascii_of_string rest)
      then last_segment rest
      else if (c =? "/")%char then rest else s
  end.

Fixpoint until_slash (s : string) : string :=
  match s with
  | EmptyString => ""
  | String c rest => if (c =? "/")%char then "" else String c (until_slash rest)
  end.

Lemma first_seen_NoDup (l : list string) : NoDup (first_seen l).
Proof.
  unfold first_seen. apply NoDup_rev, NoDup_nodup.
Qed.

Lemma first_seen_In (l : list string) (x : string) : In x (first_seen l) <-> In x l.
Proof.
  unfold first_seen. rewrite <- in_rev, nodup_In, <- in_rev. reflexivity.
Qed.

Lemma dot_suffix_dot (s : string) :
  dot_suffix s = "" \/ exists t, dot_suffix s = String "." t.
Proof.
  induction s as [|c rest IH]; simpl; [now left|].
  destruct (dot_suffix rest) as [|c' t'] eqn:E.
  - destruct (Ascii.eqb_spec c "."%char) as [->|_]; [right; eauto | now left].
  - destruct IH as [IH|[t IH]]; [discriminate|]. right. eauto.
Qed.

(** A stand-in for the Python library that agrees with it on the URLs of the
    examples below. *)
Definition demo_py : PyLib :=
  mkPyLib first_seen first_seen_NoDup first_seen_In
    (fun u => dot_suffix (last_segment u))
    (fun u => dot_suffix_dot (last_segment u))
    (fun base rel => base ++ rel)
    (fun u => until_slash (substring 8 (String.length u) u)).

Definition demo_cloner : Cloner := fst (init demo_py "https://x" "cloned_x").
Definition start : state := snd (init demo_py "https://x" "cloned_x").

Definition TimeoutError : exn := mkExn true "Timeout 60000ms exceeded.".
Definition PermissionError : exn := mkExn true "[Errno 13] Permission denied: 'cloned_x'".
Definition EvaluateError : exn := mkExn true "Execution context was destroyed".

(** A page with a repeated stylesheet, one script, two images (one of which
    the server does not have), and one relative font URL; everything else
    works. *)
Definition calm : World :=
  mkWorld
    (fun _ _ => None)
    (fun _ q =>
       inr match q with
           | QCss => ["https://x/a.css"; "https://x/a.css"]
           | QJs => ["https://x/app.js"]
           | QImages => ["https://x/logo.png"; "https://x/missing"]
           | QSvgs => []
           | QFonts => ["/f/font.ttf"]
           end)
    (fun _ q => inr match q with ScrollHeight => 2000 | InnerHeight => 1080 end%Z)
    (fun _ => inr "<html></html>")
    (fun _ u =>
       if (u =? "https://x/missing")%string then HttpStatus 404 (inr "not found")
       else HttpStatus 200 (inr ("bytes of " ++ u)))
    (fun _ _ => FileOk).

(** The host cannot be reached: [page.goto] raises. *)
Definition unreachable : World :=
  mkWorld
    (fun n o => match o with Goto _ _ _ => Some TimeoutError | _ => None end)
    (w_urls calm) (w_num calm) (w_content calm) (w_get calm) (w_file calm).

(** The second discovery snippet raises. *)
Definition dom_error : World :=
  mkWorld (w_unit calm)
    (fun n q => match q with QJs => inl EvaluateError | _ => w_urls calm n q end)
    (w_num calm) (w_content calm) (w_get calm) (w_file calm).

(** The output root cannot be created. *)
Definition readonly_disk : World :=
  mkWorld
    (fun n o => match o with Mkdir _ => Some PermissionError | _ => None end)
    (w_urls calm) (w_num calm) (w_content calm) (w_get calm) (w_file calm).


(** A page 1500 high in a viewport of 1000 that grows to 3500 once the second
    scroll step has been made (the fourth call of [scroll_page_fully]). *)
Definition growing_page (base : nat) : World :=
  mkWorld (w_unit calm) (w_urls calm)
    (fun n q =>
       inr match q with
           | ScrollHeight => if Nat.ltb n (base + 5) then 1500%Z else 3500%Z
           | InnerHeight => 1000%Z
           end)
    (w_content calm) (w_get calm) (w_file calm).

(** The calls of a scaffold that met no error. *)
Definition scaffold_calls (self : Cloner) : list interaction :=
  map (fun d => IUnit (Mkdir d) None) (directories self).

(** The calls of a run whose navigation raised [e]; [r] is the answer to
    leaving the Playwright context. *)
Definition aborted_run (self : Cloner) (e : exn) (r : option exn) : list interaction :=
  (scaffold_calls self ++
   [ IUnit PlaywrightStart None;
     IUnit (Launch false) None;
     IUnit (NewContext 1920 1080 user_agent) None;
     IUnit NewPage None;
     IUnit (Goto (url self) "networkidle" 60000) (Some e);
     IUnit PlaywrightStop r ])%list.

(** What discovery puts into the registry: the answers of the five snippets
    appended to what was there, relative font URLs resolved against the
    page's URL. *)
Definition resolve_font (py : PyLib) (self : Cloner) (font_url : string) : string :=
  if prefix "http" font_url then font_url else urljoin py (url self) font_url.

Definition collect (py : PyLib) (self : Cloner) (r : Registry)
    (c j i v f : list string) : Registry :=
  mkRegistry (r_css r ++ c) (r_js r ++ j) (r_images r ++ i)
    (r_fonts r ++ map (resolve_font py self) f) (r_svgs r ++ v).

(** [list(set(...))] applied to every category. *)
Definition dedup (py : PyLib) (r : Registry) : Registry :=
  mkRegistry (list_set py (r_css r)) (list_set py (r_js r)) (list_set py (r_images r))
    (list_set py (r_fonts r)) (list_set py (r_svgs r)).

(** The five discovery calls with their answers. *)
Definition discovery_calls (c j i v f : list string) : list interaction :=
  [ IUrls QCss (inr c); IUrls QJs (inr j); IUrls QImages (inr i);
    IUrls QSvgs (inr v); IUrls QFonts (inr f) ].

(** The category a discovery snippet feeds. *)
Definition key_of (q : url_query) : asset_key :=
  match q with
  | QCss => css
  | QJs => js
  | QImages => images
  | QSvgs => svgs
  | QFonts => fonts
  end.

(** No character of [s] is a dot. *)
Fixpoint no_dot (s : string) : Prop :=
  match s with
  | EmptyString => True
  | String c rest => c <> "."%char /\ no_dot rest
  end.

(** ** The claims of the specification, as predicates on a run *)

(** "No discovery step executes before the scroll and media-ready waits have
    finished": every scroll or media-ready call of the run precedes every
    discovery call of the run. *)
Definition stabilized_before_discovery (tr : list interaction) : Prop :=
  forall a b, In a tr -> In b tr ->
    is_scroll a \/ is_media_wait a -> is_discovery b -> before tr a b.

(** The document's height eventually stops growing: from some call on, the
    page always reports the same height. *)
Definition stops_growing (w : World) : Prop :=
  exists N h, forall n, N <= n -> w_num w n ScrollHeight = inr h.

(** The page never reports a viewport height that is zero or negative. *)
Definition positive_viewport (w : World) : Prop :=
  forall n v, w_num w n InnerHeight = inr v -> (0 < v)%Z.


(** The calls of a scroll loop that starts at [pos], moves by [step] and
    measures the heights [hs], one after each step. *)
Fixpoint loop_calls (pos step : Z) (hs : list Z) : list interaction :=
  match hs with
  | [] => []
  | h :: rest =>
      IUnit (ScrollTo pos) None :: INum ScrollHeight (inr h)
      :: loop_calls (pos + step) step rest
  end.

(** The loop makes a step exactly while the position is below the height
    measured last ([total] at first, then each of [hs] in turn), and stops
    when the position has reached it. *)
Fixpoint loop_guard (pos step total : Z) (hs : list Z) : Prop :=
  match hs with
  | [] => (total <= pos)%Z
  | h :: rest => (pos < total)%Z /\ loop_guard (pos + step) step h rest
  end.

(** Every exception the outside world raises is an instance of [Exception]. *)
Definition only_Exceptions (w : World) : Prop :=
  (forall n o e, w_unit w n o = Some e -> is_Exception e = true) /\
  (forall n q e, w_urls w n q = inl e -> is_Exception e = true) /\
  (forall n q e, w_num w n q = inl e -> is_Exception e = true) /\
  (forall n e, w_content w n = inl e -> is_Exception e = true) /\
  (forall n u e, w_get w n u = HttpRaise e -> is_Exception e = true) /\
  (forall n u status e, w_get w n u = HttpStatus status (inl e) -> is_Exception e = true) /\
  (forall n p e, w_file w n p = OpenFailed e -> is_Exception e = true) /\
  (forall n p e, w_file w n p = WriteFailed e -> is_Exception e = true).

(** What [clone] does outside its [try] statement does not raise: creating
    the directories, entering and leaving the Playwright context. *)
Definition outside_try_succeeds (w : World) : Prop :=
  forall n,
    (forall d, w_unit w n (Mkdir d) = None) /\
    w_unit w n PlaywrightStart = None /\
    w_unit w n PlaywrightStop = None.

(** [m] finishes, and what it raises, if anything, is an [Exception]. *)
Definition contained {A} (m : M A) : Prop :=
  forall s,
    match fst (m s) with
    | Ok _ => True
    | Raise e => is_Exception e = true
    | OutOfFuel => False
    end.

(** [m] returns. *)
Definition returns {A} (m : M A) : Prop :=
  forall s, exists a, fst (m s) = Ok a.

(** The manifest the run on [calm] writes. *)
Definition calm_manifest : Metadata :=
  metadata_of demo_cloner
    (assets (snd (run_clone demo_py calm "https://x" "cloned_x" 10))).

(** The registry of the run on [calm] when its downloads start. *)
Definition calm_discovered : state :=
  snd (extract_assets_from_page demo_py calm demo_cloner start).

(** ** Specifications of computations *)

(** [m] only adds outside calls, all within stages [lo..hi] and in stage
    order. *)
Definition emits {A} (lo hi : nat) (m : M A) : Prop :=
  forall s, exists evs,
    trace (snd (m s)) = (trace s ++ evs)%list /\ staged lo hi evs.

(** [m] relates the state it starts in to the state it ends in by [R]. *)
Definition steps {A} (R : state -> state -> Prop) (m : M A) : Prop :=
  forall s, R s (snd (m s)).

Definition same_assets (s s' : state) : Prop := assets s' = assets s.

(** [m] leaves the registry as it found it. *)
Definition keeps {A} (m : M A) : Prop := steps same_assets m.

(** The browser session along a trace.  [chromium.launch] that returned
    opens it; [browser.close()] that returned ends it, and so does leaving
    [async with async_playwright()]: the exit stops the Playwright driver,
    and with the driver the browser that was launched through it. *)
Fixpoint session_open_from (open : bool) (tr : list interaction) : bool :=
  match tr with
  | [] => open
  | IUnit (Launch _) None :: rest => session_open_from true rest
  | IUnit BrowserClose None :: rest => session_open_from false rest
  | IUnit PlaywrightStop None :: rest => session_open_from false rest
  | _ :: rest => session_open_from open rest
  end.

(** A browser session is open after the calls of [tr]. *)
Definition session_open (tr : list interaction) : bool := session_open_from false tr.

(** The clicks on the selectors [l] that raised, each with what it raised. *)
Definition failed_clicks (l : list string) (errs : list exn) : list interaction :=
  map (fun x => IUnit (Click (fst x) 1000) (Some (snd x))) (combine l errs).

(** The paths of the HTML snapshot and of the two screenshots. *)
Definition index_html (self : Cloner) : string := output_dir self ++ "/index.html".
Definition fullpage_png (self : Cloner) : string :=
  output_dir self ++ "/screenshots/fullpage.png".
Definition viewport_png (self : Cloner) : string :=
  output_dir self ++ "/screenshots/viewport.png".
Definition metadata_json (self : Cloner) : string := output_dir self ++ "/metadata.json".

(** The line [clone] prints after the manifest has been written. *)
Definition completion_line (self : Cloner) : string :=
  nl ++ "✅ Web cloning completed! All files saved to: " ++ output_dir self ++ "/".

(** Everything works until [browser.close()], which raises. *)
Definition TargetClosedError : exn :=
  mkExn true "Target page, context or browser has been closed".

Definition close_fails : World :=
  mkWorld
    (fun n o => match o with BrowserClose => Some TargetClosedError | _ => None end)
    (w_urls calm) (w_num calm) (w_content calm) (w_get calm) (w_file calm).

(** Every outside call that [m] makes satisfies [P]. *)
Definition every {A} (P : interaction -> Prop) (m : M A) : Prop :=
  forall s, exists evs,
    trace (snd (m s)) = (trace s ++ evs)%list /\ Forall P evs.

(** The layout of the output directory: the seven directories, the HTML
    snapshot, the two screenshots, the manifest and the assets under their
    predicted names. *)
Definition in_layout (py : PyLib) (self : Cloner) (p : string) : Prop :=
  In p (directories self) \/
  p = output_dir self ++ "/index.html" \/
  p = output_dir self ++ "/screenshots/fullpage.png" \/
  p = output_dir self ++ "/screenshots/viewport.png" \/
  p = output_dir self ++ "/metadata.json" \/
  exists k i u, p = predicted_path py self k i u.

(** An outside call that is given a path is given one of the layout, and a
    [mkdir] is given one of the seven directories. *)
Definition within_layout (py : PyLib) (self : Cloner) (i : interaction) : Prop :=
  (forall p, touched i = Some p ->
     in_layout py self p /\ prefix (output_dir self) p = true) /\
  (forall d r, i = IUnit (Mkdir d) r -> In d (directories self)).

(** No character of [s] is a slash. *)
Fixpoint slash_free (s : string) : bool :=
  match s with
  | EmptyString => true
  | String c rest => negb (Ascii.eqb c "/"%char) && slash_free rest
  end.

(** * Properties *)

Local Open Scope list_scope.

(** ** The registry *)

Lemma get_set_same (k : asset_key) (v : list string) (r : Registry) :
  get k (set k v r) = v.
Proof. destruct k; reflexivity. Qed.

Lemma get_set_other (k k' : asset_key) (v : list string) (r : Registry) :
  k <> k' -> get k' (set k v r) = get k' r.
Proof. destruct k, k'; intros H; try reflexivity; contradiction. Qed.

(** ** Running the monad *)

Lemma bind_Ok {A B} (m : M A) (f : A -> M B) s a s' :
  m s = (Ok a, s') -> bind m f s = f a s'.
Proof. unfold bind. intros ->. reflexivity. Qed.

Lemma bind_Raise {A B} (m : M A) (f : A -> M B) s e s' :
  m s = (Raise e, s') -> bind m f s = (Raise e, s').
Proof. unfold bind. intros ->. reflexivity. Qed.

Lemma bind_OutOfFuel {A B} (m : M A) (f : A -> M B) s s' :
  m s = (OutOfFuel, s') -> bind m f s = (OutOfFuel, s').
Proof. unfold bind. intros ->. reflexivity. Qed.

(** ** Stage order *)

Lemma staged_nil lo hi : staged lo hi [].
Proof. split; constructor. Qed.

Lemma staged_one lo hi i : lo <= stage i <= hi -> staged lo hi [i].
Proof.
  intros H. split.
  - repeat constructor.
  - repeat constructor; apply H.
Qed.

Lemma staged_app lo mid hi l1 l2 :
  lo <= mid -> mid <= hi ->
  staged lo mid l1 -> staged mid hi l2 -> staged lo hi (l1 ++ l2).
Proof.
  intros Hlo Hhi [S1 F1] [S2 F2]. split.
  - induction l1 as [|a l1 IH]; simpl; [exact S2|].
    inversion S1; subst. inversion F1; subst.
    constructor; [now apply IH|].
    apply Forall_app. split; [assumption|].
    rewrite Forall_forall in F2 |- *. intros b Hb.
    specialize (F2 b Hb). lia.
  - apply Forall_app. split.
    + eapply Forall_impl; [|exact F1]. simpl. intros; lia.
    + eapply Forall_impl; [|exact F2]. simpl. intros; lia.
Qed.

Lemma staged_weaken lo hi lo' hi' l :
  lo' <= lo -> hi <= hi' -> staged lo hi l -> staged lo' hi' l.
Proof.
  intros Hlo Hhi [S F]. split; [exact S|].
  eapply Forall_impl; [|exact F]. simpl. intros; lia.
Qed.

Lemma staged_before lo hi tr a b :
  staged lo hi tr -> before tr a b -> stage a <= stage b.
Proof.
  intros [S _] (l1 & l2 & l3 & ->).
  induction l1 as [|x l1 IH]; simpl in S.
  - inversion S as [|? ? _ F]; subst.
    rewrite Forall_forall in F. apply F.
    apply in_or_app. right. now left.
  - inversion S; subst. now apply IH.
Qed.

Lemma staged_In lo hi tr i : staged lo hi tr -> In i tr -> lo <= stage i <= hi.
Proof.
  intros [_ F] H. rewrite Forall_forall in F. now apply F.
Qed.

Lemma emits_weaken {A} lo hi lo' hi' (m : M A) :
  emits lo hi m -> lo' <= lo -> hi <= hi' -> emits lo' hi' m.
Proof.
  intros H Hlo Hhi s. destruct (H s) as (evs & E & S).
  exists evs. split; [exact E|]. eapply staged_weaken; eauto.
Qed.

Lemma emits_quiet {A} lo hi (m : M A) :
  (forall s, trace (snd (m s)) = trace s) -> emits lo hi m.
Proof.
  intros H s. exists []. rewrite app_nil_r. split; [apply H|apply staged_nil].
Qed.

Lemma emits_bind {A B} lo mid hi (m : M A) (f : A -> M B) :
  emits lo mid m -> (forall a, emits mid hi (f a)) ->
  lo <= mid -> mid <= hi -> emits lo hi (bind m f).
Proof.
  intros Hm Hf Hlo Hhi s. unfold bind.
  destruct (Hm s) as (e1 & E1 & S1).
  destruct (m s) as [[a|e|] s1]; simpl in E1.
  - destruct (Hf a s1) as (e2 & E2 & S2).
    exists (e1 ++ e2). rewrite E2, E1, app_assoc. split; [reflexivity|].
    eapply staged_app; eauto.
  - exists e1. split; [exact E1|]. eapply staged_weaken; [| |exact S1]; lia.
  - exists e1. split; [exact E1|]. eapply staged_weaken; [| |exact S1]; lia.
Qed.

Lemma emits_try_except {A} lo mid hi (m : M A) (h : exn -> M A) :
  emits lo mid m -> (forall e, emits mid hi (h e)) ->
  lo <= mid -> mid <= hi -> emits lo hi (try_except m h).
Proof.
  intros Hm Hh Hlo Hhi s. unfold try_except.
  destruct (Hm s) as (e1 & E1 & S1).
  destruct (m s) as [[a|e|] s1]; simpl in E1.
  - exists e1. split; [exact E1|]. eapply staged_weaken; [| |exact S1]; lia.
  - destruct (is_Exception e).
    + destruct (Hh e s1) as (e2 & E2 & S2).
      exists (e1 ++ e2). rewrite E2, E1, app_assoc. split; [reflexivity|].
      eapply staged_app; eauto.
    + exists e1. split; [exact E1|]. eapply staged_weaken; [| |exact S1]; lia.
  - exists e1. split; [exact E1|]. eapply staged_weaken; [| |exact S1]; lia.
Qed.

Lemma emits_try_bare {A} lo mid hi (m : M A) (h : M A) :
  emits lo mid m -> emits mid hi h ->
  lo <= mid -> mid <= hi -> emits lo hi (try_bare m h).
Proof.
  intros Hm Hh Hlo Hhi s. unfold try_bare.
  destruct (Hm s) as (e1 & E1 & S1).
  destruct (m s) as [[a|e|] s1]; simpl in E1.
  - exists e1. split; [exact E1|]. eapply staged_weaken; [| |exact S1]; lia.
  - destruct (Hh s1) as (e2 & E2 & S2).
    exists (e1 ++ e2). rewrite E2, E1, app_assoc. split; [reflexivity|].
    eapply staged_app; eauto.
  - exists e1. split; [exact E1|]. eapply staged_weaken; [| |exact S1]; lia.
Qed.

Lemma emits_with_exit {A} lo mid hi (m : M A) (exit : M unit) :
  emits lo mid m -> emits mid hi exit ->
  lo <= mid -> mid <= hi -> emits lo hi (with_exit m exit).
Proof.
  intros Hm Hx Hlo Hhi s. unfold with_exit.
  destruct (Hm s) as (e1 & E1 & S1).
  destruct (m s) as [[a|e|] s1]; simpl in E1.
  - assert (H : emits mid hi (exit ;; ret a)).
    { apply (emits_bind mid hi hi); auto.
      intros _. apply emits_quiet. reflexivity. }
    destruct (H s1) as (e2 & E2 & S2).
    exists (e1 ++ e2). rewrite E2, E1, app_assoc. split; [reflexivity|].
    eapply staged_app; eauto.
  - assert (H : emits mid hi (exit ;; @raise A e)).
    { apply (emits_bind mid hi hi); auto.
      intros _. apply emits_quiet. reflexivity. }
    destruct (H s1) as (e2 & E2 & S2).
    exists (e1 ++ e2). rewrite E2, E1, app_assoc. split; [reflexivity|].
    eapply staged_app; eauto.
  - exists e1. split; [exact E1|]. eapply staged_weaken; [| |exact S1]; lia.
Qed.

Lemma emits_for_each {A} k (l : list A) (body : A -> M unit) :
  (forall x, emits k k (body x)) -> emits k k (for_each l body).
Proof.
  intros H. induction l as [|x l IH]; simpl.
  - apply emits_quiet. reflexivity.
  - apply (emits_bind k k k); auto.
Qed.

Lemma emits_for_enumerate_from k i (l : list string) (body : nat -> string -> M unit) :
  (forall j x, emits k k (body j x)) -> emits k k (for_enumerate_from i l body).
Proof.
  intros H. revert i. induction l as [|x l IH]; intros i; simpl.
  - apply emits_quiet. reflexivity.
  - apply (emits_bind k k k); auto.
Qed.

Section Calls.

Variable w : World.

Lemma emits_call o k : (forall r, stage (IUnit o r) = k) -> emits k k (call w o).
Proof.
  intros H s. exists [IUnit o (w_unit w (length (trace s)) o)].
  split.
  - unfold call. destruct (w_unit w (length (trace s)) o); reflexivity.
  - apply staged_one. rewrite H. lia.
Qed.

Lemma emits_evaluate_urls q : emits 8 8 (evaluate_urls w q).
Proof.
  intros s. exists [IUrls q (w_urls w (length (trace s)) q)].
  split.
  - unfold evaluate_urls. destruct (w_urls w (length (trace s)) q); reflexivity.
  - apply staged_one. simpl. lia.
Qed.

Lemma emits_evaluate_num q : emits 12 12 (evaluate_num w q).
Proof.
  intros s. exists [INum q (w_num w (length (trace s)) q)].
  split.
  - unfold evaluate_num. destruct (w_num w (length (trace s)) q); reflexivity.
  - apply staged_one. simpl. lia.
Qed.

Lemma emits_page_content : emits 10 10 (page_content w).
Proof.
  intros s. exists [IContent (w_content w (length (trace s)))].
  split.
  - unfold page_content. destruct (w_content w (length (trace s))); reflexivity.
  - apply staged_one. simpl. lia.
Qed.

Lemma emits_http_get u : emits 9 9 (http_get w u).
Proof.
  intros s. exists [IGet u (w_get w (length (trace s)) u)].
  split.
  - unfold http_get. destruct (w_get w (length (trace s)) u); reflexivity.
  - apply staged_one. simpl. lia.
Qed.

Lemma emits_write_file fk p c k :
  (forall r, stage (IFile fk p c r) = k) -> emits k k (write_file w fk p c).
Proof.
  intros H s. exists [IFile fk p c (w_file w (length (trace s)) p)].
  split.
  - unfold write_file. destruct (w_file w (length (trace s)) p); reflexivity.
  - apply staged_one. rewrite H. lia.
Qed.

End Calls.

Lemma emits_weaken_lo {A} lo lo' hi (m : M A) :
  emits lo hi m -> lo' <= lo -> emits lo' hi m.
Proof. intros H Hlo. eapply emits_weaken; eauto. Qed.

Lemma emits_read lo hi body : emits lo hi (read body).
Proof. destruct body; apply emits_quiet; reflexivity. Qed.

Create HintDb emits_db.

#[local] Hint Resolve emits_evaluate_urls emits_evaluate_num emits_page_content
  emits_http_get : emits_db.
#[local] Hint Extern 1 (emits _ _ (call _ _)) =>
  apply emits_call; intros ?; simpl; reflexivity : emits_db.
#[local] Hint Extern 1 (emits _ _ (write_file _ _ _ _)) =>
  apply emits_write_file; intros ?; simpl; reflexivity : emits_db.

(** Prove [emits lo hi m] along the shape of [m]: calls that emit nothing stay
    at the current stage, every other call moves up to its own. *)
Ltac emits_quiet_tac := apply emits_quiet; intros ?; reflexivity.

Ltac emits_leaf :=
  first
    [ emits_quiet_tac
    | apply emits_read
    | eapply emits_weaken; [ solve [eauto 2 with emits_db] | simpl; lia | simpl; lia ] ].

Ltac emits_go :=
  lazymatch goal with
  | |- emits ?lo ?hi (bind ?m ?f) =>
      first
        [ apply (emits_bind lo lo hi);
          [ first [ emits_quiet_tac | apply emits_read ]
          | intros; emits_go | lia | lia ]
        | eapply (emits_bind lo _ hi);
          [ eapply emits_weaken_lo; [ solve [eauto 2 with emits_db] | simpl; lia ]
          | intros; emits_go | simpl; lia | simpl; lia ] ]
  | |- emits _ _ (if ?b then _ else _) => destruct b; emits_go
  | |- emits _ _ _ => emits_leaf
  end.

Section Stages.

Variable py : PyLib.
Variable w : World.
Variable self : Cloner.

Lemma emits_setup_directories : emits 0 0 (setup_directories w self).
Proof.
  unfold setup_directories.
  apply (emits_bind 0 0 0); [|intros; emits_quiet_tac|lia|lia].
  apply emits_for_each. intros x. emits_leaf.
Qed.

Lemma emits_download_file u p : emits 9 9 (download_file w u p).
Proof.
  unfold download_file.
  apply (emits_try_except 9 9 9); [|intros; emits_quiet_tac|lia|lia].
  emits_go.
Qed.

Lemma emits_extract_assets_from_page : emits 8 8 (extract_assets_from_page py w self).
Proof.
  unfold extract_assets_from_page.
  do 10 (eapply (emits_bind 8 8 8); [emits_leaf|intros|lia|lia]).
  eapply (emits_bind 8 8 8); [|intros|lia|lia].
  { apply emits_for_each. intros x. destruct (prefix "http" x); emits_quiet_tac. }
  eapply (emits_bind 8 8 8); [|intros; emits_go|lia|lia].
  apply emits_for_each. intros x. emits_quiet_tac.
Qed.

#[local] Hint Resolve emits_download_file : emits_db.

Lemma emits_download_loop (name : nat -> string -> string) (dir label : string) i l :
  emits 9 9
    (for_enumerate_from i l (fun i u =>
       ok <- download_file w u (output_dir self ++ dir ++ name i u)%string ;;
       if truthy ok then print (label ++ name i u)%string else ret tt)).
Proof.
  apply emits_for_enumerate_from. intros j x.
  apply (emits_bind 9 9 9); [emits_leaf| |lia|lia].
  intros ok. destruct (truthy ok); emits_quiet_tac.
Qed.

Lemma emits_download_assets : emits 9 9 (download_assets py w self).
Proof.
  unfold download_assets, for_enumerate.
  apply (emits_bind 9 9 9); [emits_quiet_tac|intros _|lia|lia].
  apply (emits_bind 9 9 9); [emits_quiet_tac|intros l1|lia|lia].
  apply (emits_bind 9 9 9); [|intros _|lia|lia].
  { apply (emits_download_loop (fun i _ => "style_" ++ str i ++ ".css")%string "/css/"). }
  apply (emits_bind 9 9 9); [emits_quiet_tac|intros l2|lia|lia].
  apply (emits_bind 9 9 9); [|intros _|lia|lia].
  { apply (emits_download_loop (fun i _ => "script_" ++ str i ++ ".js")%string "/js/"). }
  apply (emits_bind 9 9 9); [emits_quiet_tac|intros l3|lia|lia].
  apply (emits_bind 9 9 9); [|intros _|lia|lia].
  { apply (emits_download_loop
             (fun i u => "image_" ++ str i ++
                (if (url_suffix py u =? "")%string then ".jpg" else url_suffix py u))%string
             "/images/"). }
  apply (emits_bind 9 9 9); [emits_quiet_tac|intros l4|lia|lia].
  apply (emits_bind 9 9 9); [|intros _|lia|lia].
  { apply (emits_download_loop (fun i _ => "svg_" ++ str i ++ ".svg")%string "/svgs/"). }
  apply (emits_bind 9 9 9); [emits_quiet_tac|intros l5|lia|lia].
  apply (emits_download_loop
           (fun i u => "font_" ++ str i ++
              (if (url_suffix py u =? "")%string then ".woff2" else url_suffix py u))%string
           "/fonts/").
Qed.

Lemma emits_save_html : emits 10 11 (save_html w self).
Proof. unfold save_html. emits_go. Qed.

Lemma emits_scroll_loop fuel pos total step_ :
  emits 12 12 (scroll_loop w fuel pos total step_).
Proof.
  revert pos total. induction fuel as [|fuel IH]; intros pos total; simpl.
  - emits_quiet_tac.
  - destruct (pos <? total)%Z; [|emits_quiet_tac].
    apply (emits_bind 12 12 12); [emits_leaf|intros _|lia|lia].
    apply (emits_bind 12 12 12); [emits_quiet_tac|intros _|lia|lia].
    apply (emits_bind 12 12 12); [emits_leaf|intros h|lia|lia].
    apply IH.
Qed.

#[local] Hint Resolve emits_scroll_loop : emits_db.

Lemma emits_scroll_page_fully fuel : emits 12 12 (scroll_page_fully w fuel).
Proof. unfold scroll_page_fully. emits_go. Qed.

Lemma emits_wait_for_images_and_fonts : emits 13 14 (wait_for_images_and_fonts w).
Proof. unfold wait_for_images_and_fonts. emits_go. Qed.

#[local] Hint Resolve emits_scroll_page_fully emits_wait_for_images_and_fonts : emits_db.

Lemma emits_take_screenshots fuel : emits 12 15 (take_screenshots w self fuel).
Proof. unfold take_screenshots. emits_go. Qed.

Lemma emits_save_metadata : emits 16 16 (save_metadata w self).
Proof. unfold save_metadata. emits_go. Qed.

Lemma emits_close_cookie_popup l : emits 7 7 (close_cookie_popup w l).
Proof.
  induction l as [|sel l IH]; simpl.
  - emits_quiet_tac.
  - apply (emits_bind 7 7 7); [|intros [|]; [emits_quiet_tac|apply IH]|lia|lia].
    apply (emits_try_bare 7 7 7); [emits_go|emits_quiet_tac|lia|lia].
Qed.

Lemma emits_dismiss :
  emits 7 7 (try_bare (close_cookie_popup w cookie_selectors) (ret tt)).
Proof.
  apply (emits_try_bare 7 7 7); [apply emits_close_cookie_popup|emits_quiet_tac|lia|lia].
Qed.

#[local] Hint Resolve emits_dismiss : emits_db.

Lemma emits_launch_browser : emits 2 4 (launch_browser w).
Proof. unfold launch_browser. emits_go. Qed.

Lemma emits_settle : emits 6 7 (settle w).
Proof. unfold settle. emits_go. Qed.

#[local] Hint Resolve emits_launch_browser emits_settle : emits_db.

Lemma emits_open_page : emits 2 7 (open_page w self).
Proof. unfold open_page. emits_go. Qed.

#[local] Hint Resolve emits_extract_assets_from_page emits_download_assets
  emits_save_html emits_take_screenshots emits_save_metadata
  emits_open_page emits_setup_directories : emits_db.

Lemma emits_capture fuel : emits 8 17 (capture py w self fuel).
Proof. unfold capture. emits_go. Qed.

Lemma emits_report lo hi e : emits lo hi (report e).
Proof. emits_quiet_tac. Qed.

Lemma emits_clone_try fuel :
  emits 2 17 (try_except (open_page w self ;; capture py w self fuel) report).
Proof.
  apply (emits_try_except 2 17 17); [|intros; apply emits_report|lia|lia].
  apply (emits_bind 2 7 17); [apply emits_open_page| |lia|lia].
  intros _. eapply emits_weaken_lo; [apply emits_capture|lia].
Qed.

Lemma emits_clone fuel : emits 0 18 (clone py w self fuel).
Proof.
  unfold clone.
  apply (emits_bind 0 0 18); [emits_quiet_tac|intros _|lia|lia].
  apply (emits_bind 0 0 18); [apply emits_setup_directories|intros _|lia|lia].
  apply (emits_bind 0 1 18); [emits_leaf|intros _|lia|lia].
  apply (emits_with_exit 1 17 18); [|emits_leaf|lia|lia].
  eapply emits_weaken_lo; [apply emits_clone_try|lia].
Qed.

End Stages.

(** ** C1: the order of the pipeline *)

Lemma run_clone_staged py w u out fuel :
  staged 0 18 (trace (snd (run_clone py w u out fuel))).
Proof.
  unfold run_clone.
  destruct (emits_clone py w (fst (init py u out)) fuel (snd (init py u out)))
    as (evs & E & S).
  rewrite E. exact S.
Qed.

(** C1, as the code has it.  In every run the outside calls follow the order
    in which [clone] is written: scaffold, browser start and navigation,
    cookie-banner dismissal, discovery (stage 8), downloads (stage 9), HTML
    snapshot, scroll (stage 12), media-ready wait (stages 13-14), screenshots,
    manifest, browser close.  So navigation and dismissal are over before
    discovery begins and discovery is over before any download starts, while
    the scroll and the media-ready wait come after every download and the
    HTML snapshot, and before the screenshots. *)
Theorem clone_calls_follow_stage_order py w u out fuel a b :
  before (trace (snd (run_clone py w u out fuel))) a b -> stage a <= stage b.
Proof.
  apply (staged_before 0 18). apply run_clone_staged.
Qed.

Lemma clone_calls_follow_stage_order_witness :
  stage (IUrls QFonts (inr ["/f/font.ttf"]))
  <= stage (IUnit (ScrollTo 1080) None).
Proof.
  apply (clone_calls_follow_stage_order demo_py calm "https://x" "cloned_x" 10).
  exists (firstn 19 (trace (snd (run_clone demo_py calm "https://x" "cloned_x" 10)))).
  exists (firstn 15 (skipn 20 (trace (snd (run_clone demo_py calm "https://x" "cloned_x" 10))))).
  exists (skipn 36 (trace (snd (run_clone demo_py calm "https://x" "cloned_x" 10)))).
  vm_compute. reflexivity.
Defined.

(** Discovery is over before the first download (C1, second half). *)
Lemma discovery_precedes_download py w u out fuel a b :
  is_download a -> is_discovery b ->
  ~ before (trace (snd (run_clone py w u out fuel))) a b.
Proof.
  unfold is_download, is_discovery. intros Ha Hb H.
  apply (staged_before 0 18) in H; [lia|apply run_clone_staged].
Qed.

(** A scroll or media-ready call never precedes a discovery call. *)
Lemma stabilization_follows_discovery py w u out fuel a b :
  is_scroll a \/ is_media_wait a -> is_discovery b ->
  ~ before (trace (snd (run_clone py w u out fuel))) a b.
Proof.
  unfold is_scroll, is_media_wait, is_discovery. intros Ha Hb H.
  apply (staged_before 0 18) in H; [lia|apply run_clone_staged].
Qed.

(** Navigation and dismissal are over before discovery begins. *)
Lemma preparation_precedes_discovery py w u out fuel a b :
  is_discovery a -> is_navigation b \/ is_dismissal b ->
  ~ before (trace (snd (run_clone py w u out fuel))) a b.
Proof.
  unfold is_discovery, is_navigation, is_dismissal. intros Ha Hb H.
  apply (staged_before 0 18) in H; [lia|apply run_clone_staged].
Qed.

(** The scroll and the media-ready wait come after the HTML snapshot and
    before the screenshots. *)
Lemma stabilization_is_part_of_screenshots py w u out fuel a b :
  is_scroll a \/ is_media_wait a ->
  (is_html_snapshot b -> ~ before (trace (snd (run_clone py w u out fuel))) a b) /\
  (is_screenshot b -> ~ before (trace (snd (run_clone py w u out fuel))) b a).
Proof.
  unfold is_scroll, is_media_wait, is_html_snapshot, is_screenshot. intros Ha.
  split; intros Hb H; apply (staged_before 0 18) in H;
    try apply run_clone_staged; lia.
Qed.

(** C1 as stated fails: on the page of [calm] the run evaluates the
    stylesheet snippet long before it waits for the images. *)
Lemma discovery_runs_before_stabilization :
  ~ stabilized_before_discovery
      (trace (snd (run_clone demo_py calm "https://x" "cloned_x" 10))).
Proof.
  intros H.
  specialize (H (IUnit AwaitImages None)
                (IUrls QCss (inr ["https://x/a.css"; "https://x/a.css"]))).
  eapply stabilization_follows_discovery; [| |apply H].
  - right. unfold is_media_wait. simpl. lia.
  - reflexivity.
  - vm_compute. repeat (first [left; reflexivity | right]).
  - vm_compute. repeat (first [left; reflexivity | right]).
  - right. unfold is_media_wait. simpl. lia.
  - reflexivity.
Qed.

(** ** Inverting a run *)

Lemma bind_inv {A B} (m : M A) (f : A -> M B) s r s' :
  bind m f s = (r, s') ->
  (exists a s1, m s = (Ok a, s1) /\ f a s1 = (r, s')) \/
  (exists e, m s = (Raise e, s') /\ r = Raise e) \/
  (m s = (OutOfFuel, s') /\ r = OutOfFuel).
Proof.
  unfold bind. destruct (m s) as [[a|e|] s1]; intros H.
  - left. eauto.
  - right. left. inversion H; subst. eauto.
  - right. right. inversion H; subst. eauto.
Qed.

Lemma try_except_inv {A} (m : M A) (h : exn -> M A) s r s' :
  try_except m h s = (r, s') ->
  (exists a, m s = (Ok a, s') /\ r = Ok a) \/
  (exists e s1, m s = (Raise e, s1) /\ is_Exception e = true /\ h e s1 = (r, s')) \/
  (exists e, m s = (Raise e, s') /\ is_Exception e = false /\ r = Raise e) \/
  (m s = (OutOfFuel, s') /\ r = OutOfFuel).
Proof.
  unfold try_except. destruct (m s) as [[a|e|] s1]; intros H.
  - left. inversion H; subst. eauto.
  - destruct (is_Exception e) eqn:E.
    + right. left. eauto 6.
    + right. right. left. inversion H; subst. eauto.
  - right. right. right. inversion H; subst. eauto.
Qed.

Lemma try_bare_inv {A} (m : M A) (h : M A) s r s' :
  try_bare m h s = (r, s') ->
  (exists a, m s = (Ok a, s') /\ r = Ok a) \/
  (exists e s1, m s = (Raise e, s1) /\ h s1 = (r, s')) \/
  (m s = (OutOfFuel, s') /\ r = OutOfFuel).
Proof.
  unfold try_bare. destruct (m s) as [[a|e|] s1]; intros H.
  - left. inversion H; subst. eauto.
  - right. left. eauto.
  - right. right. inversion H; subst. eauto.
Qed.

Lemma with_exit_inv {A} (m : M A) (exit : M unit) s r s' :
  with_exit m exit s = (r, s') ->
  (exists a s1, m s = (Ok a, s1) /\ (exit ;; ret a) s1 = (r, s')) \/
  (exists e s1, m s = (Raise e, s1) /\ (exit ;; raise e) s1 = (r, s')) \/
  (m s = (OutOfFuel, s') /\ r = OutOfFuel).
Proof.
  unfold with_exit. destruct (m s) as [[a|e|] s1]; intros H.
  - left. eauto.
  - right. left. eauto.
  - right. right. inversion H; subst. eauto.
Qed.

Lemma emits_run {A} lo hi (m : M A) s r s' :
  emits lo hi m -> m s = (r, s') ->
  exists evs, trace s' = trace s ++ evs /\ staged lo hi evs.
Proof.
  intros H E. destruct (H s) as (evs & E1 & S). rewrite E in E1. eauto.
Qed.

Lemma print_run msg s r s' :
  print msg s = (r, s') ->
  r = Ok tt /\ assets s' = assets s /\ trace s' = trace s /\
  console s' = console s ++ [Line msg].
Proof. unfold print. intros H. inversion H; subst. auto. Qed.

Lemma sleep_run ms s r s' : sleep ms s = (r, s') -> r = Ok tt /\ s' = s.
Proof. unfold sleep, ret. intros H. inversion H; subst. auto. Qed.

Section CallRuns.

Variable w : World.

Lemma call_run o s r s' :
  call w o s = (r, s') ->
  assets s' = assets s /\ console s' = console s /\
  ((r = Ok tt /\ trace s' = trace s ++ [IUnit o None]) \/
   (exists e, r = Raise e /\ trace s' = trace s ++ [IUnit o (Some e)])).
Proof.
  unfold call. destruct (w_unit w (length (trace s)) o); intros H;
    inversion H; subst; simpl; eauto 6.
Qed.

Lemma evaluate_urls_run q s r s' :
  evaluate_urls w q s = (r, s') ->
  assets s' = assets s /\ console s' = console s /\
  ((exists l, r = Ok l /\ trace s' = trace s ++ [IUrls q (inr l)]) \/
   (exists e, r = Raise e /\ trace s' = trace s ++ [IUrls q (inl e)])).
Proof.
  unfold evaluate_urls. destruct (w_urls w (length (trace s)) q); intros H;
    inversion H; subst; simpl; eauto 6.
Qed.

Lemma evaluate_num_run q s r s' :
  evaluate_num w q s = (r, s') ->
  assets s' = assets s /\ console s' = console s /\
  ((exists z, r = Ok z /\ trace s' = trace s ++ [INum q (inr z)]) \/
   (exists e, r = Raise e /\ trace s' = trace s ++ [INum q (inl e)])).
Proof.
  unfold evaluate_num. destruct (w_num w (length (trace s)) q); intros H;
    inversion H; subst; simpl; eauto 6.
Qed.

Lemma write_file_run k p c s r s' :
  write_file w k p c s = (r, s') ->
  assets s' = assets s /\ console s' = console s /\
  exists reply, trace s' = trace s ++ [IFile k p c reply] /\
    (r = Ok tt <-> reply = FileOk).
Proof.
  unfold write_file. destruct (w_file w (length (trace s)) p) eqn:E; intros H;
    inversion H; subst; simpl; repeat split; auto;
    eexists; (split; [reflexivity|]); split; congruence.
Qed.

End CallRuns.

(** Split a conjunction into its parts, without unfolding definitions. *)
Ltac splits := repeat match goal with |- _ /\ _ => split end.

(** Invert the first [bind] of the run [H]: [R] is the run of its first
    part and [K] the run of what follows it (or what the whole returns). *)
Tactic Notation "invert_bind" hyp(H) "as" ident(s1) ident(R) ident(K) :=
  let a := fresh "a" in
  let e := fresh "e" in
  apply bind_inv in H;
  destruct H as [(a & s1 & R & K)|[(e & R & K)|(R & K)]];
  [ try match type of a with unit => destruct a end | | ].

(** ** The scaffold and the way to the page *)

Section Prefix.

Variable py : PyLib.
Variable w : World.
Variable self : Cloner.

Lemma for_each_mkdir_Ok l s s' :
  for_each l (fun d => call w (Mkdir d)) s = (Ok tt, s') ->
  trace s' = trace s ++ map (fun d => IUnit (Mkdir d) None) l.
Proof.
  revert s. induction l as [|d l IH]; intros s H; simpl in *.
  - inversion H; subst. now rewrite app_nil_r.
  - invert_bind H as s1 R K; try discriminate.
    apply call_run in R. destruct R as (_ & _ & [[_ T]|(e & E & _)]); [|discriminate].
    apply IH in K. rewrite K, T, <- app_assoc. reflexivity.
Qed.

Lemma setup_directories_Ok s s' :
  setup_directories w self s = (Ok tt, s') ->
  trace s' = trace s ++ scaffold_calls self.
Proof.
  unfold setup_directories. intros H.
  invert_bind H as s1 R K; try discriminate.
  apply for_each_mkdir_Ok in R. apply print_run in K.
  destruct K as (_ & _ & T & _). now rewrite T, R.
Qed.

Lemma launch_browser_Ok s s' :
  launch_browser w s = (Ok tt, s') ->
  trace s' = trace s ++ [ IUnit (Launch false) None;
                          IUnit (NewContext 1920 1080 user_agent) None;
                          IUnit NewPage None ].
Proof.
  unfold launch_browser. intros H.
  invert_bind H as s1 R1 K1; try discriminate.
  apply call_run in R1. destruct R1 as (_ & _ & [[_ T1]|(e & E & _)]); [|discriminate].
  invert_bind K1 as s2 R2 K2; try discriminate.
  apply call_run in R2. destruct R2 as (_ & _ & [[_ T2]|(e & E & _)]); [|discriminate].
  apply call_run in K2. destruct K2 as (_ & _ & [[_ T3]|(e & E & _)]); [|discriminate].
  rewrite T3, T2, T1, <- !app_assoc. reflexivity.
Qed.

End Prefix.

(** ** C9 and C4: a navigation that raises *)

Section Navigation.

Variable py : PyLib.
Variable w : World.
Variable self : Cloner.

Let goto := Goto (url self) "networkidle" 60000.

Lemma staged_no_stage lo hi evs i :
  staged lo hi evs -> (stage i < lo \/ hi < stage i) -> ~ In i evs.
Proof.
  intros S H Hin. apply (staged_In _ _ _ _ S) in Hin. lia.
Qed.

(** The body of the [try] either stops at a navigation that raised, with only
    the launch before it, or makes no navigation call that raises. *)
Lemma try_body_navigation fuel s r s' :
  (open_page w self ;; capture py w self fuel) s = (r, s') ->
  (exists e, r = Raise e /\
     trace s' = trace s ++ [ IUnit (Launch false) None;
                             IUnit (NewContext 1920 1080 user_agent) None;
                             IUnit NewPage None;
                             IUnit goto (Some e) ]) \/
  (exists evs, trace s' = trace s ++ evs /\
     forall e, ~ In (IUnit goto (Some e)) evs).
Proof.
  intros H.
  assert (skip : forall lo hi evs, staged lo hi evs -> (hi < 5 \/ 5 < lo) ->
                 forall e, ~ In (IUnit goto (Some e)) evs).
  { intros lo hi evs S Hr e. apply (staged_no_stage lo hi); [exact S|simpl; lia]. }
  invert_bind H as s4 Ropen Kcap.
  - (* the page was opened; whatever follows is past navigation *)
    right.
    destruct (emits_run _ _ _ _ _ _ (emits_capture py w self fuel) Kcap) as (e2 & T2 & S2).
    unfold open_page in Ropen.
    invert_bind Ropen as s1 R1 K1; try discriminate.
    apply print_run in R1. destruct R1 as (_ & _ & T1 & _).
    invert_bind K1 as s2 R2 K2; try discriminate.
    apply launch_browser_Ok in R2.
    invert_bind K2 as s3 R3 K3; try discriminate.
    apply call_run in R3. destruct R3 as (_ & _ & [[_ T3]|(e & E & _)]); [|discriminate].
    destruct (emits_run _ _ _ _ _ _ (emits_settle w) K3) as (e1 & T4 & S1).
    eexists. split.
    { rewrite T2, T4, T3, R2, T1, <- !app_assoc. reflexivity. }
    intros e Hin. simpl in Hin.
    destruct Hin as [Hin|[Hin|[Hin|[Hin|Hin]]]]; try discriminate.
    apply in_app_or in Hin. destruct Hin as [Hin|Hin].
    + revert Hin. apply (skip 6 7); [exact S1|lia].
    + revert Hin. apply (skip 8 17); [exact S2|lia].
  - (* [open_page] raised *)
    subst r. unfold open_page in Ropen.
    invert_bind Ropen as s1 R1 K1; try (apply print_run in R1; destruct R1; discriminate).
    apply print_run in R1. destruct R1 as (_ & _ & T1 & _).
    invert_bind K1 as s2 R2 K2.
    + apply launch_browser_Ok in R2.
      invert_bind K2 as s3 R3 K3.
      * (* navigation went through; [settle] raised *)
        right.
        apply call_run in R3. destruct R3 as (_ & _ & [[_ T3]|(e' & E & _)]); [|discriminate].
        destruct (emits_run _ _ _ _ _ _ (emits_settle w) K3) as (e1 & T4 & S1).
        eexists. split.
        { rewrite T4, T3, R2, T1, <- !app_assoc. reflexivity. }
        intros e' Hin. simpl in Hin.
        destruct Hin as [Hin|[Hin|[Hin|[Hin|Hin]]]]; try discriminate.
        revert Hin. apply (skip 6 7); [exact S1|lia].
      * (* navigation raised *)
        left. injection K3 as K3. subst e0.
        apply call_run in R3. destruct R3 as (_ & _ & [[E _]|(e' & E & T3)]); [discriminate|].
        injection E as E. subst e'. exists e. split; [reflexivity|].
        rewrite T3, R2, T1, <- !app_assoc. reflexivity.
      * apply call_run in R3. destruct R3 as (_ & _ & [[E _]|(e' & E & _)]); discriminate.
    + (* the launch raised *)
      right.
      destruct (emits_run _ _ _ _ _ _ (emits_launch_browser w) R2) as (e1 & T2 & S1).
      exists e1. split; [now rewrite T2, T1|].
      apply (skip 2 4); [exact S1|lia].
    + discriminate.
  - (* out of fuel: only the scroll loop can be, and it runs in [capture] *)
    right. subst r.
    destruct (emits_run _ _ _ _ _ _ (emits_open_page w self) Ropen) as (e1 & T1 & S1).
    unfold open_page in Ropen.
    invert_bind Ropen as s1 R1 K1; try (apply print_run in R1; destruct R1; discriminate).
    apply print_run in R1. destruct R1 as (_ & _ & T0 & _).
    invert_bind K1 as s2 R2 K2; try discriminate.
    + apply launch_browser_Ok in R2.
      invert_bind K2 as s3 R3 K3; try discriminate.
      * apply call_run in R3. destruct R3 as (_ & _ & [[_ T3]|(e' & E & _)]); [|discriminate].
        destruct (emits_run _ _ _ _ _ _ (emits_settle w) K3) as (e2 & T4 & S2).
        eexists. split.
        { rewrite T4, T3, R2, T0, <- !app_assoc. reflexivity. }
        intros e' Hin. simpl in Hin.
        destruct Hin as [Hin|[Hin|[Hin|[Hin|Hin]]]]; try discriminate.
        revert Hin. apply (skip 6 7); [exact S2|lia].
      * apply call_run in R3. destruct R3 as (_ & _ & [[E _]|(e' & E & _)]); discriminate.
    + destruct (emits_run _ _ _ _ _ _ (emits_launch_browser w) R2) as (e2 & T2 & S2).
      exists e2. split; [now rewrite T2, T0|].
      apply (skip 2 4); [exact S2|lia].
Qed.

End Navigation.

Lemma In_scaffold_calls self i : In i (scaffold_calls self) -> stage i = 0.
Proof.
  unfold scaffold_calls. rewrite in_map_iff. intros (d & <- & _). reflexivity.
Qed.

Lemma exit_run {A} w (k : M A) s r s' :
  (forall s0, exists r0, k s0 = (r0, s0)) ->
  (call w PlaywrightStop ;; k) s = (r, s') ->
  exists x, trace s' = trace s ++ [IUnit PlaywrightStop x] /\
            console s' = console s /\ assets s' = assets s /\
            (x = None -> exists r0, k s' = (r0, s') /\ r = r0) /\
            (forall e, x = Some e -> r = Raise e).
Proof.
  intros Hk H. invert_bind H as s1 R K.
  - apply call_run in R. destruct R as (HA & HC & [[_ T]|(e & E & _)]); [|discriminate].
    destruct (Hk s1) as (r0 & E0). rewrite E0 in K. injection K as <- <-.
    exists None. repeat split; auto.
    + intros _. eauto.
    + discriminate.
  - subst r. apply call_run in R. destruct R as (HA & HC & [[E _]|(e' & E & T)]); [discriminate|].
    injection E as <-. exists (Some e). repeat split; auto.
    + discriminate.
    + intros e' E'. congruence.
  - apply call_run in R. destruct R as (_ & _ & [[E _]|(e' & E & _)]); discriminate.
Qed.

(** A run in which the navigation call raised [e]: its calls are exactly the
    scaffold, the launch, the failed navigation and the exit from the
    Playwright context; the handler printed the error and the traceback. *)
Lemma clone_navigation_failure py w self fuel s r final e :
  trace s = [] ->
  clone py w self fuel s = (r, final) ->
  In (IUnit (Goto (url self) "networkidle" 60000) (Some e)) (trace final) ->
  is_Exception e = true ->
  exists x,
    trace final = aborted_run self e x /\
    (exists earlier,
       console final =
       earlier ++ [Line ("❌ Error during cloning: " ++ exn_str e)%string; Traceback e]) /\
    (x = None -> r = Ok tt) /\
    (forall e', x = Some e' -> r = Raise e').
Proof.
  intros T0 Hrun Hin Hexc. unfold clone in Hrun.
  invert_bind Hrun as s1 R1 K1; try (apply print_run in R1; destruct R1; discriminate).
  apply print_run in R1. destruct R1 as (_ & _ & T1 & _). rewrite T0 in T1.
  invert_bind K1 as s2 R2 K2.
  - (* the scaffold stands *)
    apply setup_directories_Ok in R2. rewrite T1 in R2. simpl in R2.
    invert_bind K2 as s3 R3 K3.
    + apply call_run in R3. destruct R3 as (_ & _ & [[_ T3]|(e' & E & _)]); [|discriminate].
      apply with_exit_inv in K3.
      destruct K3 as [(a & s4 & B & X)|[(e' & s4 & B & X)|(B & X)]].
      * (* the [try] statement returned *)
        apply try_except_inv in B.
        destruct B as [(a' & B & _)|[(e' & s5 & B & He' & H)|[(e' & B & ? & ?)|(B & ?)]]];
          try discriminate.
        -- (* its body returned: no navigation raised *)
           exfalso.
           apply try_body_navigation in B.
           destruct B as [(e' & E & _)|(evs & T & N)]; [discriminate|].
           apply exit_run in X; [|intros; eexists; reflexivity].
           destruct X as (x & TX & _).
           rewrite TX, T, T3, R2 in Hin.
           repeat (apply in_app_or in Hin; destruct Hin as [Hin|Hin]).
           ++ apply In_scaffold_calls in Hin. discriminate.
           ++ simpl in Hin. intuition discriminate.
           ++ revert Hin. apply N.
           ++ simpl in Hin. intuition discriminate.
        -- (* its body raised and the handler ran *)
           apply try_body_navigation in B.
           destruct B as [(e'' & E & T)|(evs & T & N)].
           ++ injection E as <-.
              unfold report in H.
              invert_bind H as s6 P1 P2; try (apply print_run in P1; destruct P1; discriminate).
              apply print_run in P1. destruct P1 as (_ & _ & TP & CP).
              unfold print_exc in P2. injection P2 as <- <-.
              apply exit_run in X; [|intros; eexists; reflexivity].
              destruct X as (x & TX & CX & _ & XN & XS). simpl in TX, CX.
              rewrite TP, T, T3, R2 in TX.
              assert (e' = e) as ->.
              { rewrite TX in Hin.
                repeat (apply in_app_or in Hin; destruct Hin as [Hin|Hin]).
                - apply In_scaffold_calls in Hin. discriminate.
                - simpl in Hin. intuition discriminate.
                - simpl in Hin.
                  destruct Hin as [Hin|[Hin|[Hin|[Hin|[]]]]]; try discriminate.
                  now injection Hin.
                - simpl in Hin. intuition discriminate. }
              exists x. split; [|split; [|split]].
              ** rewrite TX. unfold aborted_run. rewrite <- !app_assoc. reflexivity.
              ** exists (console s5). rewrite CX, CP, <- app_assoc. reflexivity.
              ** intros Hx. destruct (XN Hx) as (r0 & E0 & ->). now injection E0 as <-.
              ** exact XS.
           ++ exfalso.
              assert (TR : trace s4 = trace s5).
              { unfold report in H.
                invert_bind H as s6 P1 P2; try (apply print_run in P1; destruct P1; discriminate).
                apply print_run in P1. destruct P1 as (_ & _ & TP & _).
                unfold print_exc in P2. injection P2 as <- <-. simpl. exact TP. }
              apply exit_run in X; [|intros; eexists; reflexivity].
              destruct X as (x & TX & _).
              rewrite TX, TR, T, T3, R2 in Hin.
              repeat (apply in_app_or in Hin; destruct Hin as [Hin|Hin]).
              ** apply In_scaffold_calls in Hin. discriminate.
              ** simpl in Hin. intuition discriminate.
              ** revert Hin. apply N.
              ** simpl in Hin. intuition discriminate.
      * (* the [try] statement let an exception through: not an [Exception] *)
        exfalso.
        apply try_except_inv in B.
        destruct B as [(a' & B & ?)|[(e2 & s5 & B & He' & H)|[(e2 & B & He' & E)|(B & ?)]]];
          try discriminate.
        -- apply try_body_navigation in B.
           apply exit_run in X; [|intros; eexists; reflexivity].
           destruct X as (x & TX & _).
           destruct B as [(e'' & E' & T)|(evs & T & N)].
           ++ injection E' as <-.
              rewrite TX, T, T3, R2 in Hin.
              repeat (apply in_app_or in Hin; destruct Hin as [Hin|Hin]).
              ** apply In_scaffold_calls in Hin. discriminate.
              ** simpl in Hin. intuition discriminate.
              ** simpl in Hin.
                 destruct Hin as [Hin|[Hin|[Hin|[Hin|[]]]]]; try discriminate.
                 injection Hin as <-. congruence.
              ** simpl in Hin. intuition discriminate.
           ++ rewrite TX, T, T3, R2 in Hin.
              repeat (apply in_app_or in Hin; destruct Hin as [Hin|Hin]).
              ** apply In_scaffold_calls in Hin. discriminate.
              ** simpl in Hin. intuition discriminate.
              ** revert Hin. apply N.
              ** simpl in Hin. intuition discriminate.
      * (* out of fuel *)
        exfalso.
        apply try_except_inv in B.
        destruct B as [(a' & B & ?)|[(e2 & s5 & B & He' & H)|[(e2 & B & He' & E)|(B & _)]]];
          try discriminate.
        -- apply try_body_navigation in B.
           destruct B as [(e'' & E' & _)|(evs & T & N)]; [discriminate|].
           rewrite T, T3, R2 in Hin.
           repeat (apply in_app_or in Hin; destruct Hin as [Hin|Hin]).
           ++ apply In_scaffold_calls in Hin. discriminate.
           ++ simpl in Hin. intuition discriminate.
           ++ revert Hin. apply N.
    + (* starting Playwright raised *)
      exfalso. apply call_run in R3.
      destruct R3 as (_ & _ & [[E _]|(e' & _ & T3)]); [discriminate|].
      rewrite T3, R2 in Hin.
      apply in_app_or in Hin. destruct Hin as [Hin|Hin].
      * apply In_scaffold_calls in Hin. discriminate.
      * simpl in Hin. intuition discriminate.
    + apply call_run in R3. destruct R3 as (_ & _ & [[E _]|(e' & E & _)]); discriminate.
  - (* the scaffold raised *)
    exfalso.
    destruct (emits_run _ _ _ _ _ _ (emits_setup_directories w self) R2) as (evs & T & S).
    rewrite T, T1 in Hin. simpl in Hin.
    revert Hin. apply (staged_no_stage 0 0); [exact S|simpl; lia].
  - exfalso.
    destruct (emits_run _ _ _ _ _ _ (emits_setup_directories w self) R2) as (evs & T & S).
    rewrite T, T1 in Hin. simpl in Hin.
    revert Hin. apply (staged_no_stage 0 0); [exact S|simpl; lia].
Qed.

(** ** The file system a run leaves *)

Lemma effect_untouched i fs p : reaches i p = false -> effect i fs p = fs p.
Proof.
  unfold effect, reaches, mkdir, put.
  destruct i as [[] []| | | | |? ? ? []]; intros H; try reflexivity;
    rewrite H; reflexivity.
Qed.

Lemma fs_after_untouched tr fs p :
  (forall i, In i tr -> reaches i p = false) -> fs_after fs tr p = fs p.
Proof.
  revert fs. induction tr as [|i tr IH]; intros fs H; simpl; [reflexivity|].
  rewrite IH; [|intros j Hj; apply H; now right].
  apply effect_untouched. apply H. now left.
Qed.

(** A call that is given no path reaches none. *)
Lemma reaches_none i p : touched i = None -> reaches i p = false.
Proof. destruct i as [[] []| | | | |? ? ? []]; simpl; intros H; congruence. Qed.

(** A call other than a [mkdir] reaches the path it is given, and no other. *)
Lemma reaches_touched i p :
  (forall d, i <> IUnit (Mkdir d) None) -> touched i <> Some p -> reaches i p = false.
Proof.
  destruct i as [[] []| | | | |? ? ? []]; simpl; intros M H; try reflexivity;
    try (apply String.eqb_neq; congruence).
  exfalso. eapply M. reflexivity.
Qed.

Lemma touched_reaches i p : touched i = Some p -> reaches i p = true.
Proof.
  destruct i as [[] []| | | | |? ? ? []]; simpl; intros H; try discriminate;
    injection H as ->; rewrite String.eqb_refl; reflexivity.
Qed.

Lemma fs_after_app tr1 tr2 fs : fs_after fs (tr1 ++ tr2) = fs_after (fs_after fs tr1) tr2.
Proof.
  revert fs. induction tr1 as [|i tr1 IH]; intros fs; simpl; [reflexivity|apply IH].
Qed.

(** A trace whose only effects are created directories. *)
Lemma fs_after_only_directories tr fs p :
  (forall i, In i tr -> touched i = None \/ exists d, i = IUnit (Mkdir d) None) ->
  fs_after fs tr p = fs p \/ fs_after fs tr p = Some Dir.
Proof.
  revert fs. induction tr as [|i tr IH]; intros fs H; simpl; [now left|].
  destruct (IH (effect i fs)) as [E|E]; [intros j Hj; apply H; now right| |now right].
  rewrite E. destruct (H i (or_introl eq_refl)) as [N|(d & ->)].
  - left. apply effect_untouched. now apply reaches_none.
  - simpl. unfold mkdir. destruct ((p =? d)%string || above p d); auto.
Qed.

Lemma append_inj_l (a b c : string) : (a ++ b = a ++ c)%string -> b = c.
Proof.
  induction a as [|x a IH]; simpl; intros H; [exact H|].
  injection H as H. now apply IH.
Qed.

Lemma append_length (a b : string) :
  String.length (a ++ b) = String.length a + String.length b.
Proof. induction a as [|x a IH]; simpl; [reflexivity|now rewrite IH]. Qed.

Lemma append_neq_self (a : string) (x : ascii) (b : string) :
  (a ++ String x b)%string <> a.
Proof.
  intros H. apply (f_equal String.length) in H.
  rewrite append_length in H. simpl in H. lia.
Qed.

Lemma aborted_run_only_directories self e x i :
  In i (aborted_run self e x) ->
  touched i = None \/ exists d, i = IUnit (Mkdir d) None.
Proof.
  unfold aborted_run, scaffold_calls. intros H.
  apply in_app_or in H. destruct H as [H|H].
  - apply in_map_iff in H. destruct H as (d & <- & _). right. eauto.
  - simpl in H. left. intuition (subst; reflexivity).
Qed.

Lemma string_app_assoc (a b c : string) : ((a ++ b) ++ c = a ++ b ++ c)%string.
Proof. induction a as [|x a IH]; simpl; [reflexivity|now rewrite IH]. Qed.

Lemma prefix_app_same a x y : prefix (a ++ x) (a ++ y) = prefix x y.
Proof.
  induction a as [|c a IH]; simpl; [reflexivity|].
  destruct (ascii_dec c c) as [_|N]; [exact IH|contradiction].
Qed.

Lemma prefix_longer a c x : prefix (a ++ String c x) a = false.
Proof.
  induction a as [|d a IH]; simpl; [reflexivity|].
  destruct (ascii_dec d d) as [_|N]; [exact IH|contradiction].
Qed.

(** A path of the form [a ++ x] is above neither [a] nor [a ++ y], when
    [x ++ "/"] is no prefix of [y]. *)
Lemma not_above_root a c x : above (a ++ String c x) a = false.
Proof.
  unfold above. rewrite string_app_assoc. simpl.
  rewrite prefix_longer. apply andb_false_r.
Qed.

Lemma not_above_sibling a x y :
  prefix (x ++ "/") y = false -> above (a ++ x) (a ++ y) = false.
Proof.
  intros H. unfold above. rewrite string_app_assoc, prefix_app_same, H.
  apply andb_false_r.
Qed.

Lemma aborted_run_leaves_manifest self e x i :
  In i (aborted_run self e x) ->
  reaches i (output_dir self ++ "/metadata.json")%string = false.
Proof.
  unfold aborted_run, scaffold_calls, directories. intros H.
  apply in_app_or in H. destruct H as [H|H].
  - apply in_map_iff in H. destruct H as (d & <- & H). simpl.
    apply orb_false_intro.
    + apply String.eqb_neq. intros E. simpl in H.
      destruct H as [H|[H|[H|[H|[H|[H|[H|[]]]]]]]]; subst d;
        try (apply append_inj_l in E; discriminate).
      revert E. apply append_neq_self.
    + simpl in H.
      destruct H as [H|[H|[H|[H|[H|[H|[H|[]]]]]]]]; subst d;
        first [apply not_above_root | apply not_above_sibling; reflexivity].
  - simpl in H. intuition (subst; reflexivity).
Qed.

Lemma aborted_run_stages self e x i :
  In i (aborted_run self e x) -> stage i <= 5 \/ stage i = 18.
Proof.
  unfold aborted_run. intros H.
  apply in_app_or in H. destruct H as [H|H].
  - apply In_scaffold_calls in H. lia.
  - simpl in H. intuition (subst; simpl; lia).
Qed.

(** C9.  When the navigation call raises (an unreachable host, the 60 s
    timeout), the run made exactly the scaffold calls, the browser launch and
    the failed navigation before it left the Playwright context: no call of
    discovery, download, HTML snapshot, screenshot or manifest follows; the
    run created directories and no file, so the scaffold holds nothing and
    the manifest path is left as it was; and the handler printed the error
    followed by the traceback. *)
Theorem navigation_failure_aborts_run py w u out fuel e :
  In (IUnit (Goto u "networkidle" 60000) (Some e))
     (trace (snd (run_clone py w u out fuel))) ->
  is_Exception e = true ->
  (exists x, trace (snd (run_clone py w u out fuel))
             = aborted_run (fst (init py u out)) e x) /\
  (forall i, In i (trace (snd (run_clone py w u out fuel))) ->
             stage i <= 5 \/ stage i = 18) /\
  (forall fs p,
     fs_after fs (trace (snd (run_clone py w u out fuel))) p = fs p \/
     fs_after fs (trace (snd (run_clone py w u out fuel))) p = Some Dir) /\
  (forall fs,
     fs_after fs (trace (snd (run_clone py w u out fuel))) (out ++ "/metadata.json")%string
     = fs (out ++ "/metadata.json")%string) /\
  (exists earlier,
     console (snd (run_clone py w u out fuel))
     = earlier ++ [Line ("❌ Error during cloning: " ++ exn_str e)%string; Traceback e]).
Proof.
  intros Hin Hexc. unfold run_clone in *.
  destruct (clone py w (fst (init py u out)) fuel (snd (init py u out)))
    as [r final] eqn:Hrun.
  simpl in Hin |- *.
  destruct (clone_navigation_failure py w (fst (init py u out)) fuel
              (snd (init py u out)) r final e eq_refl Hrun Hin Hexc)
    as (x & T & C & _).
  rewrite T. repeat split.
  - eauto.
  - apply aborted_run_stages.
  - intros fs p. apply fs_after_only_directories.
    intros i. apply aborted_run_only_directories.
  - intros fs. apply fs_after_untouched.
    intros i. apply (aborted_run_leaves_manifest (fst (init py u out))).
  - exact C.
Qed.

Lemma navigation_failure_aborts_run_witness :
  (forall fs,
     fs_after fs (trace (snd (run_clone demo_py unreachable "https://x" "cloned_x" 10)))
       "cloned_x/metadata.json"
     = fs "cloned_x/metadata.json") /\
  (exists earlier,
     console (snd (run_clone demo_py unreachable "https://x" "cloned_x" 10))
     = earlier ++ [Line "❌ Error during cloning: Timeout 60000ms exceeded.";
                   Traceback TimeoutError]).
Proof.
  assert (H := navigation_failure_aborts_run demo_py unreachable "https://x" "cloned_x" 10
                 TimeoutError).
  destruct H as (_ & _ & _ & F & C).
  - vm_compute. repeat (first [left; reflexivity | right]).
  - reflexivity.
  - split; [exact F|exact C].
Defined.

(** ** C8: the scroll loop *)

Section Scroll.

Variable w : World.

(** What a loop that returned did: one measurement after every step, a step
    exactly while the position was below the last measurement. *)
Lemma scroll_loop_Ok fuel pos total step_ s s' :
  scroll_loop w fuel pos total step_ s = (Ok tt, s') ->
  exists hs,
    trace s' = trace s ++ loop_calls pos step_ hs /\
    loop_guard pos step_ total hs.
Proof.
  revert pos total s. induction fuel as [|fuel IH]; intros pos total s H; simpl in H.
  - discriminate.
  - destruct (Z.ltb_spec pos total) as [Hlt|Hge].
    + invert_bind H as s1 R1 K1; try discriminate.
      apply call_run in R1. destruct R1 as (_ & _ & [[_ T1]|(e & E & _)]); [|discriminate].
      invert_bind K1 as s2 R2 K2; try discriminate.
      apply sleep_run in R2. destruct R2 as (_ & ->).
      invert_bind K2 as s3 R3 K3; try discriminate.
      apply evaluate_num_run in R3.
      destruct R3 as (_ & _ & [(h & E & T3)|(e & E & _)]); [|discriminate].
      injection E as <-.
      apply IH in K3. destruct K3 as (hs & T & G).
      exists (a :: hs). split.
      * rewrite T, T3, T1, <- !app_assoc. reflexivity.
      * simpl. auto.
    + injection H as <-. exists []. split; [now rewrite app_nil_r|exact Hge].
Qed.


Lemma stops_growing_bounded :
  stops_growing w ->
  exists bound, forall n v, w_num w n ScrollHeight = inr v -> (v <= bound)%Z.
Proof.
  intros (N & h & H).
  assert (P : forall k, exists b, forall n v,
               n < k -> w_num w n ScrollHeight = inr v -> (v <= b)%Z).
  { intros k. induction k as [|k (b & IH)].
    - exists 0%Z. intros; lia.
    - destruct (w_num w k ScrollHeight) as [e|v0] eqn:E.
      + exists b. intros n v Hn Hv.
        destruct (Nat.eq_dec n k) as [->|Hne]; [congruence|].
        apply IH with n; [lia|exact Hv].
      + exists (Z.max b v0). intros n v Hn Hv.
        destruct (Nat.eq_dec n k) as [->|Hne].
        * rewrite E in Hv. injection Hv as <-. lia.
        * assert (v <= b)%Z by (apply IH with n; [lia|exact Hv]). lia. }
  destruct (P N) as (b & Hb).
  exists (Z.max b h). intros n v Hv.
  destruct (Nat.lt_ge_cases n N) as [Hn|Hn].
  - assert (v <= b)%Z by (apply Hb with n; assumption). lia.
  - rewrite (H n Hn) in Hv. injection Hv as <-. lia.
Qed.

Lemma scroll_page_fully_Ok fuel s s' :
  scroll_page_fully w fuel s = (Ok tt, s') ->
  exists h0 v hs,
    trace s' = trace s
               ++ [INum ScrollHeight (inr h0); INum InnerHeight (inr v)]
               ++ loop_calls 0 v hs
               ++ [IUnit (ScrollTo 0) None] /\
    loop_guard 0 v h0 hs.
Proof.
  unfold scroll_page_fully. intros H.
  invert_bind H as s1 R1 K1; try discriminate.
  apply print_run in R1. destruct R1 as (_ & _ & T1 & _).
  invert_bind K1 as s2 R2 K2; try discriminate.
  apply evaluate_num_run in R2.
  destruct R2 as (_ & _ & [(h0 & E & T2)|(e & E & _)]); [|discriminate].
  injection E as <-.
  invert_bind K2 as s3 R3 K3; try discriminate.
  apply evaluate_num_run in R3.
  destruct R3 as (_ & _ & [(v & E & T3)|(e & E & _)]); [|discriminate].
  injection E as <-.
  invert_bind K3 as s4 R4 K4; try discriminate.
  apply scroll_loop_Ok in R4. destruct R4 as (hs & T4 & G).
  invert_bind K4 as s5 R5 K5; try discriminate.
  apply call_run in R5. destruct R5 as (_ & _ & [[_ T5]|(e & E & _)]); [|discriminate].
  invert_bind K5 as s6 R6 K6; try discriminate.
  apply sleep_run in R6. destruct R6 as (_ & ->).
  apply print_run in K6. destruct K6 as (_ & _ & T6 & _).
  exists a, a0, hs. split; [|exact G].
  rewrite T6, T5, T4, T3, T2, T1, <- !app_assoc. reflexivity.
Qed.


End Scroll.



(** The scenario of the specification: the height grows from 1500 to 3500
    after the second scroll step, and the loop goes on to 2000 and 3000,
    beyond the original height, before it returns to the top. *)
Example growing_page_scrolls_beyond_original_height :
  scroll_targets (trace (snd (scroll_page_fully (growing_page 0) 10 start)))
  = [0; 1000; 2000; 3000; 0]%Z /\
  measured_heights (trace (snd (scroll_page_fully (growing_page 0) 10 start)))
  = [1500; 1500; 3500; 3500; 3500]%Z.
Proof. split; reflexivity. Qed.



(** ** C10: what reaches the caller of [clone] *)

Lemma returns_contained {A} (m : M A) : returns m -> contained m.
Proof. intros H s. destruct (H s) as (a & ->). exact I. Qed.

Lemma contained_bind {A B} (m : M A) (f : A -> M B) :
  contained m -> (forall a, contained (f a)) -> contained (bind m f).
Proof.
  intros Hm Hf s. unfold bind. specialize (Hm s).
  destruct (m s) as [[a|e|] s1]; simpl in *; [apply Hf|exact Hm|exact Hm].
Qed.

Lemma returns_bind {A B} (m : M A) (f : A -> M B) :
  returns m -> (forall a, returns (f a)) -> returns (bind m f).
Proof.
  intros Hm Hf s. unfold bind. destruct (Hm s) as (a & E).
  destruct (m s) as [[a'|e|] s1]; simpl in E; try discriminate. apply Hf.
Qed.

Lemma contained_try_bare {A} (m : M A) (h : M A) :
  contained m -> contained h -> contained (try_bare m h).
Proof.
  intros Hm Hh s. unfold try_bare. specialize (Hm s).
  destruct (m s) as [[a|e|] s1]; simpl in *; [exact I|apply Hh|exact Hm].
Qed.

Lemma returns_try_bare {A} (m : M A) (h : M A) :
  contained m -> returns h -> returns (try_bare m h).
Proof.
  intros Hm Hh s. unfold try_bare. specialize (Hm s).
  destruct (m s) as [[a|e|] s1]; simpl in *; [eauto|apply Hh|contradiction].
Qed.

Lemma returns_try_except {A} (m : M A) (h : exn -> M A) :
  contained m -> (forall e, returns (h e)) -> returns (try_except m h).
Proof.
  intros Hm Hh s. unfold try_except. specialize (Hm s).
  destruct (m s) as [[a|e|] s1]; simpl in *; [eauto| |contradiction].
  rewrite Hm. apply Hh.
Qed.

Lemma returns_with_exit {A} (m : M A) (exit : M unit) :
  returns m -> returns exit -> returns (with_exit m exit).
Proof.
  intros Hm Hx s. unfold with_exit. destruct (Hm s) as (a & E).
  destruct (m s) as [[a'|e|] s1]; simpl in E; try discriminate.
  apply returns_bind; [exact Hx|]. intros _ s2. eexists. reflexivity.
Qed.

Lemma contained_for_each {A} (l : list A) (body : A -> M unit) :
  (forall x, contained (body x)) -> contained (for_each l body).
Proof.
  intros H. induction l as [|x l IH]; simpl.
  - intros s. exact I.
  - apply contained_bind; auto.
Qed.

Lemma returns_for_each {A} (l : list A) (body : A -> M unit) :
  (forall x, returns (body x)) -> returns (for_each l body).
Proof.
  intros H. induction l as [|x l IH]; simpl.
  - intros s. eexists. reflexivity.
  - apply returns_bind; auto.
Qed.

Lemma returns_for_enumerate_from i (l : list string) (body : nat -> string -> M unit) :
  (forall j x, returns (body j x)) -> returns (for_enumerate_from i l body).
Proof.
  intros H. revert i. induction l as [|x l IH]; intros i; simpl.
  - intros s. eexists. reflexivity.
  - apply returns_bind; auto.
Qed.

Ltac quiet_returns := intros ?; eexists; reflexivity.

Section Contained.

Variable py : PyLib.
Variable w : World.
Variable self : Cloner.
Hypothesis only : only_Exceptions w.

Lemma contained_call o : contained (call w o).
Proof.
  intros s. unfold call.
  destruct (w_unit w (length (trace s)) o) eqn:E; simpl; [|exact I].
  destruct only as (H & _). eapply H. exact E.
Qed.

Lemma contained_evaluate_urls q : contained (evaluate_urls w q).
Proof.
  intros s. unfold evaluate_urls.
  destruct (w_urls w (length (trace s)) q) eqn:E; simpl; [|exact I].
  destruct only as (_ & H & _). eapply H. exact E.
Qed.

Lemma contained_evaluate_num q : contained (evaluate_num w q).
Proof.
  intros s. unfold evaluate_num.
  destruct (w_num w (length (trace s)) q) eqn:E; simpl; [|exact I].
  destruct only as (_ & _ & H & _). eapply H. exact E.
Qed.

Lemma contained_page_content : contained (page_content w).
Proof.
  intros s. unfold page_content.
  destruct (w_content w (length (trace s))) eqn:E; simpl; [|exact I].
  destruct only as (_ & _ & _ & H & _). eapply H. exact E.
Qed.

Lemma contained_write_file k p c : contained (write_file w k p c).
Proof.
  intros s. unfold write_file.
  destruct only as (_ & _ & _ & _ & _ & _ & H1 & H2).
  destruct (w_file w (length (trace s)) p) eqn:E; simpl; [exact I| |].
  - eapply H1. exact E.
  - eapply H2. exact E.
Qed.

(** The body of [download_file]'s [try]: the request, the read and the
    write. *)
Lemma contained_fetch u p :
  contained
    (response <- http_get w u ;;
     if (fst response =? 200)%Z then
       content <- read (snd response) ;;
       write_file w AssetFile p (Raw content) ;;
       ret (Some true)
     else ret None).
Proof.
  intros s. unfold bind at 1. unfold http_get.
  destruct only as (_ & _ & _ & _ & H1 & H2 & H3 & H4).
  destruct (w_get w (length (trace s)) u) as [e|status body] eqn:E; simpl.
  - eapply H1. exact E.
  - destruct (status =? 200)%Z; [|exact I].
    destruct body as [e|b]; simpl.
    + eapply H2. exact E.
    + unfold bind, ret, write_file.
      match goal with
      | |- context [w_file w ?n p] => destruct (w_file w n p) eqn:E2; simpl
      end.
      * exact I.
      * eapply H3. exact E2.
      * eapply H4. exact E2.
Qed.

Lemma returns_download_file u p : returns (download_file w u p).
Proof.
  unfold download_file. apply returns_try_except.
  - apply contained_fetch.
  - intros e. quiet_returns.
Qed.

Lemma returns_download_loop (name : nat -> string -> string) (dir label : string) i l :
  returns
    (for_enumerate_from i l (fun i u =>
       ok <- download_file w u (output_dir self ++ dir ++ name i u)%string ;;
       if truthy ok then print (label ++ name i u)%string else ret tt)).
Proof.
  apply returns_for_enumerate_from. intros j x.
  apply returns_bind; [apply returns_download_file|].
  intros ok. destruct (truthy ok); quiet_returns.
Qed.

(** Downloads never abort the run: [download_assets] always returns. *)
Lemma returns_download_assets : returns (download_assets py w self).
Proof.
  unfold download_assets, for_enumerate.
  apply returns_bind; [quiet_returns|intros _].
  apply returns_bind; [quiet_returns|intros l1].
  apply returns_bind; [|intros _].
  { apply (returns_download_loop (fun i _ => "style_" ++ str i ++ ".css")%string "/css/"). }
  apply returns_bind; [quiet_returns|intros l2].
  apply returns_bind; [|intros _].
  { apply (returns_download_loop (fun i _ => "script_" ++ str i ++ ".js")%string "/js/"). }
  apply returns_bind; [quiet_returns|intros l3].
  apply returns_bind; [|intros _].
  { apply (returns_download_loop
             (fun i u => "image_" ++ str i ++
                (if (url_suffix py u =? "")%string then ".jpg" else url_suffix py u))%string
             "/images/"). }
  apply returns_bind; [quiet_returns|intros l4].
  apply returns_bind; [|intros _].
  { apply (returns_download_loop (fun i _ => "svg_" ++ str i ++ ".svg")%string "/svgs/"). }
  apply returns_bind; [quiet_returns|intros l5].
  apply (returns_download_loop
           (fun i u => "font_" ++ str i ++
              (if (url_suffix py u =? "")%string then ".woff2" else url_suffix py u))%string
           "/fonts/").
Qed.

End Contained.

Create HintDb contained_db.

#[local] Hint Resolve contained_call contained_evaluate_urls contained_evaluate_num
  contained_page_content contained_write_file : contained_db.

Ltac contained_quiet := intros ?; exact I.

Ltac contained_go :=
  lazymatch goal with
  | |- contained (bind _ _) =>
      apply contained_bind; [contained_go|intros; contained_go]
  | |- contained (if ?b then _ else _) => destruct b; contained_go
  | |- contained (try_bare _ _) => apply contained_try_bare; contained_go
  | |- contained (for_each _ _) => apply contained_for_each; intros; contained_go
  | |- contained _ =>
      first [ solve [contained_quiet] | solve [eauto 3 with contained_db] ]
  end.

Section ContainedStages.

Variable py : PyLib.
Variable w : World.
Variable self : Cloner.
Hypothesis only : only_Exceptions w.

#[local] Hint Resolve returns_contained returns_download_assets : contained_db.

Lemma contained_extract_assets_from_page :
  contained (extract_assets_from_page py w self).
Proof. unfold extract_assets_from_page. contained_go. Qed.

Lemma contained_save_html : contained (save_html w self).
Proof. unfold save_html. contained_go. Qed.

Lemma contained_wait_for_images_and_fonts : contained (wait_for_images_and_fonts w).
Proof. unfold wait_for_images_and_fonts. contained_go. Qed.

Lemma contained_save_metadata : contained (save_metadata w self).
Proof. unfold save_metadata. contained_go. Qed.

Lemma contained_close_cookie_popup l : contained (close_cookie_popup w l).
Proof.
  induction l as [|sel l IH]; simpl; [contained_quiet|].
  apply contained_bind; [contained_go|].
  intros [|]; [contained_quiet|exact IH].
Qed.

#[local] Hint Resolve contained_close_cookie_popup : contained_db.

Lemma contained_open_page : contained (open_page w self).
Proof. unfold open_page, launch_browser, settle. contained_go. Qed.

Lemma contained_scroll_loop bound step_ :
  (0 < step_)%Z ->
  (forall n v, w_num w n ScrollHeight = inr v -> (v <= bound)%Z) ->
  forall fuel pos total,
    (total <= bound)%Z -> Z.to_nat (bound - pos) < fuel ->
    contained (scroll_loop w fuel pos total step_).
Proof.
  intros Hstep Hb. induction fuel as [|fuel IH]; intros pos total Ht Hf; [lia|].
  simpl. destruct (Z.ltb_spec pos total) as [Hlt|Hge]; [|contained_quiet].
  apply contained_bind; [apply contained_call; exact only|intros _].
  apply contained_bind; [contained_quiet|intros _].
  intros s. unfold bind, evaluate_num.
  destruct only as (_ & _ & HN & _).
  destruct (w_num w (length (trace s)) ScrollHeight) as [e|h] eqn:E; simpl.
  - eapply HN. exact E.
  - apply IH; [eapply Hb; exact E|lia].
Qed.

Lemma contained_scroll_page_fully bound fuel :
  positive_viewport w ->
  (forall n v, w_num w n ScrollHeight = inr v -> (v <= bound)%Z) ->
  Z.to_nat bound < fuel ->
  contained (scroll_page_fully w fuel).
Proof.
  intros Hv Hb Hf. unfold scroll_page_fully.
  apply contained_bind; [contained_quiet|intros _].
  destruct only as (_ & _ & HN & _).
  intros s. unfold bind at 1. unfold evaluate_num at 1.
  destruct (w_num w (length (trace s)) ScrollHeight) as [e|h0] eqn:E0; simpl.
  { eapply HN. exact E0. }
  unfold bind at 1. unfold evaluate_num at 1.
  match goal with
  | |- context [w_num w ?n InnerHeight] =>
      destruct (w_num w n InnerHeight) as [e|v] eqn:E1; simpl
  end.
  { eapply HN. exact E1. }
  match goal with
  | |- context [bind ?m ?f ?s0] =>
      change (match fst (bind m f s0) with
              | Ok _ => True
              | Raise e => is_Exception e = true
              | OutOfFuel => False
              end)
  end.
  apply contained_bind.
  - apply (contained_scroll_loop bound); [eapply Hv; exact E1|exact Hb| |].
    + eapply Hb. exact E0.
    + rewrite Z.sub_0_r. exact Hf.
  - intros _. contained_go.
Qed.

Lemma contained_capture bound fuel :
  positive_viewport w ->
  (forall n v, w_num w n ScrollHeight = inr v -> (v <= bound)%Z) ->
  Z.to_nat bound < fuel ->
  contained (capture py w self fuel).
Proof.
  intros Hv Hb Hf. unfold capture.
  apply contained_bind; [apply contained_extract_assets_from_page|intros _].
  apply contained_bind; [apply returns_contained, returns_download_assets; exact only|intros _].
  apply contained_bind; [apply contained_save_html|intros _].
  apply contained_bind; [|intros _].
  { unfold take_screenshots.
    apply contained_bind; [contained_quiet|intros _].
    apply contained_bind; [apply (contained_scroll_page_fully bound); assumption|intros _].
    apply contained_bind; [apply contained_wait_for_images_and_fonts|intros _].
    contained_go. }
  apply contained_bind; [apply contained_save_metadata|intros _].
  contained_go.
Qed.

Hypothesis outside : outside_try_succeeds w.

Lemma returns_call_outside o :
  (exists d, o = Mkdir d) \/ o = PlaywrightStart \/ o = PlaywrightStop ->
  returns (call w o).
Proof.
  intros H s. unfold call. destruct (outside (length (trace s))) as (H1 & H2 & H3).
  destruct H as [(d & ->)|[->| ->]].
  - rewrite H1. eexists. reflexivity.
  - rewrite H2. eexists. reflexivity.
  - rewrite H3. eexists. reflexivity.
Qed.

Lemma returns_setup_directories : returns (setup_directories w self).
Proof.
  unfold setup_directories.
  apply returns_bind; [|intros _; quiet_returns].
  apply returns_for_each. intros d. apply returns_call_outside. left. eauto.
Qed.

Lemma returns_clone bound fuel :
  positive_viewport w ->
  (forall n v, w_num w n ScrollHeight = inr v -> (v <= bound)%Z) ->
  Z.to_nat bound < fuel ->
  returns (clone py w self fuel).
Proof.
  intros Hv Hb Hf. unfold clone.
  apply returns_bind; [quiet_returns|intros _].
  apply returns_bind; [apply returns_setup_directories|intros _].
  apply returns_bind; [apply returns_call_outside; auto|intros _].
  apply returns_with_exit; [|apply returns_call_outside; auto].
  apply returns_try_except; [|intros e; quiet_returns].
  apply contained_bind; [apply contained_open_page|intros _].
  apply (contained_capture bound); assumption.
Qed.

End ContainedStages.

(** C10, as the code has it.  Whatever fails inside the [try] statement of
    [clone] - the browser launch, the navigation, discovery, a download, the
    HTML snapshot, the screenshots, the manifest, closing the browser - with
    an exception that is an instance of [Exception] never reaches the caller:
    provided that what [clone] does outside the [try] (creating the
    directories, entering and leaving the Playwright context) does not raise,
    and that the scroll loop can end (the height stops growing, the viewport
    height is positive), [clone] returns normally. *)
Theorem clone_returns_normally py w u out :
  only_Exceptions w -> outside_try_succeeds w ->
  stops_growing w -> positive_viewport w ->
  exists fuel0, forall fuel, fuel0 <= fuel ->
    fst (run_clone py w u out fuel) = Ok tt.
Proof.
  intros Ho Hout Hg Hv.
  destruct (stops_growing_bounded w Hg) as (bound & Hb).
  exists (S (Z.to_nat bound)). intros fuel Hf. unfold run_clone.
  destruct (returns_clone py w (fst (init py u out)) Ho Hout bound fuel Hv Hb
              ltac:(lia) (snd (init py u out))) as ([] & E).
  exact E.
Qed.

Lemma unreachable_only_Exceptions : only_Exceptions unreachable.
Proof.
  repeat split; simpl; try discriminate.
  - intros n o e. destruct o; try discriminate. intros H. injection H as <-. reflexivity.
  - intros n u e. destruct (u =? "https://x/missing")%string; discriminate.
  - intros n u status e. destruct (u =? "https://x/missing")%string; discriminate.
Qed.

Lemma unreachable_outside_try_succeeds : outside_try_succeeds unreachable.
Proof. intros n. repeat split. Qed.

Lemma clone_returns_normally_witness :
  exists fuel0, forall fuel, fuel0 <= fuel ->
    fst (run_clone demo_py unreachable "https://x" "cloned_x" fuel) = Ok tt.
Proof.
  apply (clone_returns_normally demo_py unreachable "https://x" "cloned_x").
  - exact unreachable_only_Exceptions.
  - exact unreachable_outside_try_succeeds.
  - exists 0, 2000%Z. intros n _. reflexivity.
  - intros n v H. simpl in H. injection H as <-. lia.
Defined.

(** C10 as stated fails: [setup_directories] runs before the [try], and what
    it raises reaches the caller. *)
Lemma scaffold_failure_reaches_the_caller :
  fst (run_clone demo_py readonly_disk "https://x" "cloned_x" 10)
  = Raise PermissionError /\
  is_Exception PermissionError = true.
Proof. split; reflexivity. Qed.

(** ** The call of [browser.close()] *)

(** When the navigation raises, the browser that was launched is not closed
    by [browser.close()]: the handler prints and the [try] statement ends;
    the Playwright context is left, and that is what ends the session. *)
Lemma failed_navigation_skips_browser_close py w u out fuel e :
  In (IUnit (Goto u "networkidle" 60000) (Some e))
     (trace (snd (run_clone py w u out fuel))) ->
  is_Exception e = true ->
  In (IUnit (Launch false) None) (trace (snd (run_clone py w u out fuel))) /\
  (forall r, ~ In (IUnit BrowserClose r) (trace (snd (run_clone py w u out fuel)))) /\
  (exists x, In (IUnit PlaywrightStop x) (trace (snd (run_clone py w u out fuel)))).
Proof.
  intros Hin Hexc. unfold run_clone in *.
  destruct (clone py w (fst (init py u out)) fuel (snd (init py u out)))
    as [r final] eqn:Hrun.
  simpl in Hin |- *.
  destruct (clone_navigation_failure py w (fst (init py u out)) fuel
              (snd (init py u out)) r final e eq_refl Hrun Hin Hexc)
    as (x & T & _).
  rewrite T. unfold aborted_run. repeat split.
  - apply in_or_app. right. simpl. auto.
  - intros r0 H. apply in_app_or in H. destruct H as [H|H].
    + apply In_scaffold_calls in H. discriminate.
    + simpl in H. intuition discriminate.
  - exists x. apply in_or_app. right. simpl. auto 10.
Qed.

(** C4 as worded fails: on the run whose navigation raises, the browser is
    launched and [browser.close()] is never called; the run returns. *)
Lemma failed_navigation_makes_no_close_call :
  In (IUnit (Launch false) None)
     (trace (snd (run_clone demo_py unreachable "https://x" "cloned_x" 10))) /\
  (forall r, ~ In (IUnit BrowserClose r)
                  (trace (snd (run_clone demo_py unreachable "https://x" "cloned_x" 10)))) /\
  (exists x, In (IUnit PlaywrightStop x)
                (trace (snd (run_clone demo_py unreachable "https://x" "cloned_x" 10)))).
Proof.
  apply (failed_navigation_skips_browser_close demo_py unreachable "https://x" "cloned_x" 10
           TimeoutError).
  - vm_compute. repeat (first [left; reflexivity | right]).
  - reflexivity.
Qed.

(** On the path without errors the browser is closed, after the manifest. *)
Example calm_run_closes_browser :
  before (trace (snd (run_clone demo_py calm "https://x" "cloned_x" 10)))
    (IFile ManifestFile "cloned_x/metadata.json"
       (Json (metadata_of demo_cloner
                (assets (snd (run_clone demo_py calm "https://x" "cloned_x" 10)))))
       FileOk)
    (IUnit BrowserClose None).
Proof.
  exists (firstn 42 (trace (snd (run_clone demo_py calm "https://x" "cloned_x" 10)))).
  exists [].
  exists [IUnit PlaywrightStop None].
  vm_compute. reflexivity.
Qed.

(** ** C3: one download *)

Section DownloadFile.

Variable w : World.

(** C3 fails for a status other than 200.  [download_file] then falls off
    the end of its [try]: it returns [None] (not [False]), prints nothing and
    writes nothing - the only call it made is the request. *)
Theorem download_file_other_status_is_silent u p s status body :
  w_get w (length (trace s)) u = HttpStatus status body ->
  status <> 200%Z ->
  download_file w u p s
  = (Ok None,
     mkState (assets s) (trace s ++ [IGet u (HttpStatus status body)]) (console s)).
Proof.
  intros E Hs. unfold download_file, try_except, bind, http_get. rewrite E. simpl.
  destruct (Z.eqb_spec status 200) as [->|_]; [contradiction|reflexivity].
Qed.

(** The sibling path: a request that raises is reported with its URL, and
    [False] is returned. *)
Lemma download_file_exception_is_reported u p s e :
  w_get w (length (trace s)) u = HttpRaise e ->
  is_Exception e = true ->
  download_file w u p s
  = (Ok (Some false),
     mkState (assets s) (trace s ++ [IGet u (HttpRaise e)])
       (console s ++ [Line ("⚠️  Error downloading " ++ u ++ ": " ++ exn_str e)%string])).
Proof.
  intros E He. unfold download_file, try_except, bind, http_get. rewrite E. simpl.
  rewrite He. reflexivity.
Qed.

(** Status 200, a body that can be read and a file that can be written:
    [True], and the bytes are stored at [p]. *)
Lemma download_file_stores_200 u p s b :
  w_get w (length (trace s)) u = HttpStatus 200 (inr b) ->
  w_file w (S (length (trace s))) p = FileOk ->
  download_file w u p s
  = (Ok (Some true),
     mkState (assets s)
       (trace s ++ [IGet u (HttpStatus 200 (inr b)); IFile AssetFile p (Raw b) FileOk])
       (console s)).
Proof.
  intros E F. unfold download_file, try_except, bind, http_get. rewrite E. simpl.
  unfold write_file. simpl. rewrite length_app. simpl. rewrite Nat.add_1_r, F. simpl.
  unfold record. simpl. rewrite <- app_assoc. reflexivity.
Qed.

(** [download_file] returns [True] only when it has stored the bytes of a
    200 response at [p]. *)
Lemma download_file_True u p s s' :
  download_file w u p s = (Ok (Some true), s') ->
  exists b,
    trace s' = trace s ++ [IGet u (HttpStatus 200 (inr b)); IFile AssetFile p (Raw b) FileOk] /\
    assets s' = assets s /\ console s' = console s.
Proof.
  unfold download_file, try_except, bind, http_get.
  destruct (w_get w (length (trace s)) u) as [e|status [e|b]]; simpl.
  - destruct (is_Exception e); intros H; inversion H.
  - destruct (status =? 200)%Z; simpl.
    + destruct (is_Exception e); intros H; inversion H.
    + intros H; inversion H.
  - destruct (Z.eqb_spec status 200) as [->|_]; simpl; [|intros H; inversion H].
    unfold write_file. simpl.
    match goal with
    | |- context [w_file w ?n p] => destruct (w_file w n p) as [|e|e]; simpl
    end.
    + intros H. injection H as <-. exists b. simpl. rewrite <- app_assoc. auto.
    + destruct (is_Exception e); intros H; inversion H.
    + destruct (is_Exception e); intros H; inversion H.
Qed.

End DownloadFile.

Lemma download_file_other_status_is_silent_witness :
  download_file calm "https://x/missing" "cloned_x/images/image_1.jpg" start
  = (Ok None,
     mkState (assets start)
       (trace start ++ [IGet "https://x/missing" (HttpStatus 404 (inr "not found"))])
       (console start)).
Proof.
  apply (download_file_other_status_is_silent calm
           "https://x/missing" "cloned_x/images/image_1.jpg" start 404 (inr "not found")).
  - reflexivity.
  - lia.
Defined.

(** ** C7: the registry after discovery *)

Section Discovery.

Variable py : PyLib.
Variable w : World.
Variable self : Cloner.

Lemma state_eta s : mkState (assets s) (trace s) (console s) = s.
Proof. destruct s; reflexivity. Qed.

Lemma set_get_same k r : set k (get k r) r = r.
Proof. destruct k, r; reflexivity. Qed.

Lemma for_each_fonts l s :
  for_each l (fun font_url =>
    if prefix "http" font_url then append fonts font_url
    else append fonts (urljoin py (url self) font_url)) s
  = (Ok tt,
     mkState (set fonts (get fonts (assets s) ++ map (resolve_font py self) l) (assets s))
       (trace s) (console s)).
Proof.
  revert s. induction l as [|x l IH]; intros s; simpl.
  - destruct s as [[] ? ?]. simpl. rewrite app_nil_r. reflexivity.
  - unfold bind at 1.
    assert (E : (if prefix "http" x then append fonts x
                 else append fonts (urljoin py (url self) x)) s
                = (Ok tt, mkState (set fonts (get fonts (assets s) ++ [resolve_font py self x])
                                     (assets s)) (trace s) (console s))).
    { unfold resolve_font. destruct (prefix "http" x); reflexivity. }
    rewrite E, IH. simpl. destruct (assets s); simpl. rewrite <- app_assoc. reflexivity.
Qed.

(** What a discovery that completed did. *)
Lemma extract_assets_from_page_Ok s s' :
  extract_assets_from_page py w self s = (Ok tt, s') ->
  exists c j i v f,
    trace s' = trace s ++ discovery_calls c j i v f /\
    assets s' = dedup py (collect py self (assets s) c j i v f).
Proof.
  unfold extract_assets_from_page. intros H.
  invert_bind H as s0 R0 K0; try discriminate.
  apply print_run in R0. destruct R0 as (_ & A0 & T0 & _).
  invert_bind K0 as s1 R1 K1; try discriminate.
  apply evaluate_urls_run in R1.
  destruct R1 as (A1 & _ & [(c & E & T1)|(e & E & _)]); [|discriminate].
  injection E as <-.
  invert_bind K1 as s2 R2 K2; try discriminate.
  unfold extend, bind, get_assets, set_assets in R2. injection R2 as <-.
  invert_bind K2 as s3 R3 K3; try discriminate.
  apply evaluate_urls_run in R3. simpl in R3.
  destruct R3 as (A3 & _ & [(j & E & T3)|(e & E & _)]); [|discriminate].
  injection E as <-.
  invert_bind K3 as s4 R4 K4; try discriminate.
  unfold extend, bind, get_assets, set_assets in R4. injection R4 as <-.
  invert_bind K4 as s5 R5 K5; try discriminate.
  apply evaluate_urls_run in R5. simpl in R5.
  destruct R5 as (A5 & _ & [(i & E & T5)|(e & E & _)]); [|discriminate].
  injection E as <-.
  invert_bind K5 as s6 R6 K6; try discriminate.
  unfold extend, bind, get_assets, set_assets in R6. injection R6 as <-.
  invert_bind K6 as s7 R7 K7; try discriminate.
  apply evaluate_urls_run in R7. simpl in R7.
  destruct R7 as (A7 & _ & [(v & E & T7)|(e & E & _)]); [|discriminate].
  injection E as <-.
  invert_bind K7 as s8 R8 K8; try discriminate.
  unfold extend, bind, get_assets, set_assets in R8. injection R8 as <-.
  invert_bind K8 as s9 R9 K9; try discriminate.
  apply evaluate_urls_run in R9. simpl in R9.
  destruct R9 as (A9 & _ & [(f & E & T9)|(e & E & _)]); [|discriminate].
  injection E as <-.
  invert_bind K9 as s10 R10 K10; try discriminate.
  rewrite for_each_fonts in R10. injection R10 as <-.
  invert_bind K10 as s11 R11 K11; try discriminate.
  simpl in R11. unfold bind, get_assets, set_assets, ret in R11. simpl in R11.
  injection R11 as <-.
  unfold found_line, bind, get_assets, print in K11. simpl in K11.
  injection K11 as <-.
  exists a, a0, a1, a2, a3. simpl. split.
  - rewrite T9, T7, T5, T3, T1, T0. unfold discovery_calls.
    rewrite <- !app_assoc. reflexivity.
  - rewrite A9. simpl. rewrite A7. simpl. rewrite A5. simpl. rewrite A3. simpl.
    rewrite A1, A0. unfold dedup, collect. destruct (assets s); reflexivity.
Qed.

Lemma list_set_length l : length (list_set py l) <= length l.
Proof.
  apply NoDup_incl_length; [apply list_set_NoDup|].
  intros x. apply list_set_In.
Qed.

Lemma list_set_length_eq l : length (list_set py l) = length l <-> NoDup l.
Proof.
  split.
  - intros E. eapply NoDup_incl_NoDup.
    + apply (list_set_NoDup py l).
    + lia.
    + intros x. apply list_set_In.
  - intros N. apply Nat.le_antisymm; [apply list_set_length|].
    apply NoDup_incl_length; [exact N|]. intros x. apply list_set_In.
Qed.

Lemma get_dedup k r : get k (dedup py r) = list_set py (get k r).
Proof. destruct k; reflexivity. Qed.

(** C7.  When discovery has completed, every category of the registry is the
    de-duplicated list of what was collected for it ([raw]: the snippet's
    answer appended to what the registry held, font URLs resolved): it has
    no duplicate, the same URLs as [raw], at most as many entries as [raw],
    and exactly as many if and only if [raw] has no repeats. *)
Theorem registry_is_deduplicated s s' :
  extract_assets_from_page py w self s = (Ok tt, s') ->
  exists c j i v f,
    trace s' = trace s ++ discovery_calls c j i v f /\
    forall k,
      NoDup (get k (assets s')) /\
      (forall x, In x (get k (assets s'))
                 <-> In x (get k (collect py self (assets s) c j i v f))) /\
      length (get k (assets s'))
      <= length (get k (collect py self (assets s) c j i v f)) /\
      (length (get k (assets s'))
       = length (get k (collect py self (assets s) c j i v f))
       <-> NoDup (get k (collect py self (assets s) c j i v f))).
Proof.
  intros H. apply extract_assets_from_page_Ok in H.
  destruct H as (c & j & i & v & f & T & A).
  exists c, j, i, v, f. split; [exact T|].
  intros k. rewrite A, get_dedup. repeat split.
  - apply list_set_NoDup.
  - apply list_set_In.
  - apply list_set_In.
  - apply list_set_length.
  - apply list_set_length_eq.
  - apply list_set_length_eq.
Qed.

End Discovery.

Lemma registry_is_deduplicated_witness :
  exists c j i v f,
    trace (snd (extract_assets_from_page demo_py calm demo_cloner start))
    = trace start ++ discovery_calls c j i v f /\
    forall k,
      NoDup (get k (assets (snd (extract_assets_from_page demo_py calm demo_cloner start)))) /\
      (forall x,
         In x (get k (assets (snd (extract_assets_from_page demo_py calm demo_cloner start))))
         <-> In x (get k (collect demo_py demo_cloner (assets start) c j i v f))) /\
      length (get k (assets (snd (extract_assets_from_page demo_py calm demo_cloner start))))
      <= length (get k (collect demo_py demo_cloner (assets start) c j i v f)) /\
      (length (get k (assets (snd (extract_assets_from_page demo_py calm demo_cloner start))))
       = length (get k (collect demo_py demo_cloner (assets start) c j i v f))
       <-> NoDup (get k (collect demo_py demo_cloner (assets start) c j i v f))).
Proof.
  apply (registry_is_deduplicated demo_py calm demo_cloner start
           (snd (extract_assets_from_page demo_py calm demo_cloner start))).
  vm_compute. reflexivity.
Defined.

(** The repeated stylesheet of the specification's scenario is kept once. *)
Example repeated_stylesheet_collapses :
  get css (assets (snd (extract_assets_from_page demo_py calm demo_cloner start)))
  = ["https://x/a.css"].
Proof. reflexivity. Qed.

(** ** Stages that leave the registry alone *)

Lemma keeps_quiet {A} (m : M A) :
  (forall s, assets (snd (m s)) = assets s) -> keeps m.
Proof. intros H s. apply H. Qed.

Lemma keeps_bind {A B} (m : M A) (f : A -> M B) :
  keeps m -> (forall a, keeps (f a)) -> keeps (bind m f).
Proof.
  intros Hm Hf s. unfold same_assets, bind. specialize (Hm s). unfold same_assets in Hm.
  destruct (m s) as [[a|e|] s1]; simpl in *; try exact Hm.
  rewrite <- Hm. apply Hf.
Qed.

Lemma keeps_try_except {A} (m : M A) (h : exn -> M A) :
  keeps m -> (forall e, keeps (h e)) -> keeps (try_except m h).
Proof.
  intros Hm Hh s. unfold same_assets, try_except. specialize (Hm s).
  unfold same_assets in Hm.
  destruct (m s) as [[a|e|] s1]; simpl in *; try exact Hm.
  destruct (is_Exception e); [|exact Hm].
  rewrite <- Hm. apply Hh.
Qed.

Lemma keeps_try_bare {A} (m : M A) (h : M A) :
  keeps m -> keeps h -> keeps (try_bare m h).
Proof.
  intros Hm Hh s. unfold same_assets, try_bare. specialize (Hm s).
  unfold same_assets in Hm.
  destruct (m s) as [[a|e|] s1]; simpl in *; try exact Hm.
  rewrite <- Hm. apply Hh.
Qed.

Lemma keeps_for_each {A} (l : list A) (body : A -> M unit) :
  (forall x, keeps (body x)) -> keeps (for_each l body).
Proof.
  intros H. induction l as [|x l IH]; simpl.
  - intros s. reflexivity.
  - apply keeps_bind; auto.
Qed.

Lemma keeps_for_enumerate_from i (l : list string) (body : nat -> string -> M unit) :
  (forall j x, keeps (body j x)) -> keeps (for_enumerate_from i l body).
Proof.
  intros H. revert i. induction l as [|x l IH]; intros i; simpl.
  - intros s. reflexivity.
  - apply keeps_bind; auto.
Qed.

Lemma keeps_run {A} (m : M A) s r s' : keeps m -> m s = (r, s') -> assets s' = assets s.
Proof. intros H E. specialize (H s). rewrite E in H. exact H. Qed.

Section Keeps.

Variable py : PyLib.
Variable w : World.
Variable self : Cloner.

Lemma keeps_call o : keeps (call w o).
Proof. intros s. unfold call. destruct (w_unit w _ o); reflexivity. Qed.

Lemma keeps_evaluate_num q : keeps (evaluate_num w q).
Proof. intros s. unfold evaluate_num. destruct (w_num w _ q); reflexivity. Qed.

Lemma keeps_page_content : keeps (page_content w).
Proof. intros s. unfold page_content. destruct (w_content w _); reflexivity. Qed.

Lemma keeps_http_get u : keeps (http_get w u).
Proof. intros s. unfold http_get. destruct (w_get w _ u); reflexivity. Qed.

Lemma keeps_write_file k p c : keeps (write_file w k p c).
Proof. intros s. unfold write_file. destruct (w_file w _ p); reflexivity. Qed.

Lemma keeps_read body : keeps (read body).
Proof. intros s. destruct body; reflexivity. Qed.

End Keeps.

Create HintDb keeps_db.

#[local] Hint Resolve keeps_call keeps_evaluate_num keeps_page_content keeps_http_get
  keeps_write_file keeps_read : keeps_db.

Ltac keeps_go :=
  lazymatch goal with
  | |- keeps (bind _ _) => apply keeps_bind; [keeps_go|intros; keeps_go]
  | |- keeps (if ?b then _ else _) => destruct b; keeps_go
  | |- keeps (try_bare _ _) => apply keeps_try_bare; keeps_go
  | |- keeps (try_except _ _) => apply keeps_try_except; [keeps_go|intros; keeps_go]
  | |- keeps (for_each _ _) => apply keeps_for_each; intros; keeps_go
  | |- keeps (for_enumerate_from _ _ _) =>
      apply keeps_for_enumerate_from; intros; keeps_go
  | |- keeps _ =>
      first [ solve [intros ?; reflexivity] | solve [eauto 3 with keeps_db] ]
  end.

Section KeepsStages.

Variable py : PyLib.
Variable w : World.
Variable self : Cloner.

Lemma keeps_setup_directories : keeps (setup_directories w self).
Proof. unfold setup_directories. keeps_go. Qed.

Lemma keeps_close_cookie_popup l : keeps (close_cookie_popup w l).
Proof.
  induction l as [|sel l IH]; simpl; [intros ?; reflexivity|].
  apply keeps_bind; [keeps_go|]. intros [|]; [intros ?; reflexivity|exact IH].
Qed.

#[local] Hint Resolve keeps_close_cookie_popup : keeps_db.

Lemma keeps_open_page : keeps (open_page w self).
Proof. unfold open_page, launch_browser, settle. keeps_go. Qed.

Lemma keeps_download_assets : keeps (download_assets py w self).
Proof. unfold download_assets, for_enumerate, download_file. keeps_go. Qed.

Lemma keeps_save_html : keeps (save_html w self).
Proof. unfold save_html. keeps_go. Qed.

Lemma keeps_scroll_loop fuel pos total step_ : keeps (scroll_loop w fuel pos total step_).
Proof.
  revert pos total. induction fuel as [|fuel IH]; intros pos total; simpl.
  - intros ?; reflexivity.
  - destruct (pos <? total)%Z; [|intros ?; reflexivity].
    apply keeps_bind; [keeps_go|intros _].
    apply keeps_bind; [keeps_go|intros _].
    apply keeps_bind; [keeps_go|intros h]. apply IH.
Qed.

#[local] Hint Resolve keeps_scroll_loop : keeps_db.

Lemma keeps_take_screenshots fuel : keeps (take_screenshots w self fuel).
Proof.
  unfold take_screenshots, scroll_page_fully, wait_for_images_and_fonts. keeps_go.
Qed.

Lemma keeps_save_metadata : keeps (save_metadata w self).
Proof. unfold save_metadata. keeps_go. Qed.

End KeepsStages.

(** ** C2: an error during discovery *)

#[local] Hint Resolve emits_download_file emits_scroll_loop emits_scroll_page_fully
  emits_wait_for_images_and_fonts emits_dismiss emits_launch_browser emits_settle
  emits_extract_assets_from_page emits_download_assets emits_save_html
  emits_take_screenshots emits_save_metadata emits_open_page
  emits_setup_directories : emits_db.

Section DiscoveryError.

Variable py : PyLib.
Variable w : World.
Variable self : Cloner.

(** A discovery that raised stopped at the snippet that raised: the snippets
    before it had answered, and the category of the failing one is as it was. *)
Lemma extract_assets_from_page_Raise s e s' :
  extract_assets_from_page py w self s = (Raise e, s') ->
  exists q answered,
    trace s' = trace s ++ answered ++ [IUrls q (inl e)] /\
    (forall z, In z answered -> exists q' l, z = IUrls q' (inr l)) /\
    get (key_of q) (assets s') = get (key_of q) (assets s).
Proof.
  unfold extract_assets_from_page. intros H.
  invert_bind H as s0 R0 K0; try (apply print_run in R0; destruct R0; discriminate).
  apply print_run in R0. destruct R0 as (_ & A0 & T0 & _).
  invert_bind K0 as s1 R1 K1; try discriminate.
  2: { apply evaluate_urls_run in R1.
       destruct R1 as (A1 & _ & [(c & E & _)|(e' & E & T1)]); [discriminate|].
       injection K1 as ->. injection E as <-.
       exists QCss, []. splits.
       - now rewrite T1, T0.
       - intros z [].
       - simpl. congruence. }
  apply evaluate_urls_run in R1.
  destruct R1 as (A1 & _ & [(c & E & T1)|(e' & E & _)]); [|discriminate].
  injection E as <-.
  invert_bind K1 as s2 R2 K2; try discriminate.
  unfold extend, bind, get_assets, set_assets in R2. injection R2 as <-.
  invert_bind K2 as s3 R3 K3; try discriminate.
  2: { apply evaluate_urls_run in R3. simpl in R3.
       destruct R3 as (A3 & _ & [(j & E & _)|(e' & E & T3)]); [discriminate|].
       injection K3 as ->. injection E as <-.
       exists QJs, [IUrls QCss (inr a)]. splits.
       - rewrite T3, T1, T0, <- app_assoc. reflexivity.
       - intros z [<-|[]]. eauto.
       - simpl. rewrite A3. simpl. congruence. }
  apply evaluate_urls_run in R3. simpl in R3.
  destruct R3 as (A3 & _ & [(j & E & T3)|(e' & E & _)]); [|discriminate].
  injection E as <-.
  invert_bind K3 as s4 R4 K4; try discriminate.
  unfold extend, bind, get_assets, set_assets in R4. injection R4 as <-.
  invert_bind K4 as s5 R5 K5; try discriminate.
  2: { apply evaluate_urls_run in R5. simpl in R5.
       destruct R5 as (A5 & _ & [(i & E & _)|(e' & E & T5)]); [discriminate|].
       injection K5 as ->. injection E as <-.
       exists QImages, [IUrls QCss (inr a); IUrls QJs (inr a0)]. splits.
       - rewrite T5, T3, T1, T0, <- !app_assoc. reflexivity.
       - intros z [<-|[<-|[]]]; eauto.
       - simpl. rewrite A5. simpl. rewrite A3. simpl. congruence. }
  apply evaluate_urls_run in R5. simpl in R5.
  destruct R5 as (A5 & _ & [(i & E & T5)|(e' & E & _)]); [|discriminate].
  injection E as <-.
  invert_bind K5 as s6 R6 K6; try discriminate.
  unfold extend, bind, get_assets, set_assets in R6. injection R6 as <-.
  invert_bind K6 as s7 R7 K7; try discriminate.
  2: { apply evaluate_urls_run in R7. simpl in R7.
       destruct R7 as (A7 & _ & [(v & E & _)|(e' & E & T7)]); [discriminate|].
       injection K7 as ->. injection E as <-.
       exists QSvgs, [IUrls QCss (inr a); IUrls QJs (inr a0); IUrls QImages (inr a1)]. splits.
       - rewrite T7, T5, T3, T1, T0, <- !app_assoc. reflexivity.
       - intros z [<-|[<-|[<-|[]]]]; eauto.
       - simpl. rewrite A7. simpl. rewrite A5. simpl. rewrite A3. simpl. congruence. }
  apply evaluate_urls_run in R7. simpl in R7.
  destruct R7 as (A7 & _ & [(v & E & T7)|(e' & E & _)]); [|discriminate].
  injection E as <-.
  invert_bind K7 as s8 R8 K8; try discriminate.
  unfold extend, bind, get_assets, set_assets in R8. injection R8 as <-.
  invert_bind K8 as s9 R9 K9; try discriminate.
  2: { apply evaluate_urls_run in R9. simpl in R9.
       destruct R9 as (A9 & _ & [(f & E & _)|(e' & E & T9)]); [discriminate|].
       injection K9 as ->. injection E as <-.
       exists QFonts, [IUrls QCss (inr a); IUrls QJs (inr a0); IUrls QImages (inr a1);
                       IUrls QSvgs (inr a2)]. splits.
       - rewrite T9, T7, T5, T3, T1, T0, <- !app_assoc. reflexivity.
       - intros z [<-|[<-|[<-|[<-|[]]]]]; eauto.
       - simpl. rewrite A9. simpl. rewrite A7. simpl. rewrite A5. simpl.
         rewrite A3. simpl. congruence. }
  exfalso.
  invert_bind K9 as s10 R10 K10; rewrite for_each_fonts in R10; discriminate.
Qed.

Lemma extract_assets_from_page_finishes s s' :
  extract_assets_from_page py w self s <> (OutOfFuel, s').
Proof.
  intros H. unfold extract_assets_from_page in H.
  repeat match type of H with
  | (bind _ _ _ = _) =>
      let s1 := fresh "s" in
      let R := fresh "R" in
      let K := fresh "K" in
      apply bind_inv in H;
      destruct H as [(? & s1 & R & K)|[(? & R & K)|(R & K)]];
      [ clear R; rename K into H
      | discriminate
      | try discriminate;
        try (unfold evaluate_urls in R; destruct (w_urls w _ _); discriminate);
        try (rewrite for_each_fonts in R; discriminate) ]
  end.
  discriminate.
Qed.

End DiscoveryError.

(** ** C5: the manifest *)

Section Manifest.

Variable py : PyLib.
Variable w : World.
Variable self : Cloner.

Lemma save_metadata_run s r s' :
  save_metadata w self s = (r, s') ->
  assets s' = assets s /\
  exists x, trace s' = trace s
              ++ [IFile ManifestFile (output_dir self ++ "/metadata.json")%string
                    (Json (metadata_of self (assets s))) x].
Proof.
  unfold save_metadata. intros H.
  invert_bind H as s1 R1 K1; try discriminate.
  injection R1 as <- <-.
  invert_bind K1 as s2 R2 K2.
  - apply write_file_run in R2. destruct R2 as (A2 & _ & x & T2 & _).
    apply print_run in K2. destruct K2 as (_ & A3 & T3 & _).
    split; [congruence|]. exists x. now rewrite T3, T2.
  - apply write_file_run in R2. destruct R2 as (A2 & _ & x & T2 & _). eauto.
  - apply write_file_run in R2. destruct R2 as (A2 & _ & x & T2 & _). eauto.
Qed.

(** If [capture] called for the manifest, discovery had completed, the
    registry has not changed since, and the manifest is the summary of the
    registry. *)
Lemma capture_manifest fuel s r s' evs p m x :
  capture py w self fuel s = (r, s') ->
  trace s' = trace s ++ evs ->
  In (IFile ManifestFile p (Json m) x) evs ->
  exists c j i v f rest,
    evs = discovery_calls c j i v f ++ rest /\
    assets s' = dedup py (collect py self (assets s) c j i v f) /\
    m = metadata_of self (assets s').
Proof.
  intros H T Hin. unfold capture in H.
  assert (no : forall lo hi l, staged lo hi l -> hi < 16 ->
               ~ In (IFile ManifestFile p (Json m) x) l).
  { intros lo hi l S Hhi. apply (staged_no_stage lo hi); [exact S|simpl; lia]. }
  (* discovery *)
  invert_bind H as s1 R1 K1;
    try (exfalso;
         destruct (emits_run _ _ _ _ _ _ (emits_extract_assets_from_page py w self) R1)
           as (e1 & T1 & S1);
         rewrite T1 in T; apply app_inv_head in T; subst evs;
         revert Hin; apply (no 8 8); [exact S1|lia]).
  apply extract_assets_from_page_Ok in R1.
  destruct R1 as (c & j & i & v & f & T1 & A1).
  (* downloads *)
  pose proof (emits_download_assets py w self) as E2.
  invert_bind K1 as s2 R2 K2;
    destruct (emits_run _ _ _ _ _ _ E2 R2) as (e2 & T2 & S2);
    try (exfalso; rewrite T2, T1, <- app_assoc in T; apply app_inv_head in T; subst evs;
         apply in_app_or in Hin; destruct Hin as [Hin|Hin];
         [simpl in Hin; intuition discriminate|revert Hin; apply (no 9 9); [exact S2|lia]]).
  apply (keeps_run _ _ _ _ (keeps_download_assets py w self)) in R2.
  (* HTML snapshot *)
  pose proof (emits_save_html w self) as E3.
  invert_bind K2 as s3 R3 K3;
    destruct (emits_run _ _ _ _ _ _ E3 R3) as (e3 & T3 & S3);
    try (exfalso; rewrite T3, T2, T1, <- !app_assoc in T; apply app_inv_head in T; subst evs;
         apply in_app_or in Hin; destruct Hin as [Hin|Hin];
         [simpl in Hin; intuition discriminate|];
         apply in_app_or in Hin; destruct Hin as [Hin|Hin];
         [revert Hin; apply (no 9 9); [exact S2|lia]
         |revert Hin; apply (no 10 11); [exact S3|lia]]).
  apply (keeps_run _ _ _ _ (keeps_save_html w self)) in R3.
  (* screenshots *)
  pose proof (emits_take_screenshots w self fuel) as E4.
  invert_bind K3 as s4 R4 K4;
    destruct (emits_run _ _ _ _ _ _ E4 R4) as (e4 & T4 & S4);
    try (exfalso; rewrite T4, T3, T2, T1, <- !app_assoc in T;
         apply app_inv_head in T; subst evs;
         apply in_app_or in Hin; destruct Hin as [Hin|Hin];
         [simpl in Hin; intuition discriminate|];
         apply in_app_or in Hin; destruct Hin as [Hin|Hin];
         [revert Hin; apply (no 9 9); [exact S2|lia]|];
         apply in_app_or in Hin; destruct Hin as [Hin|Hin];
         [revert Hin; apply (no 10 11); [exact S3|lia]
         |revert Hin; apply (no 12 15); [exact S4|lia]]).
  apply (keeps_run _ _ _ _ (keeps_take_screenshots w self fuel)) in R4.
  (* the manifest, and what follows it *)
  assert (A4 : assets s4 = dedup py (collect py self (assets s) c j i v f)) by congruence.
  assert (tail : exists y after,
            trace s' = trace s4
              ++ IFile ManifestFile (output_dir self ++ "/metadata.json")%string
                   (Json (metadata_of self (assets s4))) y :: after /\
            (forall z, In z after -> stage z = 17) /\
            assets s' = assets s4).
  { invert_bind K4 as s5 R5 K5.
    - apply save_metadata_run in R5. destruct R5 as (A5 & y & T5).
      invert_bind K5 as s6 R6 K6; try (apply print_run in R6; destruct R6; discriminate).
      apply print_run in R6. destruct R6 as (_ & A6 & T6 & _).
      apply call_run in K6. destruct K6 as (A7 & _ & [[_ T7]|(e & _ & T7)]).
      + exists y, [IUnit BrowserClose None]. repeat split.
        * rewrite T7, T6, T5, <- app_assoc. reflexivity.
        * intros z [<-|[]]. reflexivity.
        * congruence.
      + exists y, [IUnit BrowserClose (Some e)]. repeat split.
        * rewrite T7, T6, T5, <- app_assoc. reflexivity.
        * intros z [<-|[]]. reflexivity.
        * congruence.
    - apply save_metadata_run in R5. destruct R5 as (A5 & y & T5).
      exists y, []. repeat split; [exact T5|intros z []|exact A5].
    - apply save_metadata_run in R5. destruct R5 as (A5 & y & T5).
      exists y, []. repeat split; [exact T5|intros z []|exact A5]. }
  destruct tail as (y & after & T5 & Hafter & A5).
  rewrite T5, T4, T3, T2, T1, <- !app_assoc in T. apply app_inv_head in T. subst evs.
  exists c, j, i, v, f. eexists. split; [reflexivity|].
  split; [congruence|].
  apply in_app_or in Hin. destruct Hin as [Hin|Hin];
    [simpl in Hin; intuition discriminate|].
  apply in_app_or in Hin. destruct Hin as [Hin|Hin];
    [exfalso; revert Hin; apply (no 9 9); [exact S2|lia]|].
  apply in_app_or in Hin. destruct Hin as [Hin|Hin];
    [exfalso; revert Hin; apply (no 10 11); [exact S3|lia]|].
  apply in_app_or in Hin. destruct Hin as [Hin|Hin];
    [exfalso; revert Hin; apply (no 12 15); [exact S4|lia]|].
  destruct Hin as [Hin|Hin].
  - injection Hin as _ <- _. now rewrite A5.
  - apply Hafter in Hin. discriminate.
Qed.

End Manifest.

(** ** A run of [clone], split at its [try] statement *)

Section CloneRun.

Variable py : PyLib.
Variable w : World.
Variable self : Cloner.

Lemma report_run e s r s' :
  report e s = (r, s') ->
  r = Ok tt /\ trace s' = trace s /\ assets s' = assets s /\
  console s' = console s
               ++ [Line ("❌ Error during cloning: " ++ exn_str e)%string; Traceback e].
Proof.
  unfold report, bind, print, print_exc. simpl. intros H. injection H as <- <-.
  simpl. rewrite <- app_assoc. auto.
Qed.

(** Either the run stopped before the [try] statement, or the body of the
    [try] ran from a state [sa] to a state [sb], after which only the exit
    from the Playwright context was called; an [Exception] raised by the
    body was reported. *)
Lemma clone_run fuel s r final :
  clone py w self fuel s = (r, final) ->
  (exists pre, trace final = trace s ++ pre /\ staged 0 1 pre) \/
  (exists pre sa rb sb post,
     trace sa = trace s ++ pre /\ staged 0 1 pre /\ assets sa = assets s /\
     (open_page w self ;; capture py w self fuel) sa = (rb, sb) /\
     trace final = trace sb ++ post /\ (forall z, In z post -> stage z = 18) /\
     assets final = assets sb /\
     (forall e, rb = Raise e -> is_Exception e = true ->
        console final
        = console sb ++ [Line ("❌ Error during cloning: " ++ exn_str e)%string; Traceback e]
        /\ exists x, post = [IUnit PlaywrightStop x])).
Proof.
  unfold clone. intros H.
  invert_bind H as s1 R1 K1; try (apply print_run in R1; destruct R1; discriminate).
  apply print_run in R1. destruct R1 as (_ & A1 & T1 & _).
  pose proof (emits_setup_directories w self) as E2.
  invert_bind K1 as s2 R2 K2;
    destruct (emits_run _ _ _ _ _ _ E2 R2) as (e2 & T2 & S2);
    try (left; exists e2; split; [now rewrite T2, T1|];
         eapply staged_weaken; [| |exact S2]; lia).
  apply (keeps_run _ _ _ _ (keeps_setup_directories w self)) in R2.
  invert_bind K2 as s3 R3 K3.
  2: { left. apply call_run in R3. destruct R3 as (_ & _ & [[E _]|(e' & _ & T3)]);
         [discriminate|].
       exists (e2 ++ [IUnit PlaywrightStart (Some e')]). split.
       - now rewrite T3, T2, T1, app_assoc.
       - apply (staged_app 0 0 1); [lia|lia|exact S2|].
         apply staged_weaken with 1 1; [lia|lia|]. apply staged_one. simpl. lia. }
  2: { apply call_run in R3. destruct R3 as (_ & _ & [[E _]|(e' & E & _)]); discriminate. }
  apply call_run in R3. destruct R3 as (A3 & _ & [[_ T3]|(e' & E & _)]); [|discriminate].
  right. exists (e2 ++ [IUnit PlaywrightStart None]), s3.
  assert (pre_ok : trace s3 = trace s ++ e2 ++ [IUnit PlaywrightStart None] /\
                   staged 0 1 (e2 ++ [IUnit PlaywrightStart None]) /\
                   assets s3 = assets s).
  { split; [|split].
    - now rewrite T3, T2, T1, app_assoc.
    - apply (staged_app 0 0 1); [lia|lia|exact S2|].
      apply staged_weaken with 1 1; [lia|lia|]. apply staged_one. simpl. lia.
    - congruence. }
  destruct pre_ok as (Tpre & Spre & Apre).
  assert (exit_calls : forall (k : M unit) sx rx sy,
            (forall s0, exists r0, k s0 = (r0, s0)) ->
            (call w PlaywrightStop ;; k) sx = (rx, sy) ->
            exists x, trace sy = trace sx ++ [IUnit PlaywrightStop x] /\
                      assets sy = assets sx /\ console sy = console sx).
  { intros k sx rx sy Hk Hx. apply exit_run in Hx; [|exact Hk].
    destruct Hx as (x & TX & CX & AX & _). eauto. }
  apply with_exit_inv in K3.
  destruct K3 as [(a & s4 & B & X)|[(e' & s4 & B & X)|(B & X)]].
  - apply exit_calls in X; [|intros; eexists; reflexivity].
    destruct X as (x & TX & AX & CX).
    apply try_except_inv in B.
    destruct B as [(a' & B & _)|[(e' & s5 & B & He' & H)|[(e' & B & ? & ?)|(B & ?)]]];
      try discriminate.
    + exists (Ok a'), s4, [IUnit PlaywrightStop x]. splits; auto.
      * intros z [<-|[]]. reflexivity.
      * discriminate.
    + apply report_run in H. destruct H as (_ & TR & AR & CR).
      exists (Raise e'), s5, [IUnit PlaywrightStop x]. splits; auto.
      * now rewrite TX, TR.
      * intros z [<-|[]]. reflexivity.
      * congruence.
      * intros e0 E0 _. injection E0 as <-. split; [now rewrite CX, CR|eauto].
  - apply exit_calls in X; [|intros; eexists; reflexivity].
    destruct X as (x & TX & AX & CX).
    apply try_except_inv in B.
    destruct B as [(a' & B & ?)|[(e2' & s5 & B & He' & H)|[(e2' & B & He' & E)|(B & ?)]]];
      try discriminate.
    + exists (Raise e2'), s4, [IUnit PlaywrightStop x]. splits; auto.
      * intros z [<-|[]]. reflexivity.
      * intros e0 E0 He0. injection E0 as <-. congruence.
  - apply try_except_inv in B.
    destruct B as [(a' & B & ?)|[(e2' & s5 & B & He' & H)|[(e2' & B & He' & E)|(B & _)]]];
      try discriminate.
    + exists OutOfFuel, final, []. splits; auto.
      * now rewrite app_nil_r.
      * intros z [].
      * discriminate.
Qed.

End CloneRun.

Lemma count_of_metadata_of self r k :
  count_of k (metadata_of self r) = length (get k r).
Proof. destruct k; reflexivity. Qed.

Lemma dedup_NoDup py r k : NoDup (get k (dedup py r)).
Proof. rewrite get_dedup. apply list_set_NoDup. Qed.

(** C5.  Whenever a run reaches the writing of the manifest, the manifest's
    URL lists are the registry itself, which is the de-duplicated result of
    discovery (the answers of the five snippets, in the run's trace); each
    list has no duplicate and each count is the length of its list.  The
    answers to the downloads play no part: the statement holds for every
    world. *)
Theorem manifest_reports_deduplicated_registry py w u out fuel p m x :
  In (IFile ManifestFile p (Json m) x) (trace (snd (run_clone py w u out fuel))) ->
  asset_urls m = assets (snd (run_clone py w u out fuel)) /\
  (exists c j i v f pre rest,
     trace (snd (run_clone py w u out fuel)) = pre ++ discovery_calls c j i v f ++ rest /\
     asset_urls m
     = dedup py (collect py (fst (init py u out)) empty_registry c j i v f)) /\
  (forall k,
     NoDup (get k (asset_urls m)) /\
     count_of k m = length (get k (asset_urls m))).
Proof.
  unfold run_clone. intros Hin.
  destruct (clone py w (fst (init py u out)) fuel (snd (init py u out)))
    as [r final] eqn:Hrun.
  simpl in Hin |- *.
  assert (stage_m : stage (IFile ManifestFile p (Json m) x) = 16) by reflexivity.
  apply clone_run in Hrun.
  destruct Hrun as [(pre & T & S)|(pre & sa & rb & sb & post & Ta & S & Aa & B & T & P & A & _)].
  { exfalso. rewrite T in Hin. simpl in Hin.
    apply (staged_In _ _ _ _ S) in Hin. lia. }
  simpl in Ta, Aa.
  invert_bind B as s4 R4 K4.
  - (* the page was opened and [capture] ran *)
    destruct (emits_run _ _ _ _ _ _ (emits_open_page w (fst (init py u out))) R4)
      as (e1 & T1 & S1).
    apply (keeps_run _ _ _ _ (keeps_open_page w (fst (init py u out)))) in R4.
    destruct (emits_run _ _ _ _ _ _ (emits_capture py w (fst (init py u out)) fuel) K4)
      as (e2 & T2 & S2).
    assert (Hin2 : In (IFile ManifestFile p (Json m) x) e2).
    { rewrite T, T2, T1, Ta in Hin.
      repeat (apply in_app_or in Hin; destruct Hin as [Hin|Hin]).
      - apply (staged_In _ _ _ _ S) in Hin. lia.
      - apply (staged_In _ _ _ _ S1) in Hin. lia.
      - exact Hin.
      - apply P in Hin. lia. }
    destruct (capture_manifest py w (fst (init py u out)) fuel s4 rb sb e2 p m x K4 T2 Hin2)
      as (c & j & i & v & f & rest & E2 & A2 & Em).
    assert (Am : asset_urls m = assets sb) by (rewrite Em; reflexivity).
    rewrite R4, Aa in A2.
    split; [congruence|]. split.
    + exists c, j, i, v, f, (pre ++ e1), (rest ++ post). split.
      * rewrite T, T2, T1, Ta, E2, <- !app_assoc. reflexivity.
      * rewrite Am. exact A2.
    + intros k. split.
      * rewrite Am, A2. apply dedup_NoDup.
      * rewrite Em. apply count_of_metadata_of.
  - exfalso. subst rb.
    destruct (emits_run _ _ _ _ _ _ (emits_open_page w (fst (init py u out))) R4)
      as (e1 & T1 & S1).
    rewrite T, T1, Ta in Hin.
    repeat (apply in_app_or in Hin; destruct Hin as [Hin|Hin]).
    + apply (staged_In _ _ _ _ S) in Hin. lia.
    + apply (staged_In _ _ _ _ S1) in Hin. lia.
    + apply P in Hin. lia.
  - exfalso. subst rb.
    destruct (emits_run _ _ _ _ _ _ (emits_open_page w (fst (init py u out))) R4)
      as (e1 & T1 & S1).
    rewrite T, T1, Ta in Hin.
    repeat (apply in_app_or in Hin; destruct Hin as [Hin|Hin]).
    + apply (staged_In _ _ _ _ S) in Hin. lia.
    + apply (staged_In _ _ _ _ S1) in Hin. lia.
    + apply P in Hin. lia.
Qed.

Lemma manifest_reports_deduplicated_registry_witness :
  asset_urls calm_manifest
  = assets (snd (run_clone demo_py calm "https://x" "cloned_x" 10)) /\
  (exists c j i v f pre rest,
     trace (snd (run_clone demo_py calm "https://x" "cloned_x" 10))
     = pre ++ discovery_calls c j i v f ++ rest /\
     asset_urls calm_manifest
     = dedup demo_py
         (collect demo_py (fst (init demo_py "https://x" "cloned_x")) empty_registry
            c j i v f)) /\
  (forall k,
     NoDup (get k (asset_urls calm_manifest)) /\
     count_of k calm_manifest = length (get k (asset_urls calm_manifest))).
Proof.
  apply (manifest_reports_deduplicated_registry demo_py calm "https://x" "cloned_x" 10
           "cloned_x/metadata.json" calm_manifest FileOk).
  vm_compute. repeat (first [left; reflexivity | right]).
Defined.

(** The scenario of the specification: the image the server answers with 404
    is counted in the manifest, and no file is stored for it. *)
Example missing_image_is_counted_not_stored :
  images_count calm_manifest = 2 /\
  stored_assets (trace (snd (run_clone demo_py calm "https://x" "cloned_x" 10)))
  = [ ("cloned_x/css/style_0.css", "bytes of https://x/a.css");
      ("cloned_x/js/script_0.js", "bytes of https://x/app.js");
      ("cloned_x/images/image_0.png", "bytes of https://x/logo.png");
      ("cloned_x/fonts/font_0.ttf", "bytes of https://x/f/font.ttf") ] /\
  fst (run_clone demo_py calm "https://x" "cloned_x" 10) = Ok tt.
Proof. splits; vm_compute; reflexivity. Qed.

(** ** C2: a run whose discovery raises *)

Lemma early_stage_effect z :
  stage z <= 8 \/ stage z = 18 ->
  touched z = None \/ exists d, z = IUnit (Mkdir d) None.
Proof.
  destruct z as [[] []| | | | |[] ? ? []]; simpl; intros H; try lia; eauto.
Qed.

Section DiscoveryErrorRun.

Variable py : PyLib.
Variable w : World.
Variable self : Cloner.

Lemma emits_try_body fuel : emits 2 17 (open_page w self ;; capture py w self fuel).
Proof.
  apply (emits_bind 2 7 17); [apply emits_open_page| |lia|lia].
  intros _. eapply emits_weaken_lo; [apply emits_capture|lia].
Qed.

(** If a discovery snippet raised [e] in the body of the [try], the body
    ended there, raising [e]. *)
Lemma try_body_discovery_error fuel sa rb sb evs q e :
  (open_page w self ;; capture py w self fuel) sa = (rb, sb) ->
  trace sb = trace sa ++ evs ->
  In (IUrls q (inl e)) evs ->
  rb = Raise e /\
  (exists pre, evs = pre ++ [IUrls q (inl e)] /\ forall z, In z pre -> stage z <= 8) /\
  get (key_of q) (assets sb) = get (key_of q) (assets sa).
Proof.
  intros H T Hin.
  pose proof (emits_open_page w self) as E4.
  invert_bind H as s4 R4 K4;
    destruct (emits_run _ _ _ _ _ _ E4 R4) as (e1 & T1 & S1);
    try (exfalso; rewrite T1 in T; apply app_inv_head in T; subst evs;
         apply (staged_In _ _ _ _ S1) in Hin; simpl in Hin; lia).
  apply (keeps_run _ _ _ _ (keeps_open_page w self)) in R4.
  unfold capture in K4.
  invert_bind K4 as s5 R5 K5.
  - (* discovery completed: no snippet raised *)
    exfalso.
    apply extract_assets_from_page_Ok in R5.
    destruct R5 as (c & j & i & v & f & T5 & _).
    assert (E6 : emits 9 17
                   (download_assets py w self ;;
                    save_html w self ;;
                    take_screenshots w self fuel ;;
                    save_metadata w self ;;
                    print (nl ++ "✅ Web cloning completed! All files saved to: "
                           ++ output_dir self ++ "/")%string ;;
                    call w BrowserClose)) by emits_go.
    destruct (emits_run _ _ _ _ _ _ E6 K5) as (e3 & T6 & S3).
    rewrite T6, T5, T1, <- !app_assoc in T. apply app_inv_head in T. subst evs.
    repeat (apply in_app_or in Hin; destruct Hin as [Hin|Hin]).
    + apply (staged_In _ _ _ _ S1) in Hin. simpl in Hin. lia.
    + simpl in Hin. intuition discriminate.
    + apply (staged_In _ _ _ _ S3) in Hin. simpl in Hin. lia.
  - (* discovery raised *)
    subst rb.
    apply extract_assets_from_page_Raise in R5.
    destruct R5 as (q' & answered & T5 & Ans & A5).
    rewrite T5, T1, <- !app_assoc in T. apply app_inv_head in T. subst evs.
    assert (E : q' = q /\ e0 = e).
    { repeat (apply in_app_or in Hin; destruct Hin as [Hin|Hin]).
      - apply (staged_In _ _ _ _ S1) in Hin. simpl in Hin. lia.
      - apply Ans in Hin. destruct Hin as (? & ? & Hin). discriminate.
      - destruct Hin as [Hin|[]]. injection Hin as -> ->. auto. }
    destruct E as (-> & ->). splits.
    + reflexivity.
    + exists (e1 ++ answered). split; [now rewrite <- app_assoc|].
      intros z Hz. apply in_app_or in Hz. destruct Hz as [Hz|Hz].
      * apply (staged_In _ _ _ _ S1) in Hz. lia.
      * apply Ans in Hz. destruct Hz as (? & ? & ->). simpl. lia.
    + congruence.
  - exfalso. revert R5. apply extract_assets_from_page_finishes.
Qed.

End DiscoveryErrorRun.

(** C2, as the code has it.  When a discovery snippet raises an [Exception],
    the error is reported - the handler of [clone] prints it, followed by the
    traceback - and the category the snippet feeds is left empty; but the run
    does not continue: the snippet that raised is its last call before the
    exit from the Playwright context, so no download, HTML snapshot,
    screenshot or manifest follows, and the run leaves directories but no
    file. *)
Theorem discovery_error_ends_the_run py w u out fuel q e :
  In (IUrls q (inl e)) (trace (snd (run_clone py w u out fuel))) ->
  is_Exception e = true ->
  (exists pre x,
     trace (snd (run_clone py w u out fuel))
     = pre ++ [IUrls q (inl e); IUnit PlaywrightStop x] /\
     forall z, In z pre -> stage z <= 8) /\
  (exists earlier,
     console (snd (run_clone py w u out fuel))
     = earlier ++ [Line ("❌ Error during cloning: " ++ exn_str e)%string; Traceback e]) /\
  get (key_of q) (assets (snd (run_clone py w u out fuel))) = [] /\
  (forall fs p,
     fs_after fs (trace (snd (run_clone py w u out fuel))) p = fs p \/
     fs_after fs (trace (snd (run_clone py w u out fuel))) p = Some Dir).
Proof.
  unfold run_clone. intros Hin Hexc.
  destruct (clone py w (fst (init py u out)) fuel (snd (init py u out)))
    as [r final] eqn:Hrun.
  simpl in Hin |- *.
  apply clone_run in Hrun.
  destruct Hrun as [(pre & T & S)|(pre & sa & rb & sb & post & Ta & S & Aa & B & T & P & A & C)].
  { exfalso. rewrite T in Hin. simpl in Hin.
    apply (staged_In _ _ _ _ S) in Hin. simpl in Hin. lia. }
  simpl in Ta, Aa.
  destruct (emits_run _ _ _ _ _ _ (emits_try_body py w (fst (init py u out)) fuel) B)
    as (evs & Tb & Sb).
  assert (Hin2 : In (IUrls q (inl e)) evs).
  { rewrite T, Tb, Ta in Hin.
    repeat (apply in_app_or in Hin; destruct Hin as [Hin|Hin]).
    - apply (staged_In _ _ _ _ S) in Hin. simpl in Hin. lia.
    - exact Hin.
    - apply P in Hin. discriminate. }
  destruct (try_body_discovery_error py w (fst (init py u out)) fuel sa rb sb evs q e
              B Tb Hin2) as (-> & (pre' & -> & Hpre) & Ab).
  destruct (C e eq_refl Hexc) as (Cf & x & ->).
  assert (Tf : trace final = (pre ++ pre') ++ [IUrls q (inl e); IUnit PlaywrightStop x]).
  { rewrite T, Tb, Ta, <- !app_assoc. reflexivity. }
  assert (Hall : forall z, In z (pre ++ pre') -> stage z <= 8).
  { intros z Hz. apply in_app_or in Hz. destruct Hz as [Hz|Hz].
    - apply (staged_In _ _ _ _ S) in Hz. lia.
    - apply Hpre. exact Hz. }
  splits.
  - exists (pre ++ pre'), x. split; [exact Tf|exact Hall].
  - exists (console sb). exact Cf.
  - rewrite A, Ab, Aa. destruct q; reflexivity.
  - intros fs p. apply fs_after_only_directories.
    intros z Hz. apply early_stage_effect. rewrite Tf in Hz.
    apply in_app_or in Hz. destruct Hz as [Hz|Hz].
    + left. apply Hall. exact Hz.
    + simpl in Hz. destruct Hz as [<-|[<-|[]]]; simpl; lia.
Qed.

Lemma discovery_error_ends_the_run_witness :
  (exists pre x,
     trace (snd (run_clone demo_py dom_error "https://x" "cloned_x" 10))
     = pre ++ [IUrls QJs (inl EvaluateError); IUnit PlaywrightStop x] /\
     forall z, In z pre -> stage z <= 8) /\
  (exists earlier,
     console (snd (run_clone demo_py dom_error "https://x" "cloned_x" 10))
     = earlier ++ [Line "❌ Error during cloning: Execution context was destroyed";
                   Traceback EvaluateError]) /\
  get js (assets (snd (run_clone demo_py dom_error "https://x" "cloned_x" 10))) = [] /\
  (forall fs p,
     fs_after fs (trace (snd (run_clone demo_py dom_error "https://x" "cloned_x" 10))) p = fs p \/
     fs_after fs (trace (snd (run_clone demo_py dom_error "https://x" "cloned_x" 10))) p
     = Some Dir).
Proof.
  apply (discovery_error_ends_the_run demo_py dom_error "https://x" "cloned_x" 10
           QJs EvaluateError).
  - vm_compute. repeat (first [left; reflexivity | right]).
  - reflexivity.
Defined.

(** C2 as stated fails: after the script snippet raises, the run writes no
    manifest (nor anything else), and the stylesheet category keeps the raw,
    repeated list collected before the error. *)
Lemma discovery_error_stops_the_pipeline :
  In (IUrls QJs (inl EvaluateError))
     (trace (snd (run_clone demo_py dom_error "https://x" "cloned_x" 10))) /\
  fs_after empty_fs (trace (snd (run_clone demo_py dom_error "https://x" "cloned_x" 10)))
    "cloned_x/metadata.json" = None /\
  fs_after empty_fs (trace (snd (run_clone demo_py dom_error "https://x" "cloned_x" 10)))
    "cloned_x/index.html" = None /\
  stored_assets (trace (snd (run_clone demo_py dom_error "https://x" "cloned_x" 10))) = [] /\
  get css (assets (snd (run_clone demo_py dom_error "https://x" "cloned_x" 10)))
  = ["https://x/a.css"; "https://x/a.css"].
Proof.
  split; [vm_compute; repeat (first [left; reflexivity | right])|].
  splits; vm_compute; reflexivity.
Qed.

(** ** C6: the files of the download stage *)

(** *** Predicted names do not collide *)

Lemma string_of_uint_no_dot d : no_dot (NilEmpty.string_of_uint d).
Proof. induction d; simpl; auto; split; auto; discriminate. Qed.

Lemma string_of_uint_inj d d' :
  NilEmpty.string_of_uint d = NilEmpty.string_of_uint d' -> d = d'.
Proof.
  intros H. apply (f_equal NilEmpty.uint_of_string) in H.
  rewrite !NilEmpty.usu in H. now injection H.
Qed.

Lemma str_inj i j : str i = str j -> i = j.
Proof.
  unfold str. intros H. apply string_of_uint_inj in H.
  now apply Unsigned.to_uint_inj.
Qed.

Lemma dot_split a b x y :
  no_dot a -> no_dot b ->
  (a ++ String "." x)%string = (b ++ String "." y)%string -> a = b.
Proof.
  revert b. induction a as [|c a IH]; intros [|c' b] Ha Hb H; simpl in *.
  - reflexivity.
  - injection H as H _. destruct Hb as (Hb & _). congruence.
  - injection H as H _. destruct Ha as (Ha & _). congruence.
  - injection H as -> H. f_equal. apply IH; tauto.
Qed.

Lemma extension_dot py k u : exists t, extension py k u = String "." t.
Proof.
  destruct k; simpl; eauto.
  - destruct (url_suffix_dot py u) as [E|(t & E)]; rewrite E; simpl; eauto.
  - destruct (url_suffix_dot py u) as [E|(t & E)]; rewrite E; simpl; eauto.
Qed.

Lemma predicted_path_inj py self k i u k' i' u' :
  predicted_path py self k i u = predicted_path py self k' i' u' ->
  k = k' /\ i = i'.
Proof.
  unfold predicted_path, predicted_name. intros H. apply append_inj_l in H.
  destruct (extension_dot py k u) as (t & Et).
  destruct (extension_dot py k' u') as (t' & Et').
  rewrite Et, Et' in H. clear Et Et'.
  destruct k, k'; simpl in H; try discriminate; split; try reflexivity;
    injection H as H; apply str_inj;
    apply (dot_split _ _ t t'); try apply string_of_uint_no_dot; exact H.
Qed.

Lemma In_plan_from path i l u p :
  In (u, p) (plan_from path i l) -> exists j, i <= j /\ p = path j u.
Proof.
  revert i. induction l as [|x l IH]; intros i H; simpl in H; [contradiction|].
  destruct H as [H|H].
  - injection H as -> <-. exists i. auto.
  - apply IH in H. destruct H as (j & Hj & ->). exists j. split; [lia|reflexivity].
Qed.

Lemma In_paths_plan_from path i l p :
  In p (map snd (plan_from path i l)) -> exists j u, i <= j /\ p = path j u.
Proof.
  rewrite in_map_iff. intros ([u q] & <- & H). simpl.
  apply In_plan_from in H. destruct H as (j & Hj & ->). eauto.
Qed.

Lemma NoDup_app_intro {A} (l1 l2 : list A) :
  NoDup l1 -> NoDup l2 -> (forall a, In a l1 -> ~ In a l2) -> NoDup (l1 ++ l2).
Proof.
  intros N1 N2 D. induction N1 as [|a l1 Ha N1 IH]; simpl; [exact N2|].
  constructor.
  - intros H. apply in_app_or in H. destruct H as [H|H]; [contradiction|].
    apply (D a); [now left|exact H].
  - apply IH. intros b Hb. apply D. now right.
Qed.

Lemma NoDup_plan_from py self k i l :
  NoDup (map snd (plan_from (predicted_path py self k) i l)).
Proof.
  revert i. induction l as [|u l IH]; intros i; simpl; constructor; [|apply IH].
  intros H. apply In_paths_plan_from in H. destruct H as (j & u' & Hj & E).
  apply predicted_path_inj in E. lia.
Qed.

Lemma plans_disjoint py self k k' i i' l l' p :
  k <> k' ->
  In p (map snd (plan_from (predicted_path py self k) i l)) ->
  ~ In p (map snd (plan_from (predicted_path py self k') i' l')).
Proof.
  intros Hk H H'.
  apply In_paths_plan_from in H. destruct H as (j & u & _ & ->).
  apply In_paths_plan_from in H'. destruct H' as (j' & u' & _ & E).
  apply predicted_path_inj in E. tauto.
Qed.

(** No two assets of the registry are given the same path. *)
Lemma planned_paths_NoDup py self r :
  NoDup (map snd (planned_downloads py self r)).
Proof.
  unfold planned_downloads. rewrite !map_app.
  repeat (apply NoDup_app_intro; [apply NoDup_plan_from| |]);
    try apply NoDup_plan_from;
    intros p Hp H;
    repeat (apply in_app_or in H; destruct H as [H|H]);
    revert H; eapply plans_disjoint; try exact Hp; discriminate.
Qed.

(** *** What the download loops call *)

Lemma stored_assets_app l1 l2 :
  stored_assets (l1 ++ l2) = stored_assets l1 ++ stored_assets l2.
Proof.
  induction l1 as [|z l1 IH]; simpl; [reflexivity|].
  destruct z as [| | | | |[] ? [] []]; simpl; rewrite ?IH; reflexivity.
Qed.

Lemma stored_asset_calls u q g f p b :
  In (p, b) (stored_assets (asset_calls u q g f))
  <-> p = q /\ g = HttpStatus 200 (inr b) /\ f = FileOk.
Proof.
  unfold asset_calls. destruct g as [e|status [e|b']]; simpl.
  - split; [contradiction|]. intros (_ & H & _). discriminate.
  - split; [contradiction|]. intros (_ & H & _). discriminate.
  - destruct (Z.eqb_spec status 200) as [->|Hs]; simpl.
    + destruct f; simpl; split.
      * intros [H|[]]. injection H as <- <-. auto.
      * intros (-> & H & _). injection H as ->. now left.
      * contradiction.
      * intros (_ & _ & H). discriminate.
      * contradiction.
      * intros (_ & _ & H). discriminate.
    + split; [contradiction|]. intros (_ & H & _). injection H as H _. contradiction.
Qed.

Lemma touched_asset_calls u q g f z p :
  In z (asset_calls u q g f) -> touched z = Some p -> p = q.
Proof.
  unfold asset_calls. destruct g as [e|status [e|b']]; simpl.
  - intros [<-|[]]. discriminate.
  - intros [<-|[]]. discriminate.
  - destruct (status =? 200)%Z; simpl.
    + intros [<-|[<-|[]]]; simpl; [discriminate|].
      destruct f; intros H; congruence.
    + intros [<-|[]]. discriminate.
Qed.

Lemma touched_download_calls plan replies z p :
  In z (download_calls plan replies) -> touched z = Some p -> In p (map snd plan).
Proof.
  revert replies. induction plan as [|[u q] plan IH]; intros [|[g f] replies] H Ht;
    simpl in *; try contradiction.
  apply in_app_or in H. destruct H as [H|H].
  - left. symmetry. eapply touched_asset_calls; eauto.
  - right. eapply IH; eauto.
Qed.

Lemma asset_calls_no_mkdir u q g f z d :
  In z (asset_calls u q g f) -> z <> IUnit (Mkdir d) None.
Proof.
  unfold asset_calls. destruct g as [e|status [e|b']]; simpl;
    try (intros [<-|[]]; discriminate).
  destruct (status =? 200)%Z; simpl.
  - intros [<-|[<-|[]]]; discriminate.
  - intros [<-|[]]; discriminate.
Qed.

Lemma download_calls_no_mkdir plan replies z d :
  In z (download_calls plan replies) -> z <> IUnit (Mkdir d) None.
Proof.
  revert replies. induction plan as [|[u q] plan IH]; intros [|[g f] replies] H;
    simpl in *; try contradiction.
  apply in_app_or in H. destruct H as [H|H].
  - eapply asset_calls_no_mkdir; eauto.
  - eapply IH; eauto.
Qed.

Lemma download_calls_app p1 p2 r1 r2 :
  length r1 = length p1 ->
  download_calls (p1 ++ p2) (r1 ++ r2) = download_calls p1 r1 ++ download_calls p2 r2.
Proof.
  revert r1. induction p1 as [|[u q] p1 IH]; intros [|[g f] r1] H; simpl in *;
    try discriminate; [reflexivity|].
  rewrite IH by lia. now rewrite app_assoc.
Qed.

Lemma plan_from_length path i l : length (plan_from path i l) = length l.
Proof. revert i. induction l as [|u l IH]; intros i; simpl; [reflexivity|now rewrite IH]. Qed.

Section DownloadLoops.

Variable py : PyLib.
Variable w : World.
Variable self : Cloner.

Lemma download_file_Ok u p s ok s' :
  download_file w u p s = (Ok ok, s') ->
  assets s' = assets s /\
  exists g f, trace s' = trace s ++ asset_calls u p g f.
Proof.
  unfold download_file, try_except, bind, http_get, asset_calls.
  destruct (w_get w (length (trace s)) u) as [e|status [e|b]] eqn:G; simpl.
  - destruct (is_Exception e); intros H; inversion H; subst; simpl.
    split; [reflexivity|]. exists (HttpRaise e), FileOk. reflexivity.
  - destruct (status =? 200)%Z eqn:Hs; simpl.
    + destruct (is_Exception e); intros H; inversion H; subst; simpl.
      split; [reflexivity|]. exists (HttpStatus status (inl e)), FileOk. reflexivity.
    + intros H; inversion H; subst; simpl.
      split; [reflexivity|]. exists (HttpStatus status (inl e)), FileOk. reflexivity.
  - destruct (status =? 200)%Z eqn:Hs; simpl.
    + unfold write_file. simpl.
      match goal with
      | |- context [w_file w ?n p] => destruct (w_file w n p) as [|e|e] eqn:F; simpl
      end.
      * intros H; inversion H; subst; simpl. split; [reflexivity|].
        exists (HttpStatus status (inr b)), FileOk. rewrite Hs, <- app_assoc. reflexivity.
      * destruct (is_Exception e); intros H; inversion H; subst; simpl.
        split; [reflexivity|].
        exists (HttpStatus status (inr b)), (OpenFailed e).
        rewrite Hs, <- app_assoc. reflexivity.
      * destruct (is_Exception e); intros H; inversion H; subst; simpl.
        split; [reflexivity|].
        exists (HttpStatus status (inr b)), (WriteFailed e).
        rewrite Hs, <- app_assoc. reflexivity.
    + intros H; inversion H; subst; simpl. split; [reflexivity|].
      exists (HttpStatus status (inr b)), FileOk. rewrite Hs. reflexivity.
Qed.

(** A download loop that completed made, for each URL in turn, the calls of
    one asset at the path given for its index. *)
Lemma download_loop_Ok (path label : nat -> string -> string) i l s s' :
  for_enumerate_from i l (fun i u =>
    ok <- download_file w u (path i u) ;;
    if truthy ok then print (label i u) else ret tt) s = (Ok tt, s') ->
  assets s' = assets s /\
  exists replies,
    length replies = length l /\
    trace s' = trace s ++ download_calls (plan_from path i l) replies.
Proof.
  revert i s. induction l as [|u l IH]; intros i s H; simpl in H.
  - injection H as <-. split; [reflexivity|]. exists []. simpl.
    now rewrite app_nil_r.
  - invert_bind H as s1 R1 K1; try discriminate.
    invert_bind R1 as s2 R2 K2; try discriminate.
    apply download_file_Ok in R2. destruct R2 as (A2 & g & f & T2).
    assert (E : assets s1 = assets s2 /\ trace s1 = trace s2).
    { destruct (truthy a).
      - apply print_run in K2. tauto.
      - injection K2 as <-. auto. }
    destruct E as (A1 & T1).
    apply IH in K1. destruct K1 as (A & replies & L & T).
    split; [congruence|].
    exists ((g, f) :: replies). simpl. split; [now rewrite L|].
    rewrite T, T1, T2, <- app_assoc. reflexivity.
Qed.

(** The download stage, when it completes, made exactly the calls planned
    from the registry and the naming rule. *)
Lemma download_assets_Ok s s' :
  download_assets py w self s = (Ok tt, s') ->
  exists replies,
    length replies = length (planned_downloads py self (assets s)) /\
    trace s' = trace s ++ download_calls (planned_downloads py self (assets s)) replies.
Proof.
  unfold download_assets, for_enumerate. intros H.
  invert_bind H as s0 R0 K0; try discriminate.
  apply print_run in R0. destruct R0 as (_ & A0 & T0 & _).
  invert_bind K0 as s1 R1 K1; try discriminate. injection R1 as <- <-.
  invert_bind K1 as s2 R2 K2; try discriminate.
  apply (download_loop_Ok (predicted_path py self css)
           (fun i _ => "✅ Downloaded CSS: " ++ "style_" ++ str i ++ ".css")%string) in R2.
  destruct R2 as (A2 & r2 & L2 & T2).
  invert_bind K2 as s3 R3 K3; try discriminate. injection R3 as <- <-.
  invert_bind K3 as s4 R4 K4; try discriminate.
  apply (download_loop_Ok (predicted_path py self js)
           (fun i _ => "✅ Downloaded JS: " ++ "script_" ++ str i ++ ".js")%string) in R4.
  destruct R4 as (A4 & r4 & L4 & T4).
  invert_bind K4 as s5 R5 K5; try discriminate. injection R5 as <- <-.
  invert_bind K5 as s6 R6 K6; try discriminate.
  apply (download_loop_Ok (predicted_path py self images)
           (fun i u => "✅ Downloaded Image: " ++ "image_" ++ str i
                       ++ extension py images u)%string) in R6.
  destruct R6 as (A6 & r6 & L6 & T6).
  invert_bind K6 as s7 R7 K7; try discriminate. injection R7 as <- <-.
  invert_bind K7 as s8 R8 K8; try discriminate.
  apply (download_loop_Ok (predicted_path py self svgs)
           (fun i _ => "✅ Downloaded SVG: " ++ "svg_" ++ str i ++ ".svg")%string) in R8.
  destruct R8 as (A8 & r8 & L8 & T8).
  invert_bind K8 as s9 R9 K9; try discriminate. injection R9 as <- <-.
  apply (download_loop_Ok (predicted_path py self fonts)
           (fun i u => "✅ Downloaded Font: " ++ "font_" ++ str i
                       ++ extension py fonts u)%string) in K9.
  destruct K9 as (A9 & r9 & L9 & T9).
  exists (r2 ++ r4 ++ r6 ++ r8 ++ r9). unfold planned_downloads, get.
  rewrite A8, A6, A4, A2 in L9, T9. rewrite A6, A4, A2 in L8, T8.
  rewrite A4, A2 in L6, T6. rewrite A2 in L4, T4.
  rewrite <- A0.
  split.
  - rewrite !length_app, !plan_from_length. lia.
  - rewrite !download_calls_app by (rewrite plan_from_length; assumption).
    rewrite T9, T8, T6, T4, T2, T0, <- !app_assoc. reflexivity.
Qed.

End DownloadLoops.

(** *** The files that result *)

Lemma In_stored_assets_touched tr p b :
  In (p, b) (stored_assets tr) -> exists z, In z tr /\ touched z = Some p.
Proof.
  induction tr as [|z tr IH]; simpl; [contradiction|].
  destruct z as [| | | | |[] q [] []]; simpl; intros H;
    try (destruct (IH H) as (z & Hz & Ht); exists z; split; [now right|exact Ht]).
  destruct H as [H|H].
  - injection H as -> _. eexists. split; [now left|reflexivity].
  - destruct (IH H) as (z & Hz & Ht). exists z. split; [now right|exact Ht].
Qed.

(** An asset is stored exactly when its request was answered with status 200
    and a readable body, and the write went through; it is stored at its
    planned path. *)
Lemma stored_download_calls plan replies p b :
  In (p, b) (stored_assets (download_calls plan replies))
  <-> exists n u, nth_error plan n = Some (u, p) /\
                  nth_error replies n = Some (HttpStatus 200 (inr b), FileOk).
Proof.
  revert replies. induction plan as [|[u q] plan IH]; intros [|[g f] replies]; simpl.
  - split; [contradiction|]. intros ([|n] & u & H & _); discriminate.
  - split; [contradiction|]. intros ([|n] & u & H & _); discriminate.
  - split; [contradiction|]. intros ([|n] & u' & _ & H); discriminate.
  - rewrite stored_assets_app, in_app_iff, stored_asset_calls, IH. split.
    + intros [(-> & -> & ->)|(n & u' & H1 & H2)].
      * exists 0, u. auto.
      * exists (S n), u'. auto.
    + intros ([|n] & u' & H1 & H2); simpl in *.
      * left. injection H1 as -> ->. injection H2 as -> ->. auto.
      * right. eauto.
Qed.

Lemma stored_paths_planned plan replies p :
  In p (map fst (stored_assets (download_calls plan replies))) -> In p (map snd plan).
Proof.
  rewrite in_map_iff. intros ([q b] & <- & H). simpl.
  apply stored_download_calls in H. destruct H as (n & u & H & _).
  apply nth_error_In in H. apply in_map_iff. exists (u, q). auto.
Qed.

(** No path is stored twice. *)
Lemma stored_paths_NoDup plan replies :
  NoDup (map snd plan) ->
  NoDup (map fst (stored_assets (download_calls plan replies))).
Proof.
  revert replies. induction plan as [|[u q] plan IH]; intros [|[g f] replies] N;
    simpl; try constructor.
  inversion N as [|? ? Hq N']; subst.
  rewrite stored_assets_app, map_app. apply NoDup_app_intro.
  - unfold asset_calls. destruct g as [e|status [e|b]]; simpl; try constructor.
    destruct (status =? 200)%Z; simpl; [|constructor].
    destruct f; simpl; repeat constructor; auto.
  - apply IH. exact N'.
  - intros p H H'. apply stored_paths_planned in H'.
    apply in_map_iff in H. destruct H as ([p' b] & <- & H). simpl in *.
    apply stored_asset_calls in H. destruct H as (-> & _). contradiction.
Qed.

(** A stored asset is on disk, with the bytes that were fetched, when the
    download stage ends: no later download overwrites it. *)
Lemma stored_assets_persist plan replies :
  NoDup (map snd plan) ->
  forall fs p b,
    In (p, b) (stored_assets (download_calls plan replies)) ->
    fs_after fs (download_calls plan replies) p = Some (File (Raw b)).
Proof.
  revert replies. induction plan as [|[u q] plan IH]; intros [|[g f] replies] N fs p b H;
    simpl in *; try contradiction.
  inversion N as [|? ? Hq N']; subst.
  rewrite stored_assets_app in H. apply in_app_or in H.
  rewrite fs_after_app. destruct H as [H|H].
  - apply stored_asset_calls in H. destruct H as (-> & -> & ->).
    rewrite fs_after_untouched.
    + simpl. unfold put. now rewrite String.eqb_refl.
    + intros z Hz. apply reaches_touched.
      * intros d. eapply download_calls_no_mkdir; eauto.
      * intros Ht. apply Hq. eapply touched_download_calls; eauto.
  - apply IH; assumption.
Qed.

(** C6.  When the download stage completes, its calls are, for every asset
    of the registry in turn (stylesheets, scripts, images, vector graphics,
    fonts; each category by its zero-based index), the request for its URL
    and - exactly when the request is answered with status 200 and a body
    that can be read - one write of that body at the predicted path
    ([style_{i}.css], [script_{i}.js], [image_{i}{ext}], [svg_{i}.svg],
    [font_{i}{ext}] under the category's directory).  The assets stored are
    exactly those whose fetch and write succeeded, each at its predicted
    path; no path is stored twice; and each stored file is on disk with the
    fetched bytes when the stage ends. *)
Theorem downloads_are_stored_under_predicted_names py w self s s' :
  download_assets py w self s = (Ok tt, s') ->
  exists replies,
    length replies = length (planned_downloads py self (assets s)) /\
    trace s' = trace s ++ download_calls (planned_downloads py self (assets s)) replies /\
    (forall p b,
       In (p, b) (stored_assets (download_calls (planned_downloads py self (assets s)) replies))
       <-> exists n u,
             nth_error (planned_downloads py self (assets s)) n = Some (u, p) /\
             nth_error replies n = Some (HttpStatus 200 (inr b), FileOk)) /\
    NoDup (map fst (stored_assets
                      (download_calls (planned_downloads py self (assets s)) replies))) /\
    (forall fs p b,
       In (p, b) (stored_assets (download_calls (planned_downloads py self (assets s)) replies)) ->
       fs_after fs (download_calls (planned_downloads py self (assets s)) replies) p
       = Some (File (Raw b))).
Proof.
  intros H. apply download_assets_Ok in H. destruct H as (replies & L & T).
  exists replies. splits.
  - exact L.
  - exact T.
  - intros p b. apply stored_download_calls.
  - apply stored_paths_NoDup, planned_paths_NoDup.
  - apply stored_assets_persist, planned_paths_NoDup.
Qed.

Lemma downloads_are_stored_under_predicted_names_witness :
  exists replies,
    length replies = length (planned_downloads demo_py demo_cloner (assets calm_discovered)) /\
    trace (snd (download_assets demo_py calm demo_cloner calm_discovered))
    = trace calm_discovered
      ++ download_calls (planned_downloads demo_py demo_cloner (assets calm_discovered))
           replies /\
    (forall p b,
       In (p, b) (stored_assets
                    (download_calls
                       (planned_downloads demo_py demo_cloner (assets calm_discovered))
                       replies))
       <-> exists n u,
             nth_error (planned_downloads demo_py demo_cloner (assets calm_discovered)) n
             = Some (u, p) /\
             nth_error replies n = Some (HttpStatus 200 (inr b), FileOk)) /\
    NoDup (map fst (stored_assets
                      (download_calls
                         (planned_downloads demo_py demo_cloner (assets calm_discovered))
                         replies))) /\
    (forall fs p b,
       In (p, b) (stored_assets
                    (download_calls
                       (planned_downloads demo_py demo_cloner (assets calm_discovered))
                       replies)) ->
       fs_after fs
         (download_calls (planned_downloads demo_py demo_cloner (assets calm_discovered))
            replies) p
       = Some (File (Raw b))).
Proof.
  apply (downloads_are_stored_under_predicted_names demo_py calm demo_cloner
           calm_discovered (snd (download_assets demo_py calm demo_cloner calm_discovered))).
  vm_compute. reflexivity.
Defined.

(** The plan of the run on [calm]: the names the specification predicts. *)
Example calm_planned_downloads :
  planned_downloads demo_py demo_cloner (assets calm_discovered)
  = [ ("https://x/a.css", "cloned_x/css/style_0.css");
      ("https://x/app.js", "cloned_x/js/script_0.js");
      ("https://x/logo.png", "cloned_x/images/image_0.png");
      ("https://x/missing", "cloned_x/images/image_1.jpg");
      ("https://x/f/font.ttf", "cloned_x/fonts/font_0.ttf") ].
Proof. vm_compute. reflexivity. Qed.

(** * Further properties of the code *)

(** ** [main]: the URL and the directory it hands to [WebCloner] *)

Lemma replace_dots_no_dot s : no_dot (replace_dots s).
Proof.
  induction s as [|c s IH]; simpl; [exact I|]. split; [|exact IH].
  destruct (Ascii.eqb_spec c "."%char) as [->|N]; [discriminate|exact N].
Qed.

Lemma replace_dots_length s : String.length (replace_dots s) = String.length s.
Proof. induction s as [|c s IH]; simpl; [reflexivity|now rewrite IH]. Qed.

Lemma replace_dots_fixed s : no_dot s -> replace_dots s = s.
Proof.
  induction s as [|c s IH]; simpl; [reflexivity|]. intros [N H].
  rewrite IH by exact H.
  destruct (Ascii.eqb_spec c "."%char) as [->|_]; [contradiction|reflexivity].
Qed.

(** X1.  Whatever the user types, the URL [main] hands to [WebCloner] starts
    with [http]: a line that, once stripped, does not start with [http]
    becomes [https://] followed by that line, and a line that does is taken as
    it is.  Applying the rule to its own result changes nothing. *)
Theorem main_url_starts_with_http (py : PyLib) (strip : string -> string)
    (typed : string) :
  url (fst (main_cloner py strip typed)) = main_url strip typed /\
  prefix "http" (main_url strip typed) = true /\
  (prefix "http" (strip typed) = false ->
   main_url strip typed = ("https://" ++ strip typed)%string) /\
  (prefix "http" (strip typed) = true -> main_url strip typed = strip typed) /\
  (main_url strip typed = strip typed -> prefix "http" (strip typed) = true) /\
  main_url (fun u => u) (main_url strip typed) = main_url strip typed.
Proof.
  assert (H : prefix "http" (main_url strip typed) = true).
  { unfold main_url. destruct (prefix "http" (strip typed)) eqn:E; [exact E|reflexivity]. }
  splits.
  - reflexivity.
  - exact H.
  - unfold main_url. intros ->. reflexivity.
  - unfold main_url. intros ->. reflexivity.
  - intros Q. rewrite <- Q. exact H.
  - unfold main_url at 1. now rewrite H.
Qed.

(** X2.  The directory [main] chooses is [cloned_] followed by the host of
    the URL with every dot replaced by an underscore: its name holds no dot,
    is seven characters longer than the host ([self.domain], which keeps its
    dots), and is [cloned_] plus the host itself when the host has no dot. *)
Theorem main_output_dir_has_no_dot (py : PyLib) (strip : string -> string)
    (typed : string) :
  output_dir (fst (main_cloner py strip typed))
  = ("cloned_" ++ replace_dots (domain (fst (main_cloner py strip typed))))%string /\
  no_dot (output_dir (fst (main_cloner py strip typed))) /\
  String.length (output_dir (fst (main_cloner py strip typed)))
  = 7 + String.length (domain (fst (main_cloner py strip typed))) /\
  (no_dot (domain (fst (main_cloner py strip typed))) <->
   output_dir (fst (main_cloner py strip typed))
   = ("cloned_" ++ domain (fst (main_cloner py strip typed)))%string).
Proof.
  assert (E : output_dir (fst (main_cloner py strip typed))
              = ("cloned_" ++ replace_dots (domain (fst (main_cloner py strip typed))))%string)
    by reflexivity.
  split; [exact E|]. rewrite E. split; [|split].
  - simpl. repeat split; try discriminate. apply replace_dots_no_dot.
  - simpl. now rewrite replace_dots_length.
  - split; intros H.
    + now rewrite replace_dots_fixed.
    + simpl in H. injection H as H. simpl. rewrite <- H. apply replace_dots_no_dot.
Qed.

(** ** Where a run writes *)

Lemma every_quiet {A} P (m : M A) :
  (forall s, trace (snd (m s)) = trace s) -> every P m.
Proof. intros H s. exists []. rewrite app_nil_r. split; [apply H|constructor]. Qed.

Lemma every_one {A} (P : interaction -> Prop) (m : M A) :
  (forall s, exists i, trace (snd (m s)) = trace s ++ [i] /\ P i) -> every P m.
Proof.
  intros H s. destruct (H s) as (i & E & Hi). exists [i]. split; [exact E|].
  constructor; [exact Hi|constructor].
Qed.

Lemma every_bind {A B} P (m : M A) (f : A -> M B) :
  every P m -> (forall a, every P (f a)) -> every P (bind m f).
Proof.
  intros Hm Hf s. unfold bind. destruct (Hm s) as (e1 & E1 & F1).
  destruct (m s) as [[a|e|] s1]; simpl in E1; try (exists e1; split; assumption).
  destruct (Hf a s1) as (e2 & E2 & F2).
  exists (e1 ++ e2). rewrite E2, E1, app_assoc. split; [reflexivity|].
  apply Forall_app. split; assumption.
Qed.

Lemma every_try_except {A} P (m : M A) (h : exn -> M A) :
  every P m -> (forall e, every P (h e)) -> every P (try_except m h).
Proof.
  intros Hm Hh s. unfold try_except. destruct (Hm s) as (e1 & E1 & F1).
  destruct (m s) as [[a|e|] s1]; simpl in E1; try (exists e1; split; assumption).
  destruct (is_Exception e); [|exists e1; split; assumption].
  destruct (Hh e s1) as (e2 & E2 & F2).
  exists (e1 ++ e2). rewrite E2, E1, app_assoc. split; [reflexivity|].
  apply Forall_app. split; assumption.
Qed.

Lemma every_try_bare {A} P (m : M A) (h : M A) :
  every P m -> every P h -> every P (try_bare m h).
Proof.
  intros Hm Hh s. unfold try_bare. destruct (Hm s) as (e1 & E1 & F1).
  destruct (m s) as [[a|e|] s1]; simpl in E1; try (exists e1; split; assumption).
  destruct (Hh s1) as (e2 & E2 & F2).
  exists (e1 ++ e2). rewrite E2, E1, app_assoc. split; [reflexivity|].
  apply Forall_app. split; assumption.
Qed.

Lemma every_with_exit {A} P (m : M A) (exit : M unit) :
  every P m -> every P exit -> every P (with_exit m exit).
Proof.
  intros Hm Hx s. unfold with_exit. destruct (Hm s) as (e1 & E1 & F1).
  destruct (m s) as [[a|e|] s1]; simpl in E1; try (exists e1; split; assumption).
  - assert (H : every P (exit ;; ret a)).
    { apply every_bind; [exact Hx|]. intros _. apply every_quiet. reflexivity. }
    destruct (H s1) as (e2 & E2 & F2).
    exists (e1 ++ e2). rewrite E2, E1, app_assoc. split; [reflexivity|].
    apply Forall_app. split; assumption.
  - assert (H : every P (exit ;; @raise A e)).
    { apply every_bind; [exact Hx|]. intros _. apply every_quiet. reflexivity. }
    destruct (H s1) as (e2 & E2 & F2).
    exists (e1 ++ e2). rewrite E2, E1, app_assoc. split; [reflexivity|].
    apply Forall_app. split; assumption.
Qed.

Lemma every_for_each {A} P (l : list A) (body : A -> M unit) :
  (forall x, In x l -> every P (body x)) -> every P (for_each l body).
Proof.
  induction l as [|x l IH]; intros H; simpl.
  - apply every_quiet. reflexivity.
  - apply every_bind; [apply H; now left|].
    intros _. apply IH. intros y Hy. apply H. now right.
Qed.

Lemma every_for_enumerate_from P i (l : list string) (body : nat -> string -> M unit) :
  (forall j x, every P (body j x)) -> every P (for_enumerate_from i l body).
Proof.
  intros H. revert i. induction l as [|x l IH]; intros i; simpl.
  - apply every_quiet. reflexivity.
  - apply every_bind; auto.
Qed.

Lemma every_run {A} P (m : M A) s r s' :
  every P m -> m s = (r, s') -> exists evs, trace s' = trace s ++ evs /\ Forall P evs.
Proof. intros H E. destruct (H s) as (evs & E1 & F). rewrite E in E1. eauto. Qed.

Lemma prefix_app a b : prefix a (a ++ b)%string = true.
Proof.
  induction a as [|c a IH]; simpl; [now destruct b|].
  destruct (ascii_dec c c) as [_|N]; [exact IH|contradiction].
Qed.

Lemma prefix_refl a : prefix a a = true.
Proof.
  induction a as [|c a IH]; simpl; [reflexivity|].
  destruct (ascii_dec c c) as [_|N]; [exact IH|contradiction].
Qed.

Lemma in_layout_prefix py self p :
  in_layout py self p -> prefix (output_dir self) p = true.
Proof.
  intros [H|[->|[->|[->|[->|(k & i & u & ->)]]]]]; try apply prefix_app.
  simpl in H.
  destruct H as [<-|[<-|[<-|[<-|[<-|[<-|[<-|[]]]]]]]];
    first [apply prefix_refl|apply prefix_app].
Qed.

Section EveryCall.

Variable w : World.
Variable P : interaction -> Prop.

Lemma every_call o : (forall r, P (IUnit o r)) -> every P (call w o).
Proof.
  intros H. apply every_one. intros s.
  exists (IUnit o (w_unit w (length (trace s)) o)). split; [|apply H].
  unfold call. destruct (w_unit w (length (trace s)) o); reflexivity.
Qed.

Lemma every_evaluate_urls q : (forall r, P (IUrls q r)) -> every P (evaluate_urls w q).
Proof.
  intros H. apply every_one. intros s.
  exists (IUrls q (w_urls w (length (trace s)) q)). split; [|apply H].
  unfold evaluate_urls. destruct (w_urls w (length (trace s)) q); reflexivity.
Qed.

Lemma every_evaluate_num q : (forall r, P (INum q r)) -> every P (evaluate_num w q).
Proof.
  intros H. apply every_one. intros s.
  exists (INum q (w_num w (length (trace s)) q)). split; [|apply H].
  unfold evaluate_num. destruct (w_num w (length (trace s)) q); reflexivity.
Qed.

Lemma every_page_content : (forall r, P (IContent r)) -> every P (page_content w).
Proof.
  intros H. apply every_one. intros s.
  exists (IContent (w_content w (length (trace s)))). split; [|apply H].
  unfold page_content. destruct (w_content w (length (trace s))); reflexivity.
Qed.

Lemma every_http_get u : (forall r, P (IGet u r)) -> every P (http_get w u).
Proof.
  intros H. apply every_one. intros s.
  exists (IGet u (w_get w (length (trace s)) u)). split; [|apply H].
  unfold http_get. destruct (w_get w (length (trace s)) u); reflexivity.
Qed.

Lemma every_write_file k p c :
  (forall r, P (IFile k p c r)) -> every P (write_file w k p c).
Proof.
  intros H. apply every_one. intros s.
  exists (IFile k p c (w_file w (length (trace s)) p)). split; [|apply H].
  unfold write_file. destruct (w_file w (length (trace s)) p); reflexivity.
Qed.

Lemma every_read body : every P (read body).
Proof. destruct body; apply every_quiet; reflexivity. Qed.

End EveryCall.

Lemma layout_touch py self i :
  (forall p, touched i = Some p -> in_layout py self p) ->
  (forall d r, i = IUnit (Mkdir d) r -> In d (directories self)) ->
  within_layout py self i.
Proof.
  intros H M. split; [|exact M].
  intros p Hp. split; [auto|]. eapply in_layout_prefix; eauto.
Qed.

(** The side condition of a call: the path it touches, if any, is one of the
    fixed paths of the layout. *)
Ltac layout_side :=
  let r := fresh "r" in
  let p := fresh "p" in
  let H := fresh "H" in
  intros r; apply layout_touch;
  [ intros p H;
    try (destruct r; simpl in H); try discriminate;
    injection H as <-; unfold in_layout; simpl; tauto
  | intros ? ? ?; discriminate ].

Ltac layout_leaf :=
  first
    [ apply every_quiet; intros ?; reflexivity
    | apply every_read
    | apply every_call; layout_side
    | apply every_evaluate_urls; layout_side
    | apply every_evaluate_num; layout_side
    | apply every_page_content; layout_side
    | apply every_http_get; layout_side
    | apply every_write_file; layout_side
    | solve [auto] ].

Ltac layout_go :=
  lazymatch goal with
  | |- every _ (bind _ _) => apply every_bind; [layout_go|intros; layout_go]
  | |- every _ (if ?b then _ else _) => destruct b; layout_go
  | |- every _ (try_bare _ _) => apply every_try_bare; layout_go
  | |- every _ (try_except _ _) => apply every_try_except; [layout_go|intros; layout_go]
  | |- every _ (with_exit _ _) => apply every_with_exit; layout_go
  | |- every _ _ => layout_leaf
  end.

Section Layout.

Variable py : PyLib.
Variable w : World.
Variable self : Cloner.

Lemma layout_setup_directories : every (within_layout py self) (setup_directories w self).
Proof.
  unfold setup_directories. apply every_bind; [|intros; layout_leaf].
  apply every_for_each. intros d Hd. apply every_call.
  intros r. apply layout_touch.
  - intros p H. destruct r; simpl in H; [discriminate|]. injection H as <-. now left.
  - intros d' r' E. injection E as <- _. exact Hd.
Qed.

Lemma layout_download_loop k (name : nat -> string -> string) (dir label : string) i l :
  (forall j u, (output_dir self ++ dir ++ name j u)%string = predicted_path py self k j u) ->
  every (within_layout py self)
    (for_enumerate_from i l (fun i u =>
       ok <- download_file w u (output_dir self ++ dir ++ name i u)%string ;;
       if truthy ok then print (label ++ name i u)%string else ret tt)).
Proof.
  intros Hp. apply every_for_enumerate_from. intros j u.
  assert (F : forall c r,
             within_layout py self
               (IFile AssetFile (output_dir self ++ dir ++ name j u)%string c r)).
  { intros c r. apply layout_touch; [|intros ? ? ?; discriminate]. intros p H.
    assert (p = predicted_path py self k j u) as ->
      by (rewrite <- Hp; destruct r; simpl in H; congruence).
    do 5 right. eauto. }
  unfold download_file.
  apply every_bind; [|intros ok; destruct (truthy ok); layout_leaf].
  apply every_try_except; [|intros; layout_go].
  apply every_bind; [layout_leaf|intros response].
  destruct (fst response =? 200)%Z; [|layout_leaf].
  apply every_bind; [layout_leaf|intros content].
  apply every_bind; [|intros; layout_leaf].
  apply every_write_file. intros r. apply F.
Qed.

Lemma layout_download_assets : every (within_layout py self) (download_assets py w self).
Proof.
  unfold download_assets, for_enumerate.
  apply every_bind; [layout_leaf|intros _].
  apply every_bind; [layout_leaf|intros l1].
  apply every_bind; [|intros _].
  { apply (layout_download_loop css (fun i _ => "style_" ++ str i ++ ".css")%string "/css/").
    reflexivity. }
  apply every_bind; [layout_leaf|intros l2].
  apply every_bind; [|intros _].
  { apply (layout_download_loop js (fun i _ => "script_" ++ str i ++ ".js")%string "/js/").
    reflexivity. }
  apply every_bind; [layout_leaf|intros l3].
  apply every_bind; [|intros _].
  { apply (layout_download_loop images
             (fun i u => "image_" ++ str i ++
                (if (url_suffix py u =? "")%string then ".jpg" else url_suffix py u))%string
             "/images/").
    reflexivity. }
  apply every_bind; [layout_leaf|intros l4].
  apply every_bind; [|intros _].
  { apply (layout_download_loop svgs (fun i _ => "svg_" ++ str i ++ ".svg")%string "/svgs/").
    reflexivity. }
  apply every_bind; [layout_leaf|intros l5].
  apply (layout_download_loop fonts
           (fun i u => "font_" ++ str i ++
              (if (url_suffix py u =? "")%string then ".woff2" else url_suffix py u))%string
           "/fonts/").
  reflexivity.
Qed.

Lemma layout_scroll_loop fuel pos total step_ :
  every (within_layout py self) (scroll_loop w fuel pos total step_).
Proof.
  revert pos total. induction fuel as [|fuel IH]; intros pos total; simpl.
  - layout_leaf.
  - destruct (pos <? total)%Z; [|layout_leaf].
    apply every_bind; [layout_leaf|intros _].
    apply every_bind; [layout_leaf|intros _].
    apply every_bind; [layout_leaf|intros h]. apply IH.
Qed.

Lemma layout_close_cookie_popup l : every (within_layout py self) (close_cookie_popup w l).
Proof.
  induction l as [|sel l IH]; simpl; [layout_leaf|].
  apply every_bind; [layout_go|]. intros [|]; [layout_leaf|exact IH].
Qed.

Lemma layout_extract_assets_from_page :
  every (within_layout py self) (extract_assets_from_page py w self).
Proof.
  unfold extract_assets_from_page.
  do 10 (apply every_bind; [layout_leaf|intros]).
  apply every_bind; [|intros].
  { apply every_for_each. intros x _. destruct (prefix "http" x); layout_leaf. }
  apply every_bind; [|intros; layout_go].
  apply every_for_each. intros x _. layout_leaf.
Qed.

Lemma layout_clone fuel : every (within_layout py self) (clone py w self fuel).
Proof.
  pose proof layout_setup_directories as H1.
  pose proof layout_download_assets as H2.
  pose proof layout_extract_assets_from_page as H3.
  pose proof (layout_close_cookie_popup cookie_selectors) as H4.
  assert (H5 : forall h v, every (within_layout py self) (scroll_loop w fuel 0 h v))
    by (intros; apply layout_scroll_loop).
  unfold clone, open_page, launch_browser, settle, capture, save_html, take_screenshots,
    scroll_page_fully, wait_for_images_and_fonts, save_metadata, report.
  layout_go.
Qed.

End Layout.

Lemma prefix_cons c x d y :
  prefix (String c x) (String d y) = if ascii_dec c d then prefix x y else false.
Proof. reflexivity. Qed.

Lemma prefix_slash_free x name :
  slash_free name = true -> prefix (x ++ "/") name = false.
Proof.
  revert name. induction x as [|c x IH]; intros [|d name] H; try reflexivity;
    cbn [slash_free] in H; apply andb_prop in H; destruct H as [Hd H].
  - change (prefix (String "/" "") (String d name) = false).
    rewrite prefix_cons. destruct (ascii_dec "/" d) as [<-|_]; [|reflexivity].
    rewrite Ascii.eqb_refl in Hd. discriminate.
  - change (prefix (String c (x ++ "/")) (String d name) = false).
    rewrite prefix_cons. destruct (ascii_dec c d) as [_|_]; [now apply IH|reflexivity].
Qed.

(** Above a subdirectory of [a] are [a] and what is above [a]. *)
Lemma above_child a name q :
  slash_free name = true ->
  above q (a ++ String "/" name) = true ->
  q = a \/ above q a = true.
Proof.
  unfold above. intros N H. apply andb_prop in H. destruct H as [Hq H].
  rewrite Hq. cbn [andb]. clear Hq. revert q H.
  induction a as [|d a IH]; intros [|c q] H.
  - now left.
  - exfalso. change (prefix (String c (q ++ "/")) (String "/" name) = true) in H.
    rewrite prefix_cons in H. destruct (ascii_dec c "/") as [_|_]; [|discriminate].
    rewrite prefix_slash_free in H by exact N. discriminate.
  - right. change (prefix (String "/" "") (String d (a ++ String "/" name)) = true) in H.
    rewrite prefix_cons in H. destruct (ascii_dec "/" d) as [<-|_]; [|discriminate].
    change (prefix (String "/" "") (String "/" a) = true).
    rewrite prefix_cons.
    destruct (ascii_dec "/" "/") as [_|X]; [destruct a; reflexivity|contradiction].
  - change (prefix (String c (q ++ "/")) (String d (a ++ String "/" name)) = true) in H.
    rewrite prefix_cons in H. destruct (ascii_dec c d) as [->|_]; [|discriminate].
    destruct (IH q H) as [->|H']; [now left|right].
    change (prefix (String d (q ++ "/")) (String d a) = true).
    rewrite prefix_cons. destruct (ascii_dec d d) as [_|X]; [exact H'|contradiction].
Qed.

Lemma above_directories self d q :
  In d (directories self) -> above q d = true ->
  q = output_dir self \/ above q (output_dir self) = true.
Proof.
  simpl. intros [<-|[<-|[<-|[<-|[<-|[<-|[<-|[]]]]]]]] H;
    first [now right | apply above_child in H; [exact H|reflexivity]].
Qed.

Lemma reaches_cases i q :
  reaches i q = true ->
  touched i = Some q \/ exists d, i = IUnit (Mkdir d) None /\ above q d = true.
Proof.
  destruct i as [[] []| | | | |? ? ? []]; simpl; intros H; try discriminate;
    try (apply String.eqb_eq in H; subst; now left).
  apply orb_prop in H. destruct H as [H|H].
  - apply String.eqb_eq in H. subst. now left.
  - right. eauto.
Qed.

(** X3.  Whatever the outside world answers, every path a run of [clone]
    creates or overwrites (a directory, a file written, a screenshot; a file
    left truncated by a failed write and the directories that
    [mkdir(parents=True)] creates above the path it is given included) either
    belongs to the layout of the output directory - it is one of the seven
    directories, [index.html], one of the two screenshots, [metadata.json],
    or the predicted path of an asset, and so starts with [output_dir] - or
    is a directory above [output_dir].  The run writes nowhere else. *)
Theorem clone_writes_only_within_the_layout py w self fuel s :
  exists evs,
    trace (snd (clone py w self fuel s)) = trace s ++ evs /\
    forall i q, In i evs -> reaches i q = true ->
      (in_layout py self q /\ prefix (output_dir self) q = true) \/
      above q (output_dir self) = true.
Proof.
  destruct (layout_clone py w self fuel s) as (evs & E & F).
  exists evs. split; [exact E|].
  intros i q Hi Hq. rewrite Forall_forall in F. destruct (F i Hi) as [Ht Hm].
  apply reaches_cases in Hq. destruct Hq as [Hq|(d & -> & Hq)].
  - left. now apply Ht.
  - apply (above_directories self d q (Hm d None eq_refl)) in Hq.
    destruct Hq as [->|Hq]; [left|now right].
    split; [left; simpl; now left|apply prefix_refl].
Qed.

(** ** [save_html] *)

Lemma save_html_run w self s r s' :
  save_html w self s = (r, s') ->
  assets s' = assets s /\
  ((exists e, r = Raise e /\ trace s' = trace s ++ [IContent (inl e)]) \/
   (exists c x,
      trace s' = trace s ++ [IContent (inr c); IFile HtmlFile (index_html self) (Html c) x] /\
      (r = Ok tt <-> x = FileOk))).
Proof.
  unfold save_html. intros H.
  invert_bind H as s1 R1 K1; try discriminate.
  apply print_run in R1. destruct R1 as (_ & A1 & T1 & _).
  invert_bind K1 as s2 R2 K2.
  - unfold page_content in R2.
    destruct (w_content w (length (trace s1))) as [e|c] eqn:E; [discriminate|].
    injection R2 as <- <-.
    invert_bind K2 as s3 R3 K3.
    + apply write_file_run in R3. destruct R3 as (A3 & _ & x & T3 & Hx).
      apply print_run in K3. destruct K3 as (-> & A4 & T4 & _).
      split; [rewrite A4, A3; exact A1|]. right. exists c, x. split.
      * rewrite T4, T3. simpl. rewrite T1, <- app_assoc. reflexivity.
      * split; [intros _; now apply Hx|reflexivity].
    + apply write_file_run in R3. destruct R3 as (A3 & _ & x & T3 & Hx).
      split; [rewrite A3; exact A1|]. right. exists c, x. split.
      * rewrite T3. simpl. rewrite T1, <- app_assoc. reflexivity.
      * subst r. split; [discriminate|]. intros ->. destruct Hx as [_ Hx].
        specialize (Hx eq_refl). discriminate.
    + exfalso. unfold write_file in R3.
      destruct (w_file w (length (trace (record (IContent (inr c)) s1)))
                  (output_dir self ++ "/index.html")%string); discriminate.
  - subst r. unfold page_content in R2.
    destruct (w_content w (length (trace s1))) as [e'|c] eqn:E; [|discriminate].
    injection R2 as <- <-. split; [exact A1|]. left. exists e'. split; [reflexivity|].
    simpl. now rewrite T1.
  - unfold page_content in R2.
    destruct (w_content w (length (trace s1))); discriminate.
Qed.

(** X4.  [save_html] asks the page for its content once and writes exactly
    that content to [index.html]: when [page.content()] raises, nothing is
    written; otherwise the one write is of the content the page returned,
    [save_html] returns exactly when the write succeeded, and then
    [index.html] holds that content.  The registry is left as it was. *)
Theorem save_html_stores_the_page_content w self s r s' :
  save_html w self s = (r, s') ->
  exists evs,
    trace s' = trace s ++ evs /\ assets s' = assets s /\
    ((exists e, r = Raise e /\ evs = [IContent (inl e)]) \/
     (exists c x,
        evs = [IContent (inr c); IFile HtmlFile (index_html self) (Html c) x] /\
        (r = Ok tt <-> x = FileOk) /\
        (x = FileOk ->
         forall fs, fs_after fs evs (index_html self) = Some (File (Html c))))).
Proof.
  intros H. apply save_html_run in H. destruct H as (A & [(e & -> & T)|(c & x & T & Hx)]).
  - exists [IContent (inl e)]. splits; auto. left. eauto.
  - eexists. splits; [exact T|exact A|]. right. exists c, x. splits; auto.
    intros -> fs. simpl. unfold put. now rewrite String.eqb_refl.
Qed.

Lemma save_html_stores_the_page_content_witness :
  exists evs,
    trace (snd (save_html calm demo_cloner start)) = trace start ++ evs /\
    assets (snd (save_html calm demo_cloner start)) = assets start /\
    ((exists e, fst (save_html calm demo_cloner start) = Raise e /\ evs = [IContent (inl e)]) \/
     (exists c x,
        evs = [IContent (inr c); IFile HtmlFile (index_html demo_cloner) (Html c) x] /\
        (fst (save_html calm demo_cloner start) = Ok tt <-> x = FileOk) /\
        (x = FileOk ->
         forall fs, fs_after fs evs (index_html demo_cloner) = Some (File (Html c))))).
Proof.
  apply (save_html_stores_the_page_content calm demo_cloner start
           (fst (save_html calm demo_cloner start))
           (snd (save_html calm demo_cloner start))).
  vm_compute. reflexivity.
Defined.

(** ** [take_screenshots] and [wait_for_images_and_fonts] *)

Lemma loop_calls_scroll pos v hs : Forall is_scroll (loop_calls pos v hs).
Proof.
  revert pos. induction hs as [|h hs IH]; intros pos; simpl; constructor.
  - reflexivity.
  - constructor; [reflexivity|apply IH].
Qed.

Lemma wait_for_images_and_fonts_Ok w s s' :
  wait_for_images_and_fonts w s = (Ok tt, s') ->
  trace s' = trace s ++ [IUnit AwaitImages None; IUnit AwaitFontsReady None].
Proof.
  unfold wait_for_images_and_fonts. intros H.
  invert_bind H as s1 R1 K1; try discriminate.
  apply print_run in R1. destruct R1 as (_ & _ & T1 & _).
  invert_bind K1 as s2 R2 K2; try discriminate.
  apply call_run in R2. destruct R2 as (_ & _ & [[_ T2]|(e & E & _)]); [|discriminate].
  invert_bind K2 as s3 R3 K3; try discriminate.
  apply call_run in R3. destruct R3 as (_ & _ & [[_ T3]|(e & E & _)]); [|discriminate].
  invert_bind K3 as s4 R4 K4; try discriminate.
  apply sleep_run in R4. destruct R4 as (_ & ->).
  apply print_run in K4. destruct K4 as (_ & _ & T4 & _).
  rewrite T4, T3, T2, T1, <- app_assoc. reflexivity.
Qed.

Lemma take_screenshots_Ok w self fuel s s' :
  take_screenshots w self fuel s = (Ok tt, s') ->
  exists scroll,
    trace s' = trace s ++ scroll
               ++ [ IUnit (ScrollTo 0) None;
                    IUnit AwaitImages None; IUnit AwaitFontsReady None;
                    IUnit (Screenshot (fullpage_png self) true) None;
                    IUnit (Screenshot (viewport_png self) false) None ] /\
    Forall is_scroll scroll.
Proof.
  unfold take_screenshots. intros H.
  invert_bind H as s1 R1 K1; try discriminate.
  apply print_run in R1. destruct R1 as (_ & _ & T1 & _).
  invert_bind K1 as s2 R2 K2; try discriminate.
  apply scroll_page_fully_Ok in R2. destruct R2 as (h0 & v & hs & T2 & _).
  invert_bind K2 as s3 R3 K3; try discriminate.
  apply wait_for_images_and_fonts_Ok in R3.
  invert_bind K3 as s4 R4 K4; try discriminate.
  apply call_run in R4. destruct R4 as (_ & _ & [[_ T4]|(e & E & _)]); [|discriminate].
  invert_bind K4 as s5 R5 K5; try discriminate.
  apply print_run in R5. destruct R5 as (_ & _ & T5 & _).
  invert_bind K5 as s6 R6 K6; try discriminate.
  apply call_run in R6. destruct R6 as (_ & _ & [[_ T6]|(e & E & _)]); [|discriminate].
  apply print_run in K6. destruct K6 as (_ & _ & T7 & _).
  exists ([INum ScrollHeight (inr h0); INum InnerHeight (inr v)] ++ loop_calls 0 v hs).
  split.
  - rewrite T7, T6, T5, T4, R3, T2, T1. unfold fullpage_png, viewport_png.
    repeat rewrite <- app_assoc. reflexivity.
  - apply Forall_app. split; [|apply loop_calls_scroll].
    constructor; [reflexivity|]. constructor; [reflexivity|constructor].
Qed.

Lemma scroll_untouched scroll p z :
  Forall is_scroll scroll -> In z scroll -> reaches z p = false.
Proof.
  intros F Hz. rewrite Forall_forall in F. specialize (F z Hz).
  unfold is_scroll in F.
  destruct z as [[] []| | | | |[] ? ? []]; simpl in *; try discriminate; reflexivity.
Qed.

(** X5.  When [take_screenshots] returns, it has scrolled through the page,
    scrolled back to the top, waited for the images and then for the fonts,
    and only then taken the full-page screenshot and, after it, the viewport
    screenshot; both files are on disk, [fullpage.png] taken with
    [full_page=True] and [viewport.png] with [full_page=False]. *)
Theorem screenshots_follow_scroll_and_media_wait w self fuel s s' :
  take_screenshots w self fuel s = (Ok tt, s') ->
  exists scroll evs,
    trace s' = trace s ++ evs /\
    evs = scroll
          ++ [ IUnit (ScrollTo 0) None;
               IUnit AwaitImages None; IUnit AwaitFontsReady None;
               IUnit (Screenshot (fullpage_png self) true) None;
               IUnit (Screenshot (viewport_png self) false) None ] /\
    Forall is_scroll scroll /\
    forall fs,
      fs_after fs evs (fullpage_png self) = Some (File (Png true)) /\
      fs_after fs evs (viewport_png self) = Some (File (Png false)).
Proof.
  intros H. apply take_screenshots_Ok in H. destruct H as (scroll & T & F).
  exists scroll. eexists. splits; [exact T|reflexivity|exact F|].
  intros fs. rewrite !fs_after_app. simpl. unfold put.
  rewrite !String.eqb_refl.
  destruct (String.eqb_spec (fullpage_png self) (viewport_png self)) as [E|_];
    [|split; reflexivity].
  apply append_inj_l in E. discriminate.
Qed.

Lemma screenshots_follow_scroll_and_media_wait_witness :
  exists scroll evs,
    trace (snd (take_screenshots calm demo_cloner 10 start)) = trace start ++ evs /\
    evs = scroll
          ++ [ IUnit (ScrollTo 0) None;
               IUnit AwaitImages None; IUnit AwaitFontsReady None;
               IUnit (Screenshot (fullpage_png demo_cloner) true) None;
               IUnit (Screenshot (viewport_png demo_cloner) false) None ] /\
    Forall is_scroll scroll /\
    forall fs,
      fs_after fs evs (fullpage_png demo_cloner) = Some (File (Png true)) /\
      fs_after fs evs (viewport_png demo_cloner) = Some (File (Png false)).
Proof.
  apply (screenshots_follow_scroll_and_media_wait calm demo_cloner 10 start
           (snd (take_screenshots calm demo_cloner 10 start))).
  vm_compute. reflexivity.
Defined.

(** ** [setup_directories] *)

Lemma for_each_mkdir_run w l s r s' :
  for_each l (fun d => call w (Mkdir d)) s = (r, s') ->
  console s' = console s /\
  ((r = Ok tt /\ trace s' = trace s ++ map (fun d => IUnit (Mkdir d) None) l) \/
   (exists created d rest e,
      l = created ++ d :: rest /\ r = Raise e /\
      trace s' = trace s ++ map (fun d => IUnit (Mkdir d) None) created
                 ++ [IUnit (Mkdir d) (Some e)])).
Proof.
  revert s. induction l as [|d l IH]; intros s H; simpl in H.
  - injection H as <- <-. split; [reflexivity|]. left. now rewrite app_nil_r.
  - invert_bind H as s1 R K.
    + apply call_run in R. destruct R as (_ & C & [[_ T]|(e & E & _)]); [|discriminate].
      apply IH in K. destruct K as (C' & [[-> T']|(created & d' & rest & e & -> & -> & T')]).
      * split; [congruence|]. left. split; [reflexivity|].
        rewrite T', T, <- app_assoc. reflexivity.
      * split; [congruence|]. right. exists (d :: created), d', rest, e.
        splits; try reflexivity. rewrite T', T, <- app_assoc. reflexivity.
    + subst r. apply call_run in R. destruct R as (_ & C & [[E _]|(e' & E & T)]);
        [discriminate|]. injection E as <-.
      split; [exact C|]. right. exists [], d, l, e. splits; try reflexivity. exact T.
    + exfalso. unfold call in R. destruct (w_unit w (length (trace s)) (Mkdir d));
        discriminate.
Qed.

Lemma mkdirs_keep_directory l fs d :
  fs d = Some Dir -> fs_after fs (map (fun d => IUnit (Mkdir d) None) l) d = Some Dir.
Proof.
  revert fs. induction l as [|x l IH]; intros fs H; simpl; [exact H|].
  apply IH. unfold mkdir. destruct ((d =? x)%string || above d x); [reflexivity|exact H].
Qed.

Lemma fs_after_mkdirs l fs d :
  In d l -> fs_after fs (map (fun d => IUnit (Mkdir d) None) l) d = Some Dir.
Proof.
  revert fs. induction l as [|x l IH]; intros fs H; simpl; [contradiction|].
  destruct H as [->|H]; [|now apply IH].
  apply mkdirs_keep_directory. unfold mkdir. now rewrite String.eqb_refl.
Qed.

(** X6.  [setup_directories] creates the output directory and then its six
    subdirectories, in that order.  When it returns, all seven exist as
    directories and the success line has been printed.  When a [mkdir]
    raises, it stops there: the directories before it have been created, no
    later one is attempted, the exception reaches the caller and nothing is
    printed. *)
Theorem setup_directories_stops_at_first_failure w self s r s' :
  setup_directories w self s = (r, s') ->
  (r = Ok tt /\
   trace s' = trace s ++ scaffold_calls self /\
   (forall fs d, In d (directories self) ->
      fs_after fs (scaffold_calls self) d = Some Dir) /\
   console s'
   = console s ++ [Line ("✅ Created directory structure in " ++ output_dir self ++ "/")%string])
  \/
  (exists created d rest e,
     directories self = created ++ d :: rest /\ r = Raise e /\
     trace s' = trace s ++ map (fun d => IUnit (Mkdir d) None) created
                ++ [IUnit (Mkdir d) (Some e)] /\
     console s' = console s).
Proof.
  unfold setup_directories. intros H.
  invert_bind H as s1 R K.
  - apply for_each_mkdir_run in R.
    destruct R as (C & [[_ T]|(created & d & rest & e & _ & E & _)]); [|discriminate].
    apply print_run in K. destruct K as (-> & _ & T' & C').
    left. splits.
    + reflexivity.
    + rewrite T', T. reflexivity.
    + intros fs d Hd. now apply fs_after_mkdirs.
    + now rewrite C', C.
  - subst r. apply for_each_mkdir_run in R.
    destruct R as (C & [[E _]|(created & d & rest & e' & L & E & T)]); [discriminate|].
    injection E as <-. right. exists created, d, rest, e. auto.
  - apply for_each_mkdir_run in R.
    destruct R as (_ & [[E _]|(created & d & rest & e' & _ & E & _)]); discriminate.
Qed.

Lemma setup_directories_stops_at_first_failure_witness :
  (fst (setup_directories readonly_disk demo_cloner start) = Ok tt /\
   trace (snd (setup_directories readonly_disk demo_cloner start))
   = trace start ++ scaffold_calls demo_cloner /\
   (forall fs d, In d (directories demo_cloner) ->
      fs_after fs (scaffold_calls demo_cloner) d = Some Dir) /\
   console (snd (setup_directories readonly_disk demo_cloner start))
   = console start
     ++ [Line ("✅ Created directory structure in " ++ output_dir demo_cloner ++ "/")%string])
  \/
  (exists created d rest e,
     directories demo_cloner = created ++ d :: rest /\
     fst (setup_directories readonly_disk demo_cloner start) = Raise e /\
     trace (snd (setup_directories readonly_disk demo_cloner start))
     = trace start ++ map (fun d => IUnit (Mkdir d) None) created
       ++ [IUnit (Mkdir d) (Some e)] /\
     console (snd (setup_directories readonly_disk demo_cloner start)) = console start).
Proof.
  apply (setup_directories_stops_at_first_failure readonly_disk demo_cloner start
           (fst (setup_directories readonly_disk demo_cloner start))
           (snd (setup_directories readonly_disk demo_cloner start))).
  vm_compute. reflexivity.
Defined.

(** ** The cookie banner *)

Lemma close_cookie_popup_run w l s :
  fst (close_cookie_popup w l s) = Ok tt /\
  assets (snd (close_cookie_popup w l s)) = assets s /\
  ((exists errs,
      length errs = length l /\
      trace (snd (close_cookie_popup w l s)) = trace s ++ failed_clicks l errs /\
      console (snd (close_cookie_popup w l s)) = console s) \/
   (exists tried sel rest errs,
      l = tried ++ sel :: rest /\ length errs = length tried /\
      trace (snd (close_cookie_popup w l s))
      = trace s ++ failed_clicks tried errs ++ [IUnit (Click sel 1000) None] /\
      console (snd (close_cookie_popup w l s))
      = console s ++ [Line "✅ Closed cookie popup"])).
Proof.
  revert s. induction l as [|sel l IH]; intros s.
  - simpl. splits; try reflexivity. left. exists []. simpl. now rewrite app_nil_r.
  - destruct (w_unit w (length (trace s)) (Click sel 1000)) as [e|] eqn:E.
    + assert (R : close_cookie_popup w (sel :: l) s
                  = close_cookie_popup w l (record (IUnit (Click sel 1000) (Some e)) s)).
      { simpl. unfold bind at 1. unfold try_bare, bind, call. rewrite E. reflexivity. }
      rewrite R. destruct (IH (record (IUnit (Click sel 1000) (Some e)) s))
        as (Hr & Ha & [(errs & L & T & C)|(tried & sel' & rest & errs & -> & L & T & C)]).
      * splits; [exact Hr|exact Ha|]. left. exists (e :: errs). splits.
        -- simpl. now rewrite L.
        -- rewrite T. simpl. rewrite <- app_assoc. reflexivity.
        -- exact C.
      * splits; [exact Hr|exact Ha|]. right. exists (sel :: tried), sel', rest, (e :: errs).
        splits.
        -- reflexivity.
        -- simpl. now rewrite L.
        -- rewrite T. simpl. rewrite <- app_assoc. reflexivity.
        -- exact C.
    + assert (R : close_cookie_popup w (sel :: l) s
                  = (Ok tt, mkState (assets s) (trace s ++ [IUnit (Click sel 1000) None])
                              (console s ++ [Line "✅ Closed cookie popup"]))).
      { simpl. unfold bind at 1. unfold try_bare, bind, call. rewrite E. reflexivity. }
      rewrite R. simpl. splits; try reflexivity.
      right. exists [], sel, l, []. splits; reflexivity.
Qed.

(** X7.  The cookie-banner block of [clone] never fails and never raises,
    whatever a click raises (its [except:] is bare, so even an exception that
    is not an [Exception] is swallowed).  It tries the selectors in order and
    stops at the first click that does not raise: either every selector was
    tried and raised, and nothing is printed; or the clicks before one
    selector raised, that selector's click succeeded, it is the last call of
    the block, and the line [Closed cookie popup] is printed once. *)
Theorem cookie_dismissal_never_fails w l s :
  fst (try_bare (close_cookie_popup w l) (ret tt) s) = Ok tt /\
  assets (snd (try_bare (close_cookie_popup w l) (ret tt) s)) = assets s /\
  ((exists errs,
      length errs = length l /\
      trace (snd (try_bare (close_cookie_popup w l) (ret tt) s))
      = trace s ++ failed_clicks l errs /\
      console (snd (try_bare (close_cookie_popup w l) (ret tt) s)) = console s) \/
   (exists tried sel rest errs,
      l = tried ++ sel :: rest /\ length errs = length tried /\
      trace (snd (try_bare (close_cookie_popup w l) (ret tt) s))
      = trace s ++ failed_clicks tried errs ++ [IUnit (Click sel 1000) None] /\
      console (snd (try_bare (close_cookie_popup w l) (ret tt) s))
      = console s ++ [Line "✅ Closed cookie popup"])).
Proof.
  pose proof (close_cookie_popup_run w l s) as H.
  assert (E : try_bare (close_cookie_popup w l) (ret tt) s = close_cookie_popup w l s).
  { unfold try_bare. destruct H as (Hr & _).
    destruct (close_cookie_popup w l s) as [[[]|e|] s1]; simpl in Hr;
      try discriminate; reflexivity. }
  rewrite E. exact H.
Qed.

(** ** The registry outside discovery *)

(** X8.  Only [extract_assets_from_page] changes the registry.  Creating the
    directories, opening the page, downloading the assets, saving the HTML,
    taking the screenshots and writing the manifest each leave
    [self.assets] exactly as they found it, whatever the outside world
    answers and whether they return, raise or run on. *)
Theorem registry_changes_only_in_discovery py w self fuel s :
  assets (snd (setup_directories w self s)) = assets s /\
  assets (snd (open_page w self s)) = assets s /\
  assets (snd (download_assets py w self s)) = assets s /\
  assets (snd (save_html w self s)) = assets s /\
  assets (snd (take_screenshots w self fuel s)) = assets s /\
  assets (snd (save_metadata w self s)) = assets s.
Proof.
  splits.
  - apply keeps_setup_directories.
  - apply keeps_open_page.
  - apply keeps_download_assets.
  - apply keeps_save_html.
  - apply keeps_take_screenshots.
  - apply keeps_save_metadata.
Qed.

(** ** Discovery, run twice *)

(** What the page answered for a category, as discovery enters it in the
    registry. *)
Lemma In_get_collect py self r c j i v f k x :
  In x (get k (collect py self r c j i v f)) <->
  In x (get k r) \/
  In x match k with
       | css => c
       | js => j
       | images => i
       | fonts => map (resolve_font py self) f
       | svgs => v
       end.
Proof. destruct k; simpl; apply in_app_iff. Qed.

Lemma discovery_calls_inj c j i v f c' j' i' v' f' :
  discovery_calls c j i v f = discovery_calls c' j' i' v' f' ->
  c = c' /\ j = j' /\ i = i' /\ v = v' /\ f = f'.
Proof. unfold discovery_calls. intros H. injection H. auto. Qed.

(** X9.  Discovery is idempotent on a page that does not change: when
    [extract_assets_from_page] is run a second time on the same cloner and
    the five snippets answer as they did the first time, every category of
    the registry holds the same URLs as after the first run, as many of them,
    and still without duplicates. *)
Theorem discovery_twice_finds_the_same_assets py w self s s1 s2 evs :
  extract_assets_from_page py w self s = (Ok tt, s1) ->
  extract_assets_from_page py w self s1 = (Ok tt, s2) ->
  trace s1 = trace s ++ evs ->
  trace s2 = trace s1 ++ evs ->
  forall k,
    (forall x, In x (get k (assets s2)) <-> In x (get k (assets s1))) /\
    length (get k (assets s2)) = length (get k (assets s1)) /\
    NoDup (get k (assets s2)).
Proof.
  intros H1 H2 T1 T2 k.
  apply extract_assets_from_page_Ok in H1. destruct H1 as (c & j & i & v & f & E1 & A1).
  apply extract_assets_from_page_Ok in H2.
  destruct H2 as (c' & j' & i' & v' & f' & E2 & A2).
  rewrite T1 in E1. apply app_inv_head in E1.
  rewrite T2 in E2. apply app_inv_head in E2.
  rewrite E1 in E2. apply discovery_calls_inj in E2.
  destruct E2 as (<- & <- & <- & <- & <-).
  assert (M : forall x, In x (get k (assets s2)) <-> In x (get k (assets s1))).
  { intros x. rewrite A2, get_dedup, list_set_In, In_get_collect.
    rewrite A1 at 1. rewrite A1, !get_dedup, !list_set_In, In_get_collect. tauto. }
  assert (N1 : NoDup (get k (assets s1))) by (rewrite A1; apply dedup_NoDup).
  assert (N2 : NoDup (get k (assets s2))) by (rewrite A2; apply dedup_NoDup).
  splits; [exact M| |exact N2].
  apply Permutation_length, NoDup_Permutation; assumption.
Qed.

Lemma discovery_twice_finds_the_same_assets_witness :
  (forall x,
     In x (get css (assets (snd (extract_assets_from_page demo_py calm demo_cloner
                                   calm_discovered))))
     <-> In x (get css (assets calm_discovered))) /\
  length (get css (assets (snd (extract_assets_from_page demo_py calm demo_cloner
                                  calm_discovered))))
  = length (get css (assets calm_discovered)) /\
  NoDup (get css (assets (snd (extract_assets_from_page demo_py calm demo_cloner
                                 calm_discovered)))).
Proof.
  apply (discovery_twice_finds_the_same_assets demo_py calm demo_cloner start
           calm_discovered
           (snd (extract_assets_from_page demo_py calm demo_cloner calm_discovered))
           (discovery_calls ["https://x/a.css"; "https://x/a.css"] ["https://x/app.js"]
              ["https://x/logo.png"; "https://x/missing"] [] ["/f/font.ttf"]));
    vm_compute; reflexivity.
Defined.

(** ** [download_file]: what its result tells *)

(** X10.  [download_file] returns [True] exactly when the request was
    answered with status 200, the body could be read and the file could be
    written; its calls are then the request and the write, and the fetched
    bytes are on disk at the given path.  In every other case the disk is
    left exactly as it was, with one exception: a write that fails after the
    file was opened leaves a truncated file at the path, and the result is
    not [True]. *)
Theorem download_file_returns_True_iff_stored w u p s :
  exists evs,
    trace (snd (download_file w u p s)) = trace s ++ evs /\
    (fst (download_file w u p s) = Ok (Some true) <->
     exists b, w_get w (length (trace s)) u = HttpStatus 200 (inr b) /\
               w_file w (S (length (trace s))) p = FileOk) /\
    (fst (download_file w u p s) = Ok (Some true) ->
     exists b,
       evs = [IGet u (HttpStatus 200 (inr b)); IFile AssetFile p (Raw b) FileOk] /\
       forall fs, fs_after fs evs p = Some (File (Raw b))) /\
    (fst (download_file w u p s) <> Ok (Some true) ->
     (forall fs q, fs_after fs evs q = fs q) \/
     (exists b e,
        evs = [IGet u (HttpStatus 200 (inr b));
               IFile AssetFile p (Raw b) (WriteFailed e)] /\
        forall fs,
          fs_after fs evs p = Some (File Truncated) /\
          forall q, q <> p -> fs_after fs evs q = fs q)).
Proof.
  unfold download_file, try_except, bind, http_get.
  destruct (w_get w (length (trace s)) u) as [e|status [e|b]] eqn:G; simpl.
  - exists [IGet u (HttpRaise e)].
    destruct (is_Exception e) eqn:X; simpl; splits; try reflexivity; try discriminate;
      try (split; [discriminate|intros (b0 & H & _); discriminate H]);
      try (intros _; left; reflexivity).
  - exists [IGet u (HttpStatus status (inl e))].
    destruct (status =? 200)%Z; simpl;
      [destruct (is_Exception e) eqn:X; simpl|];
      splits; try reflexivity; try discriminate;
      try (split; [discriminate|intros (b0 & H & _); discriminate H]);
      try (intros _; left; reflexivity).
  - destruct (Z.eqb_spec status 200) as [->|N]; simpl.
    + unfold write_file. simpl. rewrite length_app. simpl. rewrite Nat.add_1_r.
      destruct (w_file w (S (length (trace s))) p) as [|e|e] eqn:F; simpl.
      * exists [IGet u (HttpStatus 200 (inr b)); IFile AssetFile p (Raw b) FileOk].
        splits.
        -- now rewrite <- app_assoc.
        -- split; [intros _; eauto|reflexivity].
        -- intros _. exists b. split; [reflexivity|].
           intros fs. simpl. unfold put. now rewrite String.eqb_refl.
        -- intros H. now contradiction H.
      * exists [IGet u (HttpStatus 200 (inr b)); IFile AssetFile p (Raw b) (OpenFailed e)].
        destruct (is_Exception e) eqn:X; simpl; splits;
          try (now rewrite <- app_assoc); try discriminate;
          try (split; [discriminate|intros (b0 & _ & H); discriminate H]);
          try (intros _; left; reflexivity).
      * exists [IGet u (HttpStatus 200 (inr b)); IFile AssetFile p (Raw b) (WriteFailed e)].
        assert (T : forall fs,
                  fs_after fs [IGet u (HttpStatus 200 (inr b));
                               IFile AssetFile p (Raw b) (WriteFailed e)] p
                  = Some (File Truncated) /\
                  forall q, q <> p ->
                    fs_after fs [IGet u (HttpStatus 200 (inr b));
                                 IFile AssetFile p (Raw b) (WriteFailed e)] q = fs q).
        { intros fs. simpl. unfold put. rewrite String.eqb_refl. split; [reflexivity|].
          intros q Hq. apply String.eqb_neq in Hq. now rewrite Hq. }
        destruct (is_Exception e) eqn:X; simpl; splits;
          try (now rewrite <- app_assoc); try discriminate;
          try (split; [discriminate|intros (b0 & _ & H); discriminate H]);
          try (intros _; right; exists b, e; split; [reflexivity|exact T]).
    + exists [IGet u (HttpStatus status (inr b))].
      splits; try reflexivity; try discriminate.
      * split; [discriminate|]. intros (b' & H & _). injection H as H _. contradiction.
      * intros _. left. reflexivity.
Qed.

(** ** [download_assets]: failures stay inside *)



(** ** A page of constant height *)

Lemma scroll_targets_app a b :
  scroll_targets (a ++ b) = scroll_targets a ++ scroll_targets b.
Proof.
  induction a as [|x a IH]; simpl; [reflexivity|].
  destruct x as [[] ?| | | | |]; simpl; rewrite IH; reflexivity.
Qed.

Lemma measured_heights_app a b :
  measured_heights (a ++ b) = measured_heights a ++ measured_heights b.
Proof.
  induction a as [|x a IH]; simpl; [reflexivity|].
  destruct x as [| |[] []| | |]; simpl; rewrite IH; reflexivity.
Qed.

Lemma scroll_targets_loop_calls pos v hs :
  scroll_targets (loop_calls pos v hs)
  = map (fun k => (pos + Z.of_nat k * v)%Z) (seq 0 (length hs)).
Proof.
  revert pos. induction hs as [|h hs IH]; intros pos; simpl; [reflexivity|].
  rewrite IH, <- seq_shift, map_map. f_equal; [lia|].
  apply map_ext. intros k. rewrite Nat2Z.inj_succ. ring.
Qed.

Lemma measured_heights_loop_calls pos v hs : measured_heights (loop_calls pos v hs) = hs.
Proof.
  revert pos. induction hs as [|h hs IH]; intros pos; simpl; [reflexivity|].
  now rewrite IH.
Qed.

Lemma constant_loop_guard pos v h hs :
  Forall (fun x => x = h) hs -> loop_guard pos v h hs ->
  (h <= pos + Z.of_nat (length hs) * v)%Z /\
  forall k, k < length hs -> (pos + Z.of_nat k * v < h)%Z.
Proof.
  revert pos. induction hs as [|x hs IH]; intros pos F G.
  - simpl in *. split; [lia|]. intros k Hk. lia.
  - inversion F as [|? ? -> F']; subst. cbn [loop_guard] in G. destruct G as [Hlt G].
    destruct (IH _ F' G) as [Hle Hk]. cbn [length]. split.
    + rewrite Nat2Z.inj_succ. lia.
    + intros [|k] Hlen; [simpl; lia|]. specialize (Hk k).
      rewrite Nat2Z.inj_succ. lia.
Qed.

(** X12.  On a page whose height does not change while it is scrolled, say
    [h], [scroll_page_fully] scrolls to the positions [0], [v], [2v], ... (the
    multiples of the viewport height [v] the page reported), to each one that
    is below [h] and to no other, and then back to [0]: the first multiple
    that is not below [h] ends the loop, so no part of the page is skipped,
    and a page of height zero is not scrolled at all before the return to
    the top. *)
Theorem constant_height_page_is_scrolled_in_viewport_steps w fuel s s' evs h :
  scroll_page_fully w fuel s = (Ok tt, s') ->
  trace s' = trace s ++ evs ->
  Forall (fun x => x = h) (measured_heights evs) ->
  exists v n,
    In (INum InnerHeight (inr v)) evs /\
    scroll_targets evs = map (fun k => (Z.of_nat k * v)%Z) (seq 0 n) ++ [0%Z] /\
    (h <= Z.of_nat n * v)%Z /\
    (forall k, k < n -> (Z.of_nat k * v < h)%Z) /\
    ((h <= 0)%Z -> n = 0).
Proof.
  intros H T F. apply scroll_page_fully_Ok in H. destruct H as (h0 & v & hs & T' & G).
  rewrite T in T'. apply app_inv_head in T'. subst evs.
  simpl in F. rewrite measured_heights_app, measured_heights_loop_calls in F.
  apply Forall_cons_iff in F. destruct F as [Hx F']. subst h0.
  apply Forall_app in F'. destruct F' as [F' _].
  destruct (constant_loop_guard 0 v h hs F' G) as [Hle Hk].
  exists v, (length hs). splits.
  - right. now left.
  - simpl. rewrite scroll_targets_app, scroll_targets_loop_calls. reflexivity.
  - lia.
  - intros k Hlt. specialize (Hk k Hlt). lia.
  - intros Hh. destruct hs as [|x hs]; [reflexivity|]. simpl in G. lia.
Qed.

Lemma constant_height_page_is_scrolled_in_viewport_steps_witness :
  exists v n,
    In (INum InnerHeight (inr v)) (trace (snd (scroll_page_fully calm 10 start))) /\
    scroll_targets (trace (snd (scroll_page_fully calm 10 start)))
    = map (fun k => (Z.of_nat k * v)%Z) (seq 0 n) ++ [0%Z] /\
    (2000 <= Z.of_nat n * v)%Z /\
    (forall k, k < n -> (Z.of_nat k * v < 2000)%Z) /\
    ((2000 <= 0)%Z -> n = 0).
Proof.
  apply (constant_height_page_is_scrolled_in_viewport_steps calm 10 start
           (snd (scroll_page_fully calm 10 start))
           (trace (snd (scroll_page_fully calm 10 start))) 2000%Z).
  - vm_compute. reflexivity.
  - vm_compute. reflexivity.
  - vm_compute. repeat constructor.
Defined.

(** ** A run that reached [browser.close()] *)

Section Completed.

Variable py : PyLib.
Variable w : World.
Variable self : Cloner.

Lemma save_metadata_Ok s s' :
  save_metadata w self s = (Ok tt, s') ->
  assets s' = assets s /\
  trace s' = trace s
             ++ [IFile ManifestFile (metadata_json self)
                   (Json (metadata_of self (assets s))) FileOk].
Proof.
  unfold save_metadata. intros H.
  invert_bind H as s1 R1 K1; try discriminate.
  injection R1 as <- <-.
  invert_bind K1 as s2 R2 K2; try discriminate.
  apply write_file_run in R2. destruct R2 as (A2 & _ & x & T2 & Hx).
  apply print_run in K2. destruct K2 as (_ & A3 & T3 & _).
  destruct Hx as [Hx _]. specialize (Hx eq_refl). subst x.
  split; [congruence|]. now rewrite T3, T2.
Qed.

(** [capture], as what comes before [browser.close()] followed by it. *)
Lemma capture_split fuel s :
  capture py w self fuel s
  = ((extract_assets_from_page py w self ;;
      download_assets py w self ;;
      save_html w self ;;
      take_screenshots w self fuel ;;
      save_metadata w self ;;
      print (nl ++ "✅ Web cloning completed! All files saved to: "
               ++ output_dir self ++ "/")) ;;
     call w BrowserClose) s.
Proof.
  unfold capture, bind.
  destruct (extract_assets_from_page py w self s) as [[[]|e|] s1]; try reflexivity.
  destruct (download_assets py w self s1) as [[[]|e|] s2]; try reflexivity.
  destruct (save_html w self s2) as [[[]|e|] s3]; try reflexivity.
  destruct (take_screenshots w self fuel s3) as [[[]|e|] s4]; try reflexivity.
  destruct (save_metadata w self s4) as [[[]|e|] s5]; try reflexivity.
Qed.

Lemma emits_before_close fuel :
  emits 8 16
    (extract_assets_from_page py w self ;;
     download_assets py w self ;;
     save_html w self ;;
     take_screenshots w self fuel ;;
     save_metadata w self ;;
     print (nl ++ "✅ Web cloning completed! All files saved to: "
              ++ output_dir self ++ "/")).
Proof. emits_go. Qed.

(** [browser.close()] is called, and returns, only when [capture] returns. *)
Lemma capture_closed fuel s r s' evs :
  capture py w self fuel s = (r, s') ->
  trace s' = trace s ++ evs ->
  In (IUnit BrowserClose None) evs ->
  r = Ok tt.
Proof.
  rewrite capture_split. intros H T Hin.
  pose proof (emits_before_close fuel) as E.
  invert_bind H as s1 R K;
    destruct (emits_run _ _ _ _ _ _ E R) as (e1 & T1 & S1).
  - apply call_run in K. destruct K as (_ & _ & [[-> _]|(e & _ & T2)]); [reflexivity|].
    rewrite T2, T1, <- app_assoc in T. apply app_inv_head in T. subst evs.
    apply in_app_or in Hin. destruct Hin as [Hin|[Hin|[]]]; [|discriminate].
    exfalso. revert Hin. apply (staged_no_stage 8 16); [exact S1|simpl; lia].
  - rewrite T1 in T. apply app_inv_head in T. subst evs.
    exfalso. revert Hin. apply (staged_no_stage 8 16); [exact S1|simpl; lia].
  - rewrite T1 in T. apply app_inv_head in T. subst evs.
    exfalso. revert Hin. apply (staged_no_stage 8 16); [exact S1|simpl; lia].
Qed.

End Completed.

Lemma fs_after_last_write pre i post fs p e :
  (forall fs0, effect i fs0 p = Some e) ->
  (forall z, In z post -> reaches z p = false) ->
  fs_after fs (pre ++ i :: post) p = Some e.
Proof.
  intros Hi Hpost. rewrite fs_after_app. simpl.
  rewrite fs_after_untouched by exact Hpost. apply Hi.
Qed.

(** A call that is written out touches another path than [p], or none. *)
Ltac other_path :=
  simpl; try reflexivity;
  let E := fresh "E" in
  apply String.eqb_neq; intros E;
  unfold index_html, fullpage_png, viewport_png, metadata_json in E;
  apply append_inj_l in E; discriminate.

Ltac after_write Hscroll :=
  let z := fresh "z" in
  let Hz := fresh "Hz" in
  intros z Hz;
  repeat (apply in_app_or in Hz; destruct Hz as [Hz|Hz]);
  try (eapply scroll_untouched; [exact Hscroll|exact Hz]);
  simpl in Hz;
  repeat (destruct Hz as [<-|Hz]; [other_path|]);
  try contradiction.

Section Bundle.

Variable py : PyLib.
Variable w : World.
Variable self : Cloner.

Lemma capture_Ok fuel s s' :
  capture py w self fuel s = (Ok tt, s') ->
  exists before c scroll,
    trace s' = trace s ++ before
               ++ [IContent (inr c); IFile HtmlFile (index_html self) (Html c) FileOk]
               ++ scroll
               ++ [ IUnit (ScrollTo 0) None;
                    IUnit AwaitImages None; IUnit AwaitFontsReady None;
                    IUnit (Screenshot (fullpage_png self) true) None;
                    IUnit (Screenshot (viewport_png self) false) None ]
               ++ [ IFile ManifestFile (metadata_json self)
                      (Json (metadata_of self (assets s'))) FileOk;
                    IUnit BrowserClose None ] /\
    staged 8 9 before /\ Forall is_scroll scroll.
Proof.
  unfold capture. intros H.
  invert_bind H as s1 R1 K1; try discriminate.
  destruct (emits_run _ _ _ _ _ _ (emits_extract_assets_from_page py w self) R1)
    as (e1 & T1 & S1).
  invert_bind K1 as s2 R2 K2; try discriminate.
  destruct (emits_run _ _ _ _ _ _ (emits_download_assets py w self) R2)
    as (e2 & T2 & S2).
  invert_bind K2 as s3 R3 K3; try discriminate.
  apply save_html_run in R3.
  destruct R3 as (A3 & [(e & E & _)|(c & x & T3 & Hx)]); [discriminate|].
  destruct Hx as [Hx _]. specialize (Hx eq_refl). subst x.
  invert_bind K3 as s4 R4 K4; try discriminate.
  pose proof (keeps_run _ _ _ _ (keeps_take_screenshots w self fuel) R4) as A4.
  apply take_screenshots_Ok in R4. destruct R4 as (scroll & T4 & F4).
  invert_bind K4 as s5 R5 K5; try discriminate.
  apply save_metadata_Ok in R5. destruct R5 as (A5 & T5).
  invert_bind K5 as s6 R6 K6; try discriminate.
  apply print_run in R6. destruct R6 as (_ & A6 & T6 & _).
  apply call_run in K6. destruct K6 as (A7 & _ & [[_ T7]|(e & E & _)]); [|discriminate].
  exists (e1 ++ e2), c, scroll. splits.
  - rewrite T7, T6, T5, T4, T3, T2, T1.
    replace (assets s') with (assets s4) by congruence.
    repeat rewrite <- app_assoc. reflexivity.
  - apply (staged_app 8 8 9); [lia|lia|exact S1|].
    eapply staged_weaken; [| |exact S2]; lia.
  - exact F4.
Qed.

(** What a completed [capture] leaves on disk. *)
Lemma capture_bundle fuel s s' :
  capture py w self fuel s = (Ok tt, s') ->
  exists evs c,
    trace s' = trace s ++ evs /\
    In (IContent (inr c)) evs /\
    forall fs,
      fs_after fs evs (index_html self) = Some (File (Html c)) /\
      fs_after fs evs (fullpage_png self) = Some (File (Png true)) /\
      fs_after fs evs (viewport_png self) = Some (File (Png false)) /\
      fs_after fs evs (metadata_json self)
      = Some (File (Json (metadata_of self (assets s')))).
Proof.
  intros H. apply capture_Ok in H. destruct H as (before & c & scroll & T & S & F).
  eexists. exists c. split; [exact T|]. split.
  { apply in_or_app. right. now left. }
  set (shots := [IUnit (ScrollTo 0) None; IUnit AwaitImages None;
                 IUnit AwaitFontsReady None]).
  set (full := IUnit (Screenshot (fullpage_png self) true) None).
  set (view := IUnit (Screenshot (viewport_png self) false) None).
  set (html := IFile HtmlFile (index_html self) (Html c) FileOk).
  set (manifest := IFile ManifestFile (metadata_json self)
                     (Json (metadata_of self (assets s'))) FileOk).
  set (close := IUnit BrowserClose None).
  intros fs. splits.
  - replace (before ++ [IContent (inr c); html] ++ scroll
             ++ [IUnit (ScrollTo 0) None; IUnit AwaitImages None;
                 IUnit AwaitFontsReady None; full; view] ++ [manifest; close])
      with ((before ++ [IContent (inr c)])
            ++ html :: (scroll ++ shots ++ [full; view] ++ [manifest; close]))
      by (repeat rewrite <- app_assoc; reflexivity).
    apply fs_after_last_write.
    + intros fs0. simpl. unfold put. now rewrite String.eqb_refl.
    + subst shots full view manifest close. after_write F.
  - replace (before ++ [IContent (inr c); html] ++ scroll
             ++ [IUnit (ScrollTo 0) None; IUnit AwaitImages None;
                 IUnit AwaitFontsReady None; full; view] ++ [manifest; close])
      with ((before ++ [IContent (inr c); html] ++ scroll ++ shots)
            ++ full :: ([view] ++ [manifest; close]))
      by (repeat rewrite <- app_assoc; reflexivity).
    apply fs_after_last_write.
    + intros fs0. simpl. unfold put. now rewrite String.eqb_refl.
    + subst view manifest close. after_write F.
  - replace (before ++ [IContent (inr c); html] ++ scroll
             ++ [IUnit (ScrollTo 0) None; IUnit AwaitImages None;
                 IUnit AwaitFontsReady None; full; view] ++ [manifest; close])
      with ((before ++ [IContent (inr c); html] ++ scroll ++ shots ++ [full])
            ++ view :: [manifest; close])
      by (repeat rewrite <- app_assoc; reflexivity).
    apply fs_after_last_write.
    + intros fs0. simpl. unfold put. now rewrite String.eqb_refl.
    + subst manifest close. after_write F.
  - replace (before ++ [IContent (inr c); html] ++ scroll
             ++ [IUnit (ScrollTo 0) None; IUnit AwaitImages None;
                 IUnit AwaitFontsReady None; full; view] ++ [manifest; close])
      with ((before ++ [IContent (inr c); html] ++ scroll ++ shots ++ [full; view])
            ++ manifest :: [close])
      by (repeat rewrite <- app_assoc; reflexivity).
    apply fs_after_last_write.
    + intros fs0. simpl. unfold put. now rewrite String.eqb_refl.
    + subst close. after_write F.
Qed.

End Bundle.

Lemma exit_untouched post p z :
  (forall z, In z post -> stage z = 18) -> In z post -> reaches z p = false.
Proof.
  intros H Hz. specialize (H z Hz).
  destruct z as [[] []| | | | |[] ? ? []]; simpl in *; try discriminate; reflexivity.
Qed.

(** X13.  A run of [clone] in which [browser.close()] was called and
    returned has produced the whole bundle: when the run ends, [index.html]
    holds the content the page returned, [screenshots/fullpage.png] and
    [screenshots/viewport.png] hold the full-page and the viewport screenshot,
    and [metadata.json] holds the manifest of the final registry; nothing the
    run did afterwards or in between overwrote them. *)
Theorem completed_run_leaves_the_whole_bundle py w self fuel s r final evs :
  clone py w self fuel s = (r, final) ->
  trace final = trace s ++ evs ->
  In (IUnit BrowserClose None) evs ->
  exists c,
    In (IContent (inr c)) evs /\
    forall fs,
      fs_after fs evs (index_html self) = Some (File (Html c)) /\
      fs_after fs evs (fullpage_png self) = Some (File (Png true)) /\
      fs_after fs evs (viewport_png self) = Some (File (Png false)) /\
      fs_after fs evs (metadata_json self)
      = Some (File (Json (metadata_of self (assets final)))).
Proof.
  intros H T Hin. apply clone_run in H.
  destruct H as [(pre & T1 & S1)
                |(pre & sa & rb & sb & post & Ta & S1 & Aa & Hb & Tf & Hpost & Af & _)].
  { rewrite T1 in T. apply app_inv_head in T. subst evs.
    exfalso. revert Hin. apply (staged_no_stage 0 1); [exact S1|simpl; lia]. }
  assert (Hpre : ~ In (IUnit BrowserClose None) pre)
    by (apply (staged_no_stage 0 1); [exact S1|simpl; lia]).
  assert (Hpost' : ~ In (IUnit BrowserClose None) post)
    by (intros Hz; apply Hpost in Hz; discriminate).
  invert_bind Hb as s1 R K;
    destruct (emits_run _ _ _ _ _ _ (emits_open_page w self) R) as (e1 & T1 & S1');
    assert (He1 : ~ In (IUnit BrowserClose None) e1)
      by (apply (staged_no_stage 2 7); [exact S1'|simpl; lia]).
  - destruct (emits_run _ _ _ _ _ _ (emits_capture py w self fuel) K) as (e2 & T2 & S2).
    assert (E : evs = pre ++ e1 ++ e2 ++ post).
    { rewrite Tf, T2, T1, Ta in T. repeat rewrite <- app_assoc in T.
      apply app_inv_head in T. now symmetry. }
    subst evs.
    assert (Hin2 : In (IUnit BrowserClose None) e2).
    { apply in_app_or in Hin. destruct Hin as [Hin|Hin]; [contradiction|].
      apply in_app_or in Hin. destruct Hin as [Hin|Hin]; [contradiction|].
      apply in_app_or in Hin. destruct Hin as [Hin|Hin]; [exact Hin|contradiction]. }
    pose proof (capture_closed py w self fuel s1 rb sb e2 K T2 Hin2) as ->.
    destruct (capture_bundle py w self fuel s1 sb K) as (e2' & c & T2' & Hc & Hfs).
    rewrite T2 in T2'. apply app_inv_head in T2'. subst e2'.
    exists c. split.
    { apply in_or_app. right. apply in_or_app. right. apply in_or_app. now left. }
    intros fs. rewrite Af.
    rewrite (app_assoc pre e1), (app_assoc (pre ++ e1) e2).
    rewrite (fs_after_app _ post).
    rewrite !(fs_after_untouched post) by (intros z Hz; eapply exit_untouched; eauto).
    rewrite !(fs_after_app (pre ++ e1) e2). apply Hfs.
  - exfalso. rewrite Tf, T1, Ta in T. repeat rewrite <- app_assoc in T.
    apply app_inv_head in T. subst evs.
    apply in_app_or in Hin. destruct Hin as [Hin|Hin]; [contradiction|].
    apply in_app_or in Hin. destruct Hin as [Hin|Hin]; contradiction.
  - exfalso. rewrite Tf, T1, Ta in T. repeat rewrite <- app_assoc in T.
    apply app_inv_head in T. subst evs.
    apply in_app_or in Hin. destruct Hin as [Hin|Hin]; [contradiction|].
    apply in_app_or in Hin. destruct Hin as [Hin|Hin]; contradiction.
Qed.

Lemma completed_run_leaves_the_whole_bundle_witness :
  exists c,
    In (IContent (inr c)) (trace (snd (clone demo_py calm demo_cloner 10 start))) /\
    forall fs,
      fs_after fs (trace (snd (clone demo_py calm demo_cloner 10 start)))
        (index_html demo_cloner) = Some (File (Html c)) /\
      fs_after fs (trace (snd (clone demo_py calm demo_cloner 10 start)))
        (fullpage_png demo_cloner) = Some (File (Png true)) /\
      fs_after fs (trace (snd (clone demo_py calm demo_cloner 10 start)))
        (viewport_png demo_cloner) = Some (File (Png false)) /\
      fs_after fs (trace (snd (clone demo_py calm demo_cloner 10 start)))
        (metadata_json demo_cloner)
      = Some (File (Json (metadata_of demo_cloner
                            (assets (snd (clone demo_py calm demo_cloner 10 start)))))).
Proof.
  apply (completed_run_leaves_the_whole_bundle demo_py calm demo_cloner 10 start
           (fst (clone demo_py calm demo_cloner 10 start))
           (snd (clone demo_py calm demo_cloner 10 start))
           (trace (snd (clone demo_py calm demo_cloner 10 start)))).
  - vm_compute. reflexivity.
  - vm_compute. reflexivity.
  - vm_compute. repeat (first [left; reflexivity | right]).
Defined.

(** ** What [clone] raises *)

(** X14.  On a console that takes every message (no [print] raises), an
    exception that reaches the caller of [clone] is either not an instance
    of [Exception] (the handler of [clone] catches every [Exception] raised
    inside the [try] statement), or it was raised outside the [try]
    statement: by a [mkdir] of [setup_directories], on entering the
    Playwright context, or on leaving it. *)
Theorem clone_raises_only_what_it_cannot_catch py w self fuel s final evs e :
  clone py w self fuel s = (Raise e, final) ->
  trace final = trace s ++ evs ->
  is_Exception e = false \/
  (exists d, In (IUnit (Mkdir d) (Some e)) evs) \/
  In (IUnit PlaywrightStart (Some e)) evs \/
  In (IUnit PlaywrightStop (Some e)) evs.
Proof.
  unfold clone. intros H T.
  invert_bind H as s1 R1 K1; try (apply print_run in R1; destruct R1; discriminate).
  apply print_run in R1. destruct R1 as (_ & _ & T1 & _).
  invert_bind K1 as s2 R2 K2; try discriminate.
  2: { (* a directory could not be created *)
    injection K2 as <-. right. left.
    unfold setup_directories in R2.
    invert_bind R2 as s3 R3 K3; try discriminate.
    injection K3 as <-. apply for_each_mkdir_run in R3.
    destruct R3 as (_ & [[E _]|(created & d & rest & e' & _ & E & T3)]); [discriminate|].
    injection E as <-. exists d.
    rewrite T3, T1 in T. apply app_inv_head in T. subst evs.
    apply in_or_app. right. now left. }
  destruct (emits_run _ _ _ _ _ _ (emits_setup_directories w self) R2) as (e2 & T2 & _).
  invert_bind K2 as s3 R3 K3; try discriminate.
  2: { (* the Playwright context could not be entered *)
    injection K3 as <-. right. right. left.
    apply call_run in R3. destruct R3 as (_ & _ & [[E _]|(e' & E & T3)]); [discriminate|].
    injection E as <-.
    rewrite T3, T2, T1, <- app_assoc in T. apply app_inv_head in T. subst evs.
    apply in_or_app. right. now left. }
  apply call_run in R3. destruct R3 as (_ & _ & [[_ T3]|(e' & E & _)]); [|discriminate].
  assert (stop : forall A (k : M A) sx,
            (forall s0 r0 s0', k s0 = (r0, s0') -> s0' = s0) ->
            (call w PlaywrightStop ;; k) sx = (Raise e, final) ->
            trace sx = trace s3 ++ skipn (length (trace s3)) (trace sx) ->
            In (IUnit PlaywrightStop (Some e)) evs \/ k final = (Raise e, final)).
  { intros A k sx Hk Hx Tx. invert_bind Hx as s5 R5 K5; try discriminate.
    - right. pose proof (Hk _ _ _ K5) as ->. exact K5.
    - injection K5 as <-. left.
      apply call_run in R5. destruct R5 as (_ & _ & [[E _]|(e' & E & T5)]); [discriminate|].
      injection E as <-.
      rewrite T5, Tx, T3, T2, T1 in T. repeat rewrite <- app_assoc in T.
      apply app_inv_head in T. subst evs.
      apply in_or_app. right. apply in_or_app. right. apply in_or_app. right. now left. }
  assert (grows : forall sx rx,
            try_except (open_page w self ;; capture py w self fuel) report s3 = (rx, sx) ->
            trace sx = trace s3 ++ skipn (length (trace s3)) (trace sx)).
  { intros sx rx Hx.
    destruct (emits_run _ _ _ _ _ _ (emits_clone_try py w self fuel) Hx) as (ex & Tx & _).
    rewrite Tx at 1. f_equal. rewrite Tx, skipn_app, skipn_all, Nat.sub_diag. reflexivity. }
  apply with_exit_inv in K3.
  destruct K3 as [(a & s4 & B & X)|[(e' & s4 & B & X)|(B & X)]]; [| |discriminate].
  - (* the [try] statement returned *)
    apply (stop unit) in X.
    + destruct X as [X|X]; [now right; right; right|discriminate].
    + intros s0 r0 s0' Hr. unfold ret in Hr. congruence.
    + eapply grows; eauto.
  - (* the [try] statement raised: not an [Exception] *)
    pose proof (grows _ _ B) as G.
    apply (stop unit) in X; [|intros s0 r0 s0' Hr; unfold raise in Hr; congruence|exact G].
    destruct X as [X|X]; [now right; right; right|].
    unfold raise in X. injection X as X.
    apply try_except_inv in B.
    destruct B as [(a' & _ & ?)|[(e1 & s5 & _ & _ & Hh)|[(e1 & _ & He1 & E)|(_ & ?)]]];
      try discriminate.
    injection E as E. left. congruence.
Qed.

Lemma clone_raises_only_what_it_cannot_catch_witness :
  is_Exception PermissionError = false \/
  (exists d,
     In (IUnit (Mkdir d) (Some PermissionError))
        (trace (snd (clone demo_py readonly_disk demo_cloner 10 start)))) \/
  In (IUnit PlaywrightStart (Some PermissionError))
     (trace (snd (clone demo_py readonly_disk demo_cloner 10 start))) \/
  In (IUnit PlaywrightStop (Some PermissionError))
     (trace (snd (clone demo_py readonly_disk demo_cloner 10 start))).
Proof.
  apply (clone_raises_only_what_it_cannot_catch demo_py readonly_disk demo_cloner 10 start
           (snd (clone demo_py readonly_disk demo_cloner 10 start))).
  - vm_compute. reflexivity.
  - vm_compute. reflexivity.
Defined.

(** ** A failure of [browser.close()] *)

Section CloseFailure.

Variable py : PyLib.
Variable w : World.
Variable self : Cloner.

Lemma before_close_console fuel s s' :
  (extract_assets_from_page py w self ;;
   download_assets py w self ;;
   save_html w self ;;
   take_screenshots w self fuel ;;
   save_metadata w self ;;
   print (completion_line self)) s = (Ok tt, s') ->
  exists earlier, console s' = earlier ++ [Line (completion_line self)].
Proof.
  intros H.
  invert_bind H as s1 R1 K1; try discriminate.
  invert_bind K1 as s2 R2 K2; try discriminate.
  invert_bind K2 as s3 R3 K3; try discriminate.
  invert_bind K3 as s4 R4 K4; try discriminate.
  invert_bind K4 as s5 R5 K5; try discriminate.
  apply print_run in K5. destruct K5 as (_ & _ & _ & C). eauto.
Qed.

Lemma capture_close_failed fuel s r s' evs e :
  capture py w self fuel s = (r, s') ->
  trace s' = trace s ++ evs ->
  In (IUnit BrowserClose (Some e)) evs ->
  r = Raise e /\ exists earlier, console s' = earlier ++ [Line (completion_line self)].
Proof.
  rewrite capture_split. intros H T Hin.
  pose proof (emits_before_close py w self fuel) as E.
  invert_bind H as s1 R K;
    destruct (emits_run _ _ _ _ _ _ E R) as (e1 & T1 & S1).
  - apply before_close_console in R. destruct R as (earlier & C).
    apply call_run in K. destruct K as (_ & C' & K).
    assert (Hin' : forall x, trace s' = trace s1 ++ [IUnit BrowserClose x] -> x = Some e).
    { intros x T2. rewrite T2, T1, <- app_assoc in T. apply app_inv_head in T. subst evs.
      apply in_app_or in Hin. destruct Hin as [Hin|[Hin|[]]].
      - exfalso. revert Hin. apply (staged_no_stage 8 16); [exact S1|simpl; lia].
      - now injection Hin. }
    destruct K as [[_ T2]|(e' & -> & T2)]; apply Hin' in T2; [discriminate|].
    injection T2 as ->. split; [reflexivity|]. exists earlier. now rewrite C'.
  - rewrite T1 in T. apply app_inv_head in T. subst evs.
    exfalso. revert Hin. apply (staged_no_stage 8 16); [exact S1|simpl; lia].
  - rewrite T1 in T. apply app_inv_head in T. subst evs.
    exfalso. revert Hin. apply (staged_no_stage 8 16); [exact S1|simpl; lia].
Qed.

End CloseFailure.

(** X15.  The completion line is printed before [browser.close()] is called.
    So when [browser.close()] raises an [Exception], the run reports both:
    the console ends with the line [Web cloning completed! ...], followed by
    the line [Error during cloning: ...] with the exception's text and the
    traceback. *)
Theorem close_failure_is_reported_after_the_completion_line
    py w self fuel s r final evs e :
  clone py w self fuel s = (r, final) ->
  trace final = trace s ++ evs ->
  In (IUnit BrowserClose (Some e)) evs ->
  is_Exception e = true ->
  exists earlier,
    console final
    = earlier ++ [ Line (completion_line self);
                   Line ("❌ Error during cloning: " ++ exn_str e)%string;
                   Traceback e ].
Proof.
  intros H T Hin He. apply clone_run in H.
  destruct H as [(pre & T1 & S1)
                |(pre & sa & rb & sb & post & Ta & S1 & Aa & Hb & Tf & Hpost & Af & Hrep)].
  { rewrite T1 in T. apply app_inv_head in T. subst evs.
    exfalso. revert Hin. apply (staged_no_stage 0 1); [exact S1|simpl; lia]. }
  assert (Hpre : ~ In (IUnit BrowserClose (Some e)) pre)
    by (apply (staged_no_stage 0 1); [exact S1|simpl; lia]).
  assert (Hpost' : ~ In (IUnit BrowserClose (Some e)) post)
    by (intros Hz; apply Hpost in Hz; discriminate).
  invert_bind Hb as s1 R K;
    destruct (emits_run _ _ _ _ _ _ (emits_open_page w self) R) as (e1 & T1 & S1');
    assert (He1 : ~ In (IUnit BrowserClose (Some e)) e1)
      by (apply (staged_no_stage 2 7); [exact S1'|simpl; lia]).
  - destruct (emits_run _ _ _ _ _ _ (emits_capture py w self fuel) K) as (e2 & T2 & S2).
    assert (E : evs = pre ++ e1 ++ e2 ++ post).
    { rewrite Tf, T2, T1, Ta in T. repeat rewrite <- app_assoc in T.
      apply app_inv_head in T. now symmetry. }
    subst evs.
    assert (Hin2 : In (IUnit BrowserClose (Some e)) e2).
    { apply in_app_or in Hin. destruct Hin as [Hin|Hin]; [contradiction|].
      apply in_app_or in Hin. destruct Hin as [Hin|Hin]; [contradiction|].
      apply in_app_or in Hin. destruct Hin as [Hin|Hin]; [exact Hin|contradiction]. }
    destruct (capture_close_failed py w self fuel s1 rb sb e2 e K T2 Hin2)
      as (-> & earlier & C).
    destruct (Hrep e eq_refl He) as (Cf & _).
    exists earlier. rewrite Cf, C, <- app_assoc. reflexivity.
  - exfalso. rewrite Tf, T1, Ta in T. repeat rewrite <- app_assoc in T.
    apply app_inv_head in T. subst evs.
    apply in_app_or in Hin. destruct Hin as [Hin|Hin]; [contradiction|].
    apply in_app_or in Hin. destruct Hin as [Hin|Hin]; contradiction.
  - exfalso. rewrite Tf, T1, Ta in T. repeat rewrite <- app_assoc in T.
    apply app_inv_head in T. subst evs.
    apply in_app_or in Hin. destruct Hin as [Hin|Hin]; [contradiction|].
    apply in_app_or in Hin. destruct Hin as [Hin|Hin]; contradiction.
Qed.

Lemma close_failure_is_reported_after_the_completion_line_witness :
  exists earlier,
    console (snd (clone demo_py close_fails demo_cloner 10 start))
    = earlier ++ [ Line (completion_line demo_cloner);
                   Line ("❌ Error during cloning: " ++ exn_str TargetClosedError)%string;
                   Traceback TargetClosedError ].
Proof.
  apply (close_failure_is_reported_after_the_completion_line demo_py close_fails
           demo_cloner 10 start
           (fst (clone demo_py close_fails demo_cloner 10 start))
           (snd (clone demo_py close_fails demo_cloner 10 start))
           (trace (snd (clone demo_py close_fails demo_cloner 10 start)))).
  - vm_compute. reflexivity.
  - vm_compute. reflexivity.
  - vm_compute. repeat (first [left; reflexivity | right]).
  - reflexivity.
Defined.

(** ** What discovery prints *)

Section DiscoveryConsole.

Variable py : PyLib.
Variable w : World.
Variable self : Cloner.

(** X16.  The five counts that [extract_assets_from_page] prints are taken
    after the duplicates have been removed: when discovery returns, it has
    printed its heading and then, for stylesheets, scripts, images, fonts and
    vector graphics in this order, the number of URLs the registry now holds
    for the category - the numbers [save_metadata] will write as
    [css_count], [js_count], [images_count], [fonts_count] and
    [svgs_count]. *)
Theorem discovery_prints_the_deduplicated_counts s s' :
  extract_assets_from_page py w self s = (Ok tt, s') ->
  console s'
  = console s
    ++ [ Line (nl ++ "🔍 Extracting assets from page...")%string;
         Line ("✅ Found " ++ str (css_count (metadata_of self (assets s')))
               ++ " CSS files")%string;
         Line ("✅ Found " ++ str (js_count (metadata_of self (assets s')))
               ++ " JS files")%string;
         Line ("✅ Found " ++ str (images_count (metadata_of self (assets s')))
               ++ " images")%string;
         Line ("✅ Found " ++ str (fonts_count (metadata_of self (assets s')))
               ++ " fonts")%string;
         Line ("✅ Found " ++ str (svgs_count (metadata_of self (assets s')))
               ++ " SVGs")%string ].
Proof.
  unfold extract_assets_from_page. intros H.
  invert_bind H as s0 R0 K0; try discriminate.
  apply print_run in R0. destruct R0 as (_ & _ & _ & C0).
  invert_bind K0 as s1 R1 K1; try discriminate.
  apply evaluate_urls_run in R1.
  destruct R1 as (_ & C1 & [(c & E & _)|(e & E & _)]); [|discriminate].
  injection E as <-.
  invert_bind K1 as s2 R2 K2; try discriminate.
  unfold extend, bind, get_assets, set_assets in R2. injection R2 as <-.
  invert_bind K2 as s3 R3 K3; try discriminate.
  apply evaluate_urls_run in R3. simpl in R3.
  destruct R3 as (_ & C3 & [(j & E & _)|(e & E & _)]); [|discriminate].
  injection E as <-.
  invert_bind K3 as s4 R4 K4; try discriminate.
  unfold extend, bind, get_assets, set_assets in R4. injection R4 as <-.
  invert_bind K4 as s5 R5 K5; try discriminate.
  apply evaluate_urls_run in R5. simpl in R5.
  destruct R5 as (_ & C5 & [(i & E & _)|(e & E & _)]); [|discriminate].
  injection E as <-.
  invert_bind K5 as s6 R6 K6; try discriminate.
  unfold extend, bind, get_assets, set_assets in R6. injection R6 as <-.
  invert_bind K6 as s7 R7 K7; try discriminate.
  apply evaluate_urls_run in R7. simpl in R7.
  destruct R7 as (_ & C7 & [(v & E & _)|(e & E & _)]); [|discriminate].
  injection E as <-.
  invert_bind K7 as s8 R8 K8; try discriminate.
  unfold extend, bind, get_assets, set_assets in R8. injection R8 as <-.
  invert_bind K8 as s9 R9 K9; try discriminate.
  apply evaluate_urls_run in R9. simpl in R9.
  destruct R9 as (_ & C9 & [(f & E & _)|(e & E & _)]); [|discriminate].
  injection E as <-.
  invert_bind K9 as s10 R10 K10; try discriminate.
  rewrite for_each_fonts in R10. injection R10 as <-.
  invert_bind K10 as s11 R11 K11; try discriminate.
  simpl in R11. unfold bind, get_assets, set_assets, ret in R11. simpl in R11.
  injection R11 as <-.
  unfold found_line, bind, get_assets, print in K11. simpl in K11.
  injection K11 as <-.
  simpl. rewrite C9. simpl. rewrite C7. simpl. rewrite C5. simpl. rewrite C3. simpl.
  rewrite C1, C0. repeat rewrite <- app_assoc. reflexivity.
Qed.

End DiscoveryConsole.

Lemma discovery_prints_the_deduplicated_counts_witness :
  console calm_discovered
  = console start
    ++ [ Line (nl ++ "🔍 Extracting assets from page...")%string;
         Line ("✅ Found "
               ++ str (css_count (metadata_of demo_cloner (assets calm_discovered)))
               ++ " CSS files")%string;
         Line ("✅ Found "
               ++ str (js_count (metadata_of demo_cloner (assets calm_discovered)))
               ++ " JS files")%string;
         Line ("✅ Found "
               ++ str (images_count (metadata_of demo_cloner (assets calm_discovered)))
               ++ " images")%string;
         Line ("✅ Found "
               ++ str (fonts_count (metadata_of demo_cloner (assets calm_discovered)))
               ++ " fonts")%string;
         Line ("✅ Found "
               ++ str (svgs_count (metadata_of demo_cloner (assets calm_discovered)))
               ++ " SVGs")%string ].
Proof.
  apply (discovery_prints_the_deduplicated_counts demo_py calm demo_cloner start
           calm_discovered).
  vm_compute. reflexivity.
Defined.

(** ** [main] and the run it starts *)

(** X17.  Whatever the user types and whatever the outside world answers,
    every path the run started by [main] creates or overwrites starts with
    the directory name [main] derived from the URL: [cloned_] followed by
    the URL's host with its dots replaced by underscores. *)
Theorem main_writes_under_its_cloned_directory py w strip typed fuel i p :
  In i (trace (snd (main py w strip typed fuel))) ->
  touched i = Some p ->
  prefix ("cloned_" ++ replace_dots (netloc py (main_url strip typed)))%string p = true.
Proof.
  unfold main, run_clone. intros Hi Hp.
  destruct (layout_clone py w
              (fst (init py (main_url strip typed)
                      (main_output_dir py (main_url strip typed))))
              fuel
              (snd (init py (main_url strip typed)
                      (main_output_dir py (main_url strip typed)))))
    as (evs & E & F).
  rewrite E in Hi. simpl in Hi. rewrite Forall_forall in F.
  destruct (F i Hi) as [H _]. destruct (H p Hp) as [_ H']. exact H'.
Qed.

Lemma main_writes_under_its_cloned_directory_witness :
  prefix ("cloned_" ++ replace_dots (netloc demo_py (main_url (fun u => u) "x")))%string
    "cloned_x/index.html" = true.
Proof.
  apply (main_writes_under_its_cloned_directory demo_py calm (fun u => u) "x" 10
           (IFile HtmlFile "cloned_x/index.html" (Html "<html></html>") FileOk)).
  - vm_compute. repeat (first [left; reflexivity | right]).
  - reflexivity.
Defined.

(** ** C4: the browser session when the run ends *)

Lemma session_open_from_app b l1 l2 :
  session_open_from b (l1 ++ l2) = session_open_from (session_open_from b l1) l2.
Proof.
  revert b. induction l1 as [|i l1 IH]; intros b; simpl; [reflexivity|].
  destruct i as [[] []| | | | |]; apply IH.
Qed.

(** The session ends with the exit from the Playwright context. *)
Lemma session_closed_by_exit before :
  session_open (before ++ [IUnit PlaywrightStop None]) = false.
Proof. unfold session_open. rewrite session_open_from_app. reflexivity. Qed.

(** Before the Playwright context is entered, no browser is launched. *)
Lemma session_not_opened pre : staged 0 1 pre -> session_open pre = false.
Proof.
  unfold session_open. intros [_ F]. induction pre as [|i pre IH]; [reflexivity|].
  inversion F as [|? ? Hi F']; subst. specialize (IH F').
  destruct i as [[] []| | | | |]; simpl in *; try exact IH; lia.
Qed.

Section Session.

Variable py : PyLib.
Variable w : World.
Variable self : Cloner.

Lemma call_reply o s r s' :
  call w o s = (r, s') ->
  trace s' = trace s ++ [IUnit o (w_unit w (length (trace s)) o)].
Proof.
  unfold call. destruct (w_unit w (length (trace s)) o); intros H;
    injection H as _ <-; reflexivity.
Qed.

(** A run that ends either stopped before the Playwright context was
    entered, or left it: then the exit is its last call. *)
Lemma clone_exit fuel s r final :
  clone py w self fuel s = (r, final) ->
  r <> OutOfFuel ->
  (exists pre, trace final = trace s ++ pre /\ staged 0 1 pre) \/
  (exists before,
     trace final
     = trace s ++ before
       ++ [IUnit PlaywrightStop
             (w_unit w (length (trace s ++ before)) PlaywrightStop)]).
Proof.
  unfold clone. intros H Hr.
  invert_bind H as s1 R1 K1; try (apply print_run in R1; destruct R1; discriminate).
  apply print_run in R1. destruct R1 as (_ & _ & T1 & _).
  pose proof (emits_setup_directories w self) as E2.
  invert_bind K1 as s2 R2 K2;
    destruct (emits_run _ _ _ _ _ _ E2 R2) as (e2 & T2 & S2);
    try (left; exists e2; split; [now rewrite T2, T1|];
         eapply staged_weaken; [| |exact S2]; lia).
  invert_bind K2 as s3 R3 K3.
  2: { left. apply call_reply in R3.
       eexists. split; [rewrite R3, T2, T1, <- app_assoc; reflexivity|].
       apply (staged_app 0 0 1); [lia|lia|exact S2|].
       apply staged_weaken with 1 1; [lia|lia|]. apply staged_one. simpl. lia. }
  2: { unfold call in R3. destruct (w_unit w (length (trace s2)) PlaywrightStart);
         discriminate. }
  apply call_reply in R3.
  right.
  assert (stop : forall (k : M unit) sx e3,
            (forall s0 r0 s0', k s0 = (r0, s0') -> s0' = s0) ->
            trace sx = trace s3 ++ e3 ->
            (call w PlaywrightStop ;; k) sx = (r, final) ->
            exists before,
              trace final
              = trace s ++ before
                ++ [IUnit PlaywrightStop
                      (w_unit w (length (trace s ++ before)) PlaywrightStop)]).
  { intros k sx e3 Hk Tx Hx.
    exists (e2 ++ [IUnit PlaywrightStart (w_unit w (length (trace s2)) PlaywrightStart)]
            ++ e3).
    assert (Ex : trace sx
                 = trace s ++ e2
                   ++ [IUnit PlaywrightStart (w_unit w (length (trace s2)) PlaywrightStart)]
                   ++ e3)
      by (rewrite Tx, R3, T2, T1; repeat rewrite <- app_assoc; reflexivity).
    rewrite (app_assoc (trace s) _ [_]), <- Ex.
    invert_bind Hx as s5 R5 K5.
    - apply call_reply in R5. apply Hk in K5. subst final. exact R5.
    - apply call_reply in R5. exact R5.
    - unfold call in R5. destruct (w_unit w (length (trace sx)) PlaywrightStop);
        discriminate. }
  apply with_exit_inv in K3.
  destruct K3 as [(a & s4 & B & X)|[(e' & s4 & B & X)|(B & X)]]; [| |contradiction].
  - destruct (emits_run _ _ _ _ _ _ (emits_clone_try py w self fuel) B) as (e3 & T3 & _).
    apply (stop (ret a) s4 e3); [|exact T3|exact X].
    intros s0 r0 s0' Hret. unfold ret in Hret. congruence.
  - destruct (emits_run _ _ _ _ _ _ (emits_clone_try py w self fuel) B) as (e3 & T3 & _).
    apply (stop (raise e') s4 e3); [|exact T3|exact X].
    intros s0 r0 s0' Hret. unfold raise in Hret. congruence.
Qed.

End Session.

Section CloseCall.

Variable py : PyLib.
Variable w : World.
Variable self : Cloner.

(** What comes before [browser.close()] ends, when it returns, with the
    manifest written. *)
Lemma before_close_manifest fuel s s' :
  (extract_assets_from_page py w self ;;
   download_assets py w self ;;
   save_html w self ;;
   take_screenshots w self fuel ;;
   save_metadata w self ;;
   print (completion_line self)) s = (Ok tt, s') ->
  exists pre m,
    trace s' = trace s ++ pre
               ++ [IFile ManifestFile (metadata_json self) (Json m) FileOk].
Proof.
  intros H.
  invert_bind H as s1 R1 K1; try discriminate.
  destruct (emits_run _ _ _ _ _ _ (emits_extract_assets_from_page py w self) R1)
    as (e1 & T1 & _).
  invert_bind K1 as s2 R2 K2; try discriminate.
  destruct (emits_run _ _ _ _ _ _ (emits_download_assets py w self) R2) as (e2 & T2 & _).
  invert_bind K2 as s3 R3 K3; try discriminate.
  destruct (emits_run _ _ _ _ _ _ (emits_save_html w self) R3) as (e3 & T3 & _).
  invert_bind K3 as s4 R4 K4; try discriminate.
  destruct (emits_run _ _ _ _ _ _ (emits_take_screenshots w self fuel) R4)
    as (e4 & T4 & _).
  invert_bind K4 as s5 R5 K5; try discriminate.
  apply save_metadata_Ok in R5. destruct R5 as (_ & T5).
  apply print_run in K5. destruct K5 as (_ & _ & T6 & _).
  exists (e1 ++ e2 ++ e3 ++ e4), (metadata_of self (assets s4)).
  rewrite T6, T5, T4, T3, T2, T1. repeat rewrite <- app_assoc. reflexivity.
Qed.

(** [browser.close()] is called only when the manifest has been written. *)
Lemma capture_close_called fuel s r s' evs x :
  capture py w self fuel s = (r, s') ->
  trace s' = trace s ++ evs ->
  In (IUnit BrowserClose x) evs ->
  exists m, In (IFile ManifestFile (metadata_json self) (Json m) FileOk) evs.
Proof.
  rewrite capture_split. intros H T Hin.
  pose proof (emits_before_close py w self fuel) as E.
  invert_bind H as s1 R K;
    destruct (emits_run _ _ _ _ _ _ E R) as (e1 & T1 & S1).
  - apply before_close_manifest in R. destruct R as (pre & m & Tm).
    apply call_reply in K. exists m.
    rewrite K, Tm, <- !app_assoc in T. apply app_inv_head in T. subst evs.
    apply in_or_app. right. now left.
  - rewrite T1 in T. apply app_inv_head in T. subst evs.
    exfalso. revert Hin. apply (staged_no_stage 8 16); [exact S1|simpl; lia].
  - rewrite T1 in T. apply app_inv_head in T. subst evs.
    exfalso. revert Hin. apply (staged_no_stage 8 16); [exact S1|simpl; lia].
Qed.

Lemma clone_close_called fuel s r final evs x :
  clone py w self fuel s = (r, final) ->
  trace final = trace s ++ evs ->
  In (IUnit BrowserClose x) evs ->
  exists m, In (IFile ManifestFile (metadata_json self) (Json m) FileOk) evs.
Proof.
  intros H T Hin. apply clone_run in H.
  destruct H as [(pre & T1 & S1)
                |(pre & sa & rb & sb & post & Ta & S1 & Aa & Hb & Tf & Hpost & _)].
  { rewrite T1 in T. apply app_inv_head in T. subst evs.
    exfalso. revert Hin. apply (staged_no_stage 0 1); [exact S1|simpl; lia]. }
  assert (Hpre : ~ In (IUnit BrowserClose x) pre)
    by (apply (staged_no_stage 0 1); [exact S1|simpl; lia]).
  assert (Hpost' : ~ In (IUnit BrowserClose x) post)
    by (intros Hz; apply Hpost in Hz; discriminate).
  invert_bind Hb as s1 R K;
    destruct (emits_run _ _ _ _ _ _ (emits_open_page w self) R) as (e1 & T1 & S1');
    assert (He1 : ~ In (IUnit BrowserClose x) e1)
      by (apply (staged_no_stage 2 7); [exact S1'|simpl; lia]).
  - destruct (emits_run _ _ _ _ _ _ (emits_capture py w self fuel) K) as (e2 & T2 & S2).
    assert (E : evs = pre ++ e1 ++ e2 ++ post).
    { rewrite Tf, T2, T1, Ta in T. repeat rewrite <- app_assoc in T.
      apply app_inv_head in T. now symmetry. }
    subst evs.
    assert (Hin2 : In (IUnit BrowserClose x) e2).
    { apply in_app_or in Hin. destruct Hin as [Hin|Hin]; [contradiction|].
      apply in_app_or in Hin. destruct Hin as [Hin|Hin]; [contradiction|].
      apply in_app_or in Hin. destruct Hin as [Hin|Hin]; [exact Hin|contradiction]. }
    destruct (capture_close_called fuel s1 rb sb e2 x K T2 Hin2) as (m & Hm).
    exists m. apply in_or_app. right. apply in_or_app. right. apply in_or_app. now left.
  - exfalso. rewrite Tf, T1, Ta in T. repeat rewrite <- app_assoc in T.
    apply app_inv_head in T. subst evs.
    apply in_app_or in Hin. destruct Hin as [Hin|Hin]; [contradiction|].
    apply in_app_or in Hin. destruct Hin as [Hin|Hin]; contradiction.
  - exfalso. rewrite Tf, T1, Ta in T. repeat rewrite <- app_assoc in T.
    apply app_inv_head in T. subst evs.
    apply in_app_or in Hin. destruct Hin as [Hin|Hin]; [contradiction|].
    apply in_app_or in Hin. destruct Hin as [Hin|Hin]; contradiction.
Qed.

End CloseCall.

(** C4.  Every run of [clone] that ends leaves no browser session open,
    provided that leaving the Playwright context does not itself fail: the
    run either never entered the context, and then launched no browser, or
    its last call is the exit from [async with async_playwright()], which
    ends the session of the browser launched inside it - on the error path
    (a navigation or a later stage that raised) as on the path without
    errors.  [browser.close()] itself is called only on the path without
    errors: whenever it is called, the manifest has been written. *)
Theorem browser_session_is_closed_when_the_run_ends py w self fuel s r final evs :
  clone py w self fuel s = (r, final) ->
  trace final = trace s ++ evs ->
  r <> OutOfFuel ->
  (forall n, w_unit w n PlaywrightStop = None) ->
  session_open evs = false /\
  ((exists before, evs = before ++ [IUnit PlaywrightStop None]) \/
   (forall headless x, ~ In (IUnit (Launch headless) x) evs)) /\
  (forall x, In (IUnit BrowserClose x) evs ->
     exists m, In (IFile ManifestFile (metadata_json self) (Json m) FileOk) evs).
Proof.
  intros H T Hr Hstop.
  assert (Hexit : (exists before, evs = before ++ [IUnit PlaywrightStop None]) \/
                  staged 0 1 evs).
  { destruct (clone_exit py w self fuel s r final H Hr) as [(pre & T1 & S1)|(before & T1)].
    - right. rewrite T1 in T. apply app_inv_head in T. now subst evs.
    - left. exists before. rewrite Hstop in T1. rewrite T1 in T.
      apply app_inv_head in T. now symmetry. }
  splits.
  - destruct Hexit as [(before & ->)|S1].
    + apply session_closed_by_exit.
    + now apply session_not_opened.
  - destruct Hexit as [Hx|S1]; [now left|right].
    intros headless x. apply (staged_no_stage 0 1); [exact S1|simpl; lia].
  - intros x. apply (clone_close_called py w self fuel s r final evs x H T).
Qed.

Lemma browser_session_is_closed_when_the_run_ends_witness :
  session_open (trace (snd (clone demo_py unreachable demo_cloner 10 start))) = false /\
  ((exists before,
      trace (snd (clone demo_py unreachable demo_cloner 10 start))
      = before ++ [IUnit PlaywrightStop None]) \/
   (forall headless x,
      ~ In (IUnit (Launch headless) x)
           (trace (snd (clone demo_py unreachable demo_cloner 10 start))))) /\
  (forall x,
     In (IUnit BrowserClose x) (trace (snd (clone demo_py unreachable demo_cloner 10 start))) ->
     exists m,
       In (IFile ManifestFile (metadata_json demo_cloner) (Json m) FileOk)
          (trace (snd (clone demo_py unreachable demo_cloner 10 start)))).
Proof.
  apply (browser_session_is_closed_when_the_run_ends demo_py unreachable demo_cloner 10
           start (fst (clone demo_py unreachable demo_cloner 10 start))
           (snd (clone demo_py unreachable demo_cloner 10 start))
           (trace (snd (clone demo_py unreachable demo_cloner 10 start)))).
  - vm_compute. reflexivity.
  - vm_compute. reflexivity.
  - vm_compute. discriminate.
  - intros n. reflexivity.
Defined.
